(** * MITRE data-quality plugin: scoring engine, task runner and matrix parser

    A shallow embedding of
    - [DataQualityScoringService] and [DataQualityTaskRunner]
      (server/services/data_quality_scoring_service.ts,
       server/services/data_quality_task_runner.ts), and
    - [MitreMatrixParser] (server/services/mitre_matrix_parser.ts),
    followed by the properties the specification states about them
    and by further properties of the same code.

    Conventions of the embedding.
    - A JavaScript number is a rational or [NaN]; every constant of the
      source (0.5, 0.8, 0.4, 2.0, 5.0 ...) is the decimal it denotes.
      [Math.round x] is [floor (x + 1/2)].  Arithmetic is exact, where
      the code computes in binary64.
    - A JavaScript string is held as the bytes of its UTF-8 encoding:
      [characters] splits it into its characters and [codeUnits] gives
      its UTF-16 code units.  Methods called with a one-character
      ASCII separator act on the bytes.
    - A property read [o[k]] on a plain object consults the object's own
      properties and then [Object.prototype].
    - An [async] method is a resumption: a tree whose [Await] nodes are
      the store round-trips, where the instance fields are visible to
      (and may be changed by) whatever else runs on the event loop.
    - Calls to the logger do not influence control flow and are left
      out. *)

From Stdlib Require Import ZArith NArith QArith Qround List String Ascii Bool Lia Lqa.
From Stdlib Require Import Sorted Permutation.
Import ListNotations.

Local Open Scope string_scope.
Local Open Scope Z_scope.

Set Implicit Arguments.

(* ================================================================== *)
(** ** JavaScript values used by the services *)

Module Js.

(** A number: a rational, or NaN. *)
Inductive num : Type :=
| Num (q : Q)
| NaN.

Definition lift2 (f : Q -> Q -> Q) (a b : num) : num :=
  match a, b with
  | Num x, Num y => Num (f x y)
  | _, _ => NaN
  end.

Definition add : num -> num -> num := lift2 Qplus.
Definition sub : num -> num -> num := lift2 Qminus.
Definition mul : num -> num -> num := lift2 Qmult.

(** Division; the source only divides by non-zero constants and by the
    length of a non-empty array, [x / 0] is kept out of the rationals. *)
Definition div (a b : num) : num :=
  match a, b with
  | Num x, Num y => if Qeq_bool y 0 then NaN else Num (x / y)%Q
  | _, _ => NaN
  end.

(** [Math.round]: nearest integer, ties towards +infinity. *)
Definition Math_round (a : num) : num :=
  match a with
  | Num x => Num (inject_Z (Qfloor (x + (1 # 2))%Q))
  | NaN => NaN
  end.

(** [a < b] and [a > b]; any comparison with NaN is false. *)
Definition lt (a b : num) : bool :=
  match a, b with
  | Num x, Num y => negb (Qle_bool y x)
  | _, _ => false
  end.

Definition gt (a b : num) : bool := lt b a.

(** [a === b] on numbers. *)
Definition strict_eq (a b : num) : bool :=
  match a, b with
  | Num x, Num y => Qeq_bool x y
  | _, _ => false
  end.

Definition of_Z (z : Z) : num := Num (inject_Z z).

(** Equality of numbers up to the representation of the rational. *)
Definition same (a b : num) : Prop :=
  match a, b with
  | Num x, Num y => (x == y)%Q
  | NaN, NaN => True
  | _, _ => False
  end.

(** [lo <= a <= hi] as JavaScript evaluates it: false for NaN. *)
Definition between (lo hi : Q) (a : num) : Prop :=
  match a with
  | Num x => (lo <= x /\ x <= hi)%Q
  | NaN => False
  end.

(** The values a property read can produce in the services. *)
Inductive value : Type :=
| VUndefined
| VNumber (n : num)
| VObject    (** a function or object, e.g. one inherited from Object.prototype *)
| VString.   (** a non-numeric string, as [1 + Object] produces *)

(** [ToNumber] *)
Definition ToNumber (v : value) : num :=
  match v with
  | VNumber n => n
  | VUndefined | VObject | VString => NaN
  end.

(** [v ?? d] *)
Definition nullish (v : value) (d : num) : value :=
  match v with
  | VUndefined => VNumber d
  | _ => v
  end.

(** [a + b]: numeric addition on numbers (undefined counts as NaN),
    string concatenation as soon as one side is an object or a string. *)
Definition plus (a b : value) : value :=
  match a, b with
  | VObject, _ | _, VObject | VString, _ | _, VString => VString
  | _, _ => VNumber (add (ToNumber a) (ToNumber b))
  end.

(** [a === d] for a number [d]. *)
Definition strict_eq_num (a : value) (d : num) : bool :=
  match a with
  | VNumber n => strict_eq n d
  | _ => false
  end.

(** The property names every plain object inherits from
    [Object.prototype]. *)
Definition Object_prototype_keys : list string :=
  [ "constructor"; "__defineGetter__"; "__defineSetter__"; "hasOwnProperty";
    "__lookupGetter__"; "__lookupSetter__"; "isPrototypeOf";
    "propertyIsEnumerable"; "toString"; "valueOf"; "__proto__";
    "toLocaleString" ].

Definition inherited (key : string) : bool :=
  existsb (String.eqb key) Object_prototype_keys.

(** A plain object used as [Record<string, number>]: its own
    properties, in insertion order. *)
Definition object := list (string * Q).

Fixpoint own (o : object) (key : string) : option Q :=
  match o with
  | [] => None
  | (k, v) :: rest => if String.eqb k key then Some v else own rest key
  end.

(** [o[key]] *)
Definition get (o : object) (key : string) : value :=
  match own o key with
  | Some v => VNumber (Num v)
  | None => if inherited key then VObject else VUndefined
  end.

(** [Object.values(o)] *)
Definition Object_values (o : object) : list Q := map snd o.

(** Truthiness of a string: [if (s)]. *)
Definition truthy (s : string) : bool := negb (String.eqb s "").

Definition truthy_opt (s : option string) : bool :=
  match s with
  | Some s => truthy s
  | None => false
  end.

End Js.

Abbreviation num := Js.num.
Abbreviation Num := Js.Num.
Abbreviation NaN := Js.NaN.

(** Decimal constants of the source. *)
Definition dec (n : Z) (d : positive) : num := Num (n # d).

(* ================================================================== *)
(** ** Data model of the scoring service *)

(** An instant.  The source carries instants as ISO-8601 strings made
    by [new Date(ms).toISOString()]; the embedding keeps the epoch
    milliseconds [ms] they denote. *)
Definition Timestamp := Z.

Record EcsMapping : Type := {
  name_field : string;
  name_value : string;
  channel_field : string;
  channel_value : string }.

Record Mapping : Type := {
  ecs : EcsMapping;
  status : string;
  confidence : string;
  notes : string;
  verified : bool }.

Record LogSourceReference : Type := {
  x_mitre_data_component_ref : string;
  data_component_name : string;
  name : string;
  channel : string;
  mapping : Mapping }.

(** [x_mitre_log_source_references] may be missing from a stored
    document, which [processAllAnalytics] checks for. *)
Record AnalyticDocument : Type := {
  id : string;
  analytic_name : string;
  x_mitre_log_source_references : option (list LogSourceReference) }.

Record DataFieldCompletenessDetails : Type := {
  base_score : num;
  status_multiplier : Js.value;
  confidence_multiplier : Js.value;
  reason : string }.

Record TimelinessDetails : Type := {
  last_doc_timestamp : option string;
  last_doc_ingested : option string;
  delta_seconds : option num;
  timeliness_reason : string }.

Record ConsistencyDetails : Type := {
  consistency_reason : string }.

Record DeviceCompletenessDetails : Type := {
  coverage_percent : num;
  device_reason : string }.

Record RetentionDetails : Type := {
  retention_percent : num;
  retention_reason : string }.

(** One dimension result [{ score, details }]. *)
Record Scored (V D : Type) : Type := {
  score : V;
  details : D }.

Record Scores : Type := {
  next_execution : Timestamp;
  quality_score : num;
  data_field_completeness : Scored num DataFieldCompletenessDetails;
  timeliness : Scored num TimelinessDetails;
  consistency : Scored num ConsistencyDetails;
  device_completeness : Scored Js.value DeviceCompletenessDetails;
  retention : Scored Js.value RetentionDetails }.

(** [{ ...logSourceRef, mapping: { ...mapping, ecs: { ...ecs, scores } } }] *)
Record LogSourceReferenceWithScores : Type := {
  reference : LogSourceReference;
  scores : Scores }.

Record AnalyticDocumentWithScores : Type := {
  scored_id : string;
  scored_name : string;
  scored_references : option (list LogSourceReferenceWithScores) }.

(** A record of the log store, as far as the service reads it:
    ['@timestamp'] and [event.ingested]. *)
Record LogDoc : Type := {
  at_timestamp : option string;
  event_ingested : option string }.

Record QueryResult : Type := {
  exists_ : bool;
  lastDoc : option LogDoc }.

(** A clause of the [bool.must] array of the probe. *)
Inductive Clause : Type :=
| term (field value : string)
| terms (field : string) (values : list string).

(** A page of the scrolled scan of the analytic catalog. *)
Record ScrollPage : Type := {
  hits_hits : list (option AnalyticDocument);
  _scroll_id : option string }.

Inductive Action : Type := init | update | none.

Record SmartResult : Type := {
  action : Action;
  count : Z }.

(** Constants (scoring service and lib/results/configurations.ts). *)
Definition LOGS_INDEX_PATTERN := "logs-*".
Definition DEFAULT_REFRESH_DELAY_MS : Z := 7 * 24 * 60 * 60 * 1000.
Definition SETTINGS_INDEX_NAME := ".kibana-mitre-data-quality-settings".
Definition DEFAULT_RETENTION_SCORE : num := dec 5 1.
Definition DEFAULT_DEVICE_COMPLETENESS_SCORE : num := dec 2 1.
Definition ECS_INDEX_NAME := ".kibana-mitre-data-quality-ecs-default".
Definition RESULTS_INDEX_NAME := ".kibana-mitre-data-quality-results-default".
Definition CACHE_TTL_MS : Z := 60000.

(* ================================================================== *)
(** ** The environment: store clients, clock, random source *)

(** The two identities the plugin queries the stores with. *)
Inductive Client : Type :=
| asInternalUser
| asCurrentUser (user : string).

(** A rejected promise or a thrown exception, with its message. *)
Definition Error := string.

Inductive Result (X : Type) : Type :=
| Ok (x : X)
| Err (e : Error).
Arguments Ok {X} x.
Arguments Err {X} e.

(** The calls made on an [ElasticsearchClient]; the index of the type
    is what the service reads from a resolved reply. *)
Inductive Request : Type -> Type :=
| indices_exists (cl : Client) (index : string) : Request bool
| count_docs (cl : Client) (index : string) : Request Z
  (** [get({index, id})], read as [_source?.scores] *)
| get_scores (cl : Client) (index id : string) : Request (option Js.object)
  (** the probe: [search] with [size: 1], sorted on ['@timestamp'] descending *)
| search_logs (cl : Client) (index : string) (must : list Clause)
    : Request (list (option LogDoc))
  (** [search] with [match_all] and [scroll: '1m'] *)
| search_scroll (cl : Client) (index : string) (size : Z) : Request ScrollPage
| scroll (cl : Client) (scroll_id : string) : Request ScrollPage
| clearScroll (cl : Client) (scroll_id : string) : Request unit
  (** [search] for results with a [next_execution] [lte now] *)
| search_due (cl : Client) (index : string) (size : Z) (now : Timestamp)
    : Request (list (option AnalyticDocumentWithScores))
  (** [index({index, id, document, refresh: false})] *)
| index_doc (cl : Client) (index id : string) (document : AnalyticDocumentWithScores)
    : Request unit
| indices_refresh (cl : Client) (index : string) : Request unit.

(** Synchronous reads of the environment. *)
Inductive Sync : Type -> Type :=
| Date_now : Sync Z
| Math_random : Sync Q.

(** Instance fields of the task runner and of the scoring service it
    owns ([esClient] of the runner and [internalClient] of the service
    are the same client). *)
Record Fields : Type := {
  internalClient : Client;
  logsClient : Client;
  refreshDelayMs : Z;
  retentionScoresCache : Js.object;
  retentionScoresCacheTimestamp : Z;
  deviceCompletenessCache : Js.object;
  deviceCompletenessCacheTimestamp : Z;
  isRunning : bool }.

Definition set_logsClient (c : Client) (s : Fields) : Fields :=
  {| internalClient := internalClient s; logsClient := c;
     refreshDelayMs := refreshDelayMs s;
     retentionScoresCache := retentionScoresCache s;
     retentionScoresCacheTimestamp := retentionScoresCacheTimestamp s;
     deviceCompletenessCache := deviceCompletenessCache s;
     deviceCompletenessCacheTimestamp := deviceCompletenessCacheTimestamp s;
     isRunning := isRunning s |}.

Definition set_retentionScoresCache (o : Js.object) (s : Fields) : Fields :=
  {| internalClient := internalClient s; logsClient := logsClient s;
     refreshDelayMs := refreshDelayMs s;
     retentionScoresCache := o;
     retentionScoresCacheTimestamp := retentionScoresCacheTimestamp s;
     deviceCompletenessCache := deviceCompletenessCache s;
     deviceCompletenessCacheTimestamp := deviceCompletenessCacheTimestamp s;
     isRunning := isRunning s |}.

Definition set_retentionScoresCacheTimestamp (t : Z) (s : Fields) : Fields :=
  {| internalClient := internalClient s; logsClient := logsClient s;
     refreshDelayMs := refreshDelayMs s;
     retentionScoresCache := retentionScoresCache s;
     retentionScoresCacheTimestamp := t;
     deviceCompletenessCache := deviceCompletenessCache s;
     deviceCompletenessCacheTimestamp := deviceCompletenessCacheTimestamp s;
     isRunning := isRunning s |}.

Definition set_deviceCompletenessCache (o : Js.object) (s : Fields) : Fields :=
  {| internalClient := internalClient s; logsClient := logsClient s;
     refreshDelayMs := refreshDelayMs s;
     retentionScoresCache := retentionScoresCache s;
     retentionScoresCacheTimestamp := retentionScoresCacheTimestamp s;
     deviceCompletenessCache := o;
     deviceCompletenessCacheTimestamp := deviceCompletenessCacheTimestamp s;
     isRunning := isRunning s |}.

Definition set_deviceCompletenessCacheTimestamp (t : Z) (s : Fields) : Fields :=
  {| internalClient := internalClient s; logsClient := logsClient s;
     refreshDelayMs := refreshDelayMs s;
     retentionScoresCache := retentionScoresCache s;
     retentionScoresCacheTimestamp := retentionScoresCacheTimestamp s;
     deviceCompletenessCache := deviceCompletenessCache s;
     deviceCompletenessCacheTimestamp := t;
     isRunning := isRunning s |}.

Definition set_isRunning (b : bool) (s : Fields) : Fields :=
  {| internalClient := internalClient s; logsClient := logsClient s;
     refreshDelayMs := refreshDelayMs s;
     retentionScoresCache := retentionScoresCache s;
     retentionScoresCacheTimestamp := retentionScoresCacheTimestamp s;
     deviceCompletenessCache := deviceCompletenessCache s;
     deviceCompletenessCacheTimestamp := deviceCompletenessCacheTimestamp s;
     isRunning := b |}.

(* ================================================================== *)
(** ** Asynchronous methods as resumptions *)

(** The run of an [async] method from a state of the fields.
    - [Await s c k]: suspended on the store call [c] with the fields
      at [s]; it resumes with the reply and with the fields as they
      are by then.
    - [Ask c k]: a synchronous read of the clock or the random source.
    - [Starved s]: a loop whose length the store decides used up the
      iterations granted to it. *)
Inductive Res (A : Type) : Type :=
| Done (a : A) (s : Fields)
| Raised (e : Error) (s : Fields)
| Starved (s : Fields)
| Await (X : Type) (s : Fields) (c : Request X) (k : Result X -> Fields -> Res A)
| Ask (X : Type) (c : Sync X) (k : X -> Res A).
Arguments Done {A} a s.
Arguments Raised {A} e s.
Arguments Starved {A} s.
Arguments Await {A X} s c k.
Arguments Ask {A X} c k.

Definition Task (A : Type) : Type := Fields -> Res A.

Fixpoint bindR {A B : Type} (r : Res A) (f : A -> Task B) : Res B :=
  match r with
  | Done a s => f a s
  | Raised e s => Raised e s
  | Starved s => Starved s
  | Await s c k => Await s c (fun x s' => bindR (k x s') f)
  | Ask c k => Ask c (fun x => bindR (k x) f)
  end.

(** [try { r } catch (e) { h e }] *)
Fixpoint catchR {A : Type} (r : Res A) (h : Error -> Task A) : Res A :=
  match r with
  | Done a s => Done a s
  | Raised e s => h e s
  | Starved s => Starved s
  | Await s c k => Await s c (fun x s' => catchR (k x s') h)
  | Ask c k => Ask c (fun x => catchR (k x) h)
  end.

(** [try { r } finally { fin }] for a block [fin] of field assignments. *)
Fixpoint finallyR {A : Type} (r : Res A) (fin : Fields -> Fields) : Res A :=
  match r with
  | Done a s => Done a (fin s)
  | Raised e s => Raised e (fin s)
  | Starved s => Starved s
  | Await s c k => Await s c (fun x s' => finallyR (k x s') fin)
  | Ask c k => Ask c (fun x => finallyR (k x) fin)
  end.

Definition ret {A : Type} (a : A) : Task A := fun s => Done a s.
Definition throw {A : Type} (e : Error) : Task A := fun s => Raised e s.
Definition starve {A : Type} : Task A := fun s => Starved s.
Definition bind {A B : Type} (t : Task A) (f : A -> Task B) : Task B :=
  fun s => bindR (t s) f.
Definition try_catch {A : Type} (t : Task A) (h : Error -> Task A) : Task A :=
  fun s => catchR (t s) h.
Definition try_finally {A : Type} (t : Task A) (fin : Fields -> Fields) : Task A :=
  fun s => finallyR (t s) fin.

(** Reading and assigning [this.*]. *)
Definition this : Task Fields := fun s => Done s s.
Definition assign (f : Fields -> Fields) : Task unit := fun s => Done tt (f s).

(** [await c] *)
Definition await {X : Type} (c : Request X) : Task X :=
  fun s => Await s c (fun r s' =>
    match r with
    | Ok x => Done x s'
    | Err e => Raised e s'
    end).

Definition ask {X : Type} (c : Sync X) : Task X :=
  fun s => Ask c (fun x => Done x s).

Declare Scope task_scope.
Delimit Scope task_scope with task.
Notation "x <- t ;; k" := (bind t (fun x => k))
  (at level 61, t at next level, right associativity) : task_scope.
Notation "t ;;; k" := (bind t (fun _ => k))
  (at level 61, right associativity) : task_scope.
Local Open Scope task_scope.

(** [for (const x of l) { body x }] *)
Fixpoint for_of {X : Type} (l : list X) (body : X -> Task unit) : Task unit :=
  match l with
  | [] => ret tt
  | x :: rest => body x ;;; for_of rest body
  end.

(* ================================================================== *)
(** ** String helpers of the probe *)

(** [s.split(sep)] for a one-character separator. *)
Fixpoint split (sep : ascii) (s : string) : list string :=
  match s with
  | EmptyString => [EmptyString]
  | String c rest =>
      if Ascii.eqb c sep then EmptyString :: split sep rest
      else match split sep rest with
           | [] => [String c EmptyString]
           | h :: t => String c h :: t
           end
  end.

(** A continuation byte of UTF-8. *)
Definition is_continuation (c : ascii) : bool :=
  let n := N_of_ascii c in ((128 <=? n) && (n <? 192))%N%bool.

(** The characters of a string, each as the bytes that encode it. *)
Fixpoint characters (s : string) : list string :=
  match s with
  | EmptyString => []
  | String a rest =>
      let n := N_of_ascii a in
      let single := String a EmptyString :: characters rest in
      if (n <? 192)%N then single
      else if (n <? 224)%N then
        match rest with
        | String b rest' =>
            if is_continuation b then String a (String b EmptyString) :: characters rest'
            else single
        | EmptyString => single
        end
      else if (n <? 240)%N then
        match rest with
        | String b (String c rest') =>
            if (is_continuation b && is_continuation c)%bool
            then String a (String b (String c EmptyString)) :: characters rest'
            else single
        | _ => single
        end
      else
        match rest with
        | String b (String c (String d rest')) =>
            if (is_continuation b && is_continuation c && is_continuation d)%bool
            then String a (String b (String c (String d EmptyString)))
                   :: characters rest'
            else single
        | _ => single
        end
  end.

(** The code point of a character; U+FFFD for a byte that encodes
    none. *)
Definition codePoint (character : string) : N :=
  let low c := (N_of_ascii c - 128)%N in
  match character with
  | String a EmptyString =>
      if (N_of_ascii a <? 128)%N then N_of_ascii a else 65533%N
  | String a (String b EmptyString) =>
      ((N_of_ascii a - 192) * 64 + low b)%N
  | String a (String b (String c EmptyString)) =>
      ((N_of_ascii a - 224) * 4096 + low b * 64 + low c)%N
  | String a (String b (String c (String d EmptyString))) =>
      ((N_of_ascii a - 240) * 262144 + low b * 4096 + low c * 64 + low d)%N
  | _ => 65533%N
  end.

(** White space and line terminators of ECMAScript: TAB, LF, VT, FF,
    CR, SP, NBSP, U+1680, U+2000 to U+200A, LS, PS, U+202F, U+205F,
    U+3000 and ZWNBSP. *)
Definition is_white (cp : N) : bool :=
  ((9 <=? cp) && (cp <=? 13) || (cp =? 32) || (cp =? 160) || (cp =? 5760)
   || (8192 <=? cp) && (cp <=? 8202) || (cp =? 8232) || (cp =? 8233)
   || (cp =? 8239) || (cp =? 8287) || (cp =? 12288) || (cp =? 65279))%N%bool.

Fixpoint dropWhile {X : Type} (p : X -> bool) (l : list X) : list X :=
  match l with
  | [] => []
  | x :: rest => if p x then dropWhile p rest else l
  end.

(** [s.trim()] *)
Definition trim (s : string) : string :=
  let white character := is_white (codePoint character) in
  String.concat EmptyString
    (rev (dropWhile white (rev (dropWhile white (characters s))))).

(** The string held by a truthy optional string. *)
Definition the (s : option string) : string :=
  match s with
  | Some s => s
  | None => EmptyString
  end.

(* ================================================================== *)
(** ** DataQualityScoringService *)

Section Service.

(** [new Date(text).getTime()]: the epoch milliseconds of a date
    string, NaN when the string is not a date. *)
Variable Date_getTime : string -> num.

(** [fetchRetentionSettings] *)
Definition fetchRetentionSettings : Task Js.object :=
  now <- ask Date_now ;;
  s <- this ;;
  if now - retentionScoresCacheTimestamp s <? CACHE_TTL_MS then
    ret (retentionScoresCache s)
  else
    try_catch
      (indexExists <- await (indices_exists (internalClient s) SETTINGS_INDEX_NAME) ;;
       if negb indexExists then
         assign (set_retentionScoresCache []) ;;;
         t <- ask Date_now ;;
         assign (set_retentionScoresCacheTimestamp t) ;;;
         ret []
       else
         s1 <- this ;;
         result <- await (get_scores (internalClient s1) SETTINGS_INDEX_NAME
                            "retention_scores") ;;
         let scores := match result with Some o => o | None => [] end in
         assign (set_retentionScoresCache scores) ;;;
         t <- ask Date_now ;;
         assign (set_retentionScoresCacheTimestamp t) ;;;
         ret scores)
      (fun _ =>
         assign (set_retentionScoresCache []) ;;;
         t <- ask Date_now ;;
         assign (set_retentionScoresCacheTimestamp t) ;;;
         ret []).

(** [configuredScores.reduce((sum, score) => sum + score, 0)] *)
Definition sum_scores (l : list Q) : Q := fold_left Qplus l 0%Q.

(** The mean of the configured scores, rounded to one decimal. *)
Definition averageScore (configuredScores : list Q) : num :=
  let averageScore :=
    Js.div (Num (sum_scores configuredScores))
           (Js.of_Z (Z.of_nat (List.length configuredScores))) in
  Js.div (Js.Math_round (Js.mul averageScore (dec 10 1))) (dec 10 1).

(** [getRetentionScoreForPlatform] *)
Definition getRetentionScoreForPlatform (platform : option string) : Task Js.value :=
  settings <- fetchRetentionSettings ;;
  if Js.truthy_opt platform then
    ret (Js.nullish (Js.get settings (the platform)) DEFAULT_RETENTION_SCORE)
  else
    let configuredScores := Js.Object_values settings in
    if Nat.eqb (List.length configuredScores) 0 then
      ret (Js.VNumber DEFAULT_RETENTION_SCORE)
    else
      ret (Js.VNumber (averageScore configuredScores)).

(** [fetchDeviceCompletenessSettings] *)
Definition fetchDeviceCompletenessSettings : Task Js.object :=
  now <- ask Date_now ;;
  s <- this ;;
  if now - deviceCompletenessCacheTimestamp s <? CACHE_TTL_MS then
    ret (deviceCompletenessCache s)
  else
    try_catch
      (indexExists <- await (indices_exists (internalClient s) SETTINGS_INDEX_NAME) ;;
       if negb indexExists then
         assign (set_deviceCompletenessCache []) ;;;
         t <- ask Date_now ;;
         assign (set_deviceCompletenessCacheTimestamp t) ;;;
         ret []
       else
         s1 <- this ;;
         result <- await (get_scores (internalClient s1) SETTINGS_INDEX_NAME
                            "device_completeness_scores") ;;
         let scores := match result with Some o => o | None => [] end in
         assign (set_deviceCompletenessCache scores) ;;;
         t <- ask Date_now ;;
         assign (set_deviceCompletenessCacheTimestamp t) ;;;
         ret scores)
      (fun _ =>
         assign (set_deviceCompletenessCache []) ;;;
         t <- ask Date_now ;;
         assign (set_deviceCompletenessCacheTimestamp t) ;;;
         ret []).

(** [invalidateSettingsCache] *)
Definition invalidateSettingsCache : Task unit :=
  assign (set_retentionScoresCacheTimestamp 0) ;;;
  assign (set_deviceCompletenessCacheTimestamp 0).

(** [getDeviceCompletenessScoreForPlatform] *)
Definition getDeviceCompletenessScoreForPlatform (platform : option string)
  : Task Js.value :=
  settings <- fetchDeviceCompletenessSettings ;;
  if Js.truthy_opt platform then
    ret (Js.nullish (Js.get settings (the platform)) DEFAULT_DEVICE_COMPLETENESS_SCORE)
  else
    let configuredScores := Js.Object_values settings in
    if Nat.eqb (List.length configuredScores) 0 then
      ret (Js.VNumber DEFAULT_DEVICE_COMPLETENESS_SCORE)
    else
      ret (Js.VNumber (averageScore configuredScores)).

(** [setLogsClient] *)
Definition setLogsClient (client : Client) : Task unit :=
  assign (set_logsClient client).

(** The instants a [Date] can hold: |ms| <= 8.64e15; [toISOString]
    throws a RangeError outside of them. *)
Definition MAX_TIME : Z := 8640000000000000.

(** [calculateNextExecution] *)
Definition calculateNextExecution : Task Timestamp :=
  r <- ask Math_random ;;
  let randomSeconds := Qfloor (r * inject_Z (360 - 60 + 1)) + 60 in
  now <- ask Date_now ;;
  s <- this ;;
  let nextExecutionMs := now + refreshDelayMs s + randomSeconds * 1000 in
  if Z.abs nextExecutionMs <=? MAX_TIME then ret nextExecutionMs
  else throw "RangeError: Invalid time value".

(** The [bool.must] clauses of the probe. *)
Definition mustClauses (nameField nameValue : string)
    (channelField channelValue : option string) : list Clause :=
  term nameField nameValue ::
  (if (Js.truthy_opt channelField && Js.truthy_opt channelValue)%bool then
     let channelValues := map trim (split "," (the channelValue)) in
     if Nat.eqb (List.length channelValues) 1 then
       [term (the channelField) (hd EmptyString channelValues)]
     else
       [terms (the channelField) channelValues]
   else []).

(** [queryFieldExists] *)
Definition queryFieldExists (nameField nameValue : string)
    (channelField channelValue : option string) : Task QueryResult :=
  if (negb (Js.truthy nameField) || negb (Js.truthy nameValue))%bool then
    ret {| exists_ := false; lastDoc := None |}
  else
    try_catch
      (let must := mustClauses nameField nameValue channelField channelValue in
       s <- this ;;
       response <- await (search_logs (logsClient s) LOGS_INDEX_PATTERN must) ;;
       match response with
       | hit :: _ => ret {| exists_ := true; lastDoc := hit |}
       | [] => ret {| exists_ := false; lastDoc := None |}
       end)
      (fun _ => ret {| exists_ := false; lastDoc := None |}).

Record CompletenessResult : Type := {
  completeness_score : num;
  completeness_details : DataFieldCompletenessDetails;
  completeness_lastDoc : option LogDoc }.

Definition statusMultipliers : Js.object :=
  [ ("complete", 1 # 1); ("partial", 5 # 10); ("unmapped", 0 # 1) ]%Q.

Definition confidenceMultipliers : Js.object :=
  [ ("high", 1 # 1); ("medium", 8 # 10); ("low", 4 # 10); ("", 0 # 1) ]%Q.

(** [calculateDataFieldCompletenessScore] *)
Definition calculateDataFieldCompletenessScore (status confidence : string)
    (nameField nameValue : string) (channelField channelValue : option string)
  : Task CompletenessResult :=
  if String.eqb status "unmapped" then
    ret {| completeness_score := dec 0 1;
           completeness_details :=
             {| base_score := dec 0 1;
                status_multiplier := Js.VNumber (dec 0 1);
                confidence_multiplier := Js.VNumber (dec 0 1);
                reason := "Status is unmapped" |};
           completeness_lastDoc := None |}
  else
    let status_multiplier := Js.nullish (Js.get statusMultipliers status) (dec 0 1) in
    let confidence_multiplier :=
      Js.nullish (Js.get confidenceMultipliers confidence) (dec 0 1) in
    queryResult <- queryFieldExists nameField nameValue channelField channelValue ;;
    let base_score := if exists_ queryResult then dec 5 1 else dec 0 1 in
    let reason :=
      if exists_ queryResult then "" else "Fields not found in Elasticsearch" in
    let finalScore :=
      Js.mul (Js.mul base_score (Js.ToNumber status_multiplier))
             (Js.ToNumber confidence_multiplier) in
    ret {| completeness_score :=
             Js.div (Js.Math_round (Js.mul finalScore (dec 100 1))) (dec 100 1);
           completeness_details :=
             {| base_score := base_score;
                status_multiplier := status_multiplier;
                confidence_multiplier := confidence_multiplier;
                reason := reason |};
           completeness_lastDoc := lastDoc queryResult |}.

(** [calculateTimelinessScore].  The figure appended to the reason
    ([deltaMinutes.toFixed(2)]) is left out of the reason string. *)
Definition calculateTimelinessScore (lastDoc : option LogDoc)
  : Scored num TimelinessDetails :=
  match lastDoc with
  | None =>
      {| score := dec 0 1;
         details := {| last_doc_timestamp := None; last_doc_ingested := None;
                       delta_seconds := None;
                       timeliness_reason := "No document available" |} |}
  | Some doc =>
      let timestampStr := at_timestamp doc in
      let ingestedStr := event_ingested doc in
      if negb (Js.truthy_opt ingestedStr) then
        {| score := dec 0 1;
           details := {| last_doc_timestamp := None; last_doc_ingested := None;
                         delta_seconds := None;
                         timeliness_reason := "event.ingested field not found" |} |}
      else if negb (Js.truthy_opt timestampStr) then
        {| score := dec 0 1;
           details := {| last_doc_timestamp := None; last_doc_ingested := None;
                         delta_seconds := None;
                         timeliness_reason := "@timestamp field not found" |} |}
      else
        let timestamp := Date_getTime (the timestampStr) in
        let ingested := Date_getTime (the ingestedStr) in
        let deltaSeconds := Js.div (Js.sub ingested timestamp) (dec 1000 1) in
        let deltaMinutes := Js.div deltaSeconds (dec 60 1) in
        let delta :=
          Js.div (Js.Math_round (Js.mul deltaSeconds (dec 100 1))) (dec 100 1) in
        let mk (score : num) (reason : string) :=
          {| score := score;
             details := {| last_doc_timestamp := timestampStr;
                           last_doc_ingested := ingestedStr;
                           delta_seconds := Some delta;
                           timeliness_reason := reason |} |} in
        if Js.lt deltaMinutes (dec 5 1) then mk (dec 5 1) "Delta < 5 minutes"
        else if Js.lt deltaMinutes (dec 15 1) then mk (dec 3 1) "Delta 5-15 minutes"
        else if Js.lt deltaMinutes (dec 60 1) then mk (dec 1 1) "Delta 15m-1h"
        else mk (dec 0 1) "Delta > 1 hour"
  end.

(** [calculateConsistencyScore] *)
Definition calculateConsistencyScore (fieldExists : bool)
  : Scored num ConsistencyDetails :=
  if fieldExists then
    {| score := dec 5 1;
       details := {| consistency_reason := "Fields standardized to ECS format" |} |}
  else
    {| score := dec 0 1;
       details := {| consistency_reason := "Fields not found or not standardized" |} |}.

(** [calculateDeviceCompletenessScore]; an undefined [configuredScore]
    takes the default of the parameter. *)
Definition calculateDeviceCompletenessScore (fieldExists : bool)
    (configuredScore : Js.value) : Scored Js.value DeviceCompletenessDetails :=
  let configuredScore := Js.nullish configuredScore DEFAULT_DEVICE_COMPLETENESS_SCORE in
  if negb fieldExists then
    {| score := Js.VNumber (dec 0 1);
       details := {| coverage_percent := dec 0 1;
                     device_reason := "Field not found - 0% coverage" |} |}
  else
    let coveragePercent :=
      Js.Math_round
        (Js.mul (Js.div (Js.ToNumber configuredScore) (dec 5 1)) (dec 100 1)) in
    {| score := configuredScore;
       details :=
         {| coverage_percent := coveragePercent;
            device_reason :=
              if Js.strict_eq_num configuredScore DEFAULT_DEVICE_COMPLETENESS_SCORE
              then "Default score - adjust in settings based on actual device coverage"
              else "Configured device completeness score for platform" |} |}.

(** [calculateRetentionScore] *)
Definition calculateRetentionScore (fieldExists : bool)
    (configuredScore : Js.value) : Scored Js.value RetentionDetails :=
  let configuredScore := Js.nullish configuredScore DEFAULT_RETENTION_SCORE in
  if negb fieldExists then
    {| score := Js.VNumber (dec 0 1);
       details := {| retention_percent := dec 0 1;
                     retention_reason := "Field not found - no data retention" |} |}
  else
    let retentionPercent :=
      Js.Math_round
        (Js.mul (Js.div (Js.ToNumber configuredScore) (dec 5 1)) (dec 100 1)) in
    {| score := configuredScore;
       details :=
         {| retention_percent := retentionPercent;
            retention_reason :=
              if Js.strict_eq_num configuredScore DEFAULT_RETENTION_SCORE
              then "Default score - adjust in settings if retention limitations exist"
              else "Configured retention score for platform" |} |}.

(** The aggregate: the five scores added left to right, divided by 5,
    rounded to one decimal. *)
Definition qualityScore (completeness timeliness consistency : num)
    (deviceCompleteness retention : Js.value) : num :=
  let total :=
    Js.plus
      (Js.plus (Js.VNumber (Js.add (Js.add completeness timeliness) consistency))
               deviceCompleteness)
      retention in
  Js.div
    (Js.Math_round (Js.mul (Js.div (Js.ToNumber total) (dec 5 1)) (dec 10 1)))
    (dec 10 1).

(** [calculateScoresForLogSource] *)
Definition calculateScoresForLogSource (logSourceRef : LogSourceReference)
    (platform : option string) : Task Scores :=
  let m := mapping logSourceRef in
  let e := ecs m in
  let useChannel := String.eqb (status m) "complete" in
  completenessResult <-
    calculateDataFieldCompletenessScore (status m) (confidence m)
      (name_field e) (name_value e)
      (if useChannel then Some (channel_field e) else None)
      (if useChannel then Some (channel_value e) else None) ;;
  let fieldExists :=
    Js.gt (base_score (completeness_details completenessResult)) (dec 0 1) in
  let timelinessResult :=
    calculateTimelinessScore (completeness_lastDoc completenessResult) in
  let consistencyResult := calculateConsistencyScore fieldExists in
  configuredDeviceCompletenessScore <- getDeviceCompletenessScoreForPlatform platform ;;
  let deviceCompletenessResult :=
    calculateDeviceCompletenessScore fieldExists configuredDeviceCompletenessScore in
  configuredRetentionScore <- getRetentionScoreForPlatform platform ;;
  let retentionResult := calculateRetentionScore fieldExists configuredRetentionScore in
  let quality :=
    qualityScore (completeness_score completenessResult) (score timelinessResult)
      (score consistencyResult) (score deviceCompletenessResult)
      (score retentionResult) in
  next <- calculateNextExecution ;;
  ret {| next_execution := next;
         quality_score := quality;
         data_field_completeness :=
           {| score := completeness_score completenessResult;
              details := completeness_details completenessResult |};
         timeliness := timelinessResult;
         consistency := consistencyResult;
         device_completeness := deviceCompletenessResult;
         retention := retentionResult |}.

(** The loop of [processAnalytic] over the references. *)
Fixpoint scoreReferences (refs : list LogSourceReference) (platform : option string)
  : Task (list LogSourceReferenceWithScores) :=
  match refs with
  | [] => ret []
  | logSourceRef :: rest =>
      scores <- calculateScoresForLogSource logSourceRef platform ;;
      more <- scoreReferences rest platform ;;
      ret ({| reference := logSourceRef; scores := scores |} :: more)
  end.

(** [processAnalytic]; iterating a missing reference array throws. *)
Definition processAnalytic (analytic : AnalyticDocument) (platform : option string)
  : Task AnalyticDocumentWithScores :=
  match x_mitre_log_source_references analytic with
  | None => throw "TypeError: analytic.x_mitre_log_source_references is not iterable"
  | Some refs =>
      logSourcesWithScores <- scoreReferences refs platform ;;
      ret {| scored_id := id analytic;
             scored_name := analytic_name analytic;
             scored_references := Some logSourcesWithScores |}
  end.

(** [analyticNeedsRecalculation]: some reference has a
    [next_execution] that is not in the future. *)
Definition analyticNeedsRecalculation (analytic : AnalyticDocumentWithScores)
  : Task bool :=
  now <- ask Date_now ;;
  match scored_references analytic with
  | None => throw "TypeError: analytic.x_mitre_log_source_references is not iterable"
  | Some refs => ret (existsb (fun r => next_execution (scores r) <=? now) refs)
  end.

(** The body of the [for (const hit of hits)] loop of
    [processAllAnalytics]. *)
Definition processHit (hit : option AnalyticDocument) : Task unit :=
  match hit with
  | None => ret tt
  | Some analytic =>
      match x_mitre_log_source_references analytic with
      | None | Some [] => ret tt
      | Some _ =>
          try_catch
            (processedAnalytic <- processAnalytic analytic None ;;
             s <- this ;;
             await (index_doc (internalClient s) RESULTS_INDEX_NAME
                      (scored_id processedAnalytic) processedAnalytic))
            (fun _ => ret tt)
      end
  end.

(** The [while (hits.length > 0)] loop of [processAllAnalytics]; it
    returns the scroll id it ends with.  [fuel] bounds the number of
    pages the loop is granted. *)
Fixpoint scrollLoop (fuel : nat) (hits : list (option AnalyticDocument))
    (scrollId : option string) : Task (option string) :=
  match hits with
  | [] => ret scrollId
  | _ :: _ =>
      match fuel with
      | O => starve
      | S fuel' =>
          for_of hits processHit ;;;
          if Js.truthy_opt scrollId then
            s <- this ;;
            nextScrollResponse <- await (scroll (internalClient s) (the scrollId)) ;;
            scrollLoop fuel' (hits_hits nextScrollResponse) (_scroll_id nextScrollResponse)
          else ret scrollId
      end
  end.

(** [processAllAnalytics]; the [catch] block logs and rethrows. *)
Definition processAllAnalytics (fuel : nat) : Task unit :=
  try_catch
    (s <- this ;;
     indexExists <- await (indices_exists (internalClient s) ECS_INDEX_NAME) ;;
     if negb indexExists then ret tt
     else
       s <- this ;;
       scrollResponse <- await (search_scroll (internalClient s) ECS_INDEX_NAME 100) ;;
       scrollId <- scrollLoop fuel (hits_hits scrollResponse) (_scroll_id scrollResponse) ;;
       (if Js.truthy_opt scrollId then
          s <- this ;;
          await (clearScroll (internalClient s) (the scrollId))
        else ret tt) ;;;
       s <- this ;;
       await (indices_refresh (internalClient s) RESULTS_INDEX_NAME))
    (fun error => throw error).

(** [hits.filter((hit) => hit._source).map((hit) => hit._source)] *)
Fixpoint sources {X : Type} (hits : list (option X)) : list X :=
  match hits with
  | [] => []
  | Some x :: rest => x :: sources rest
  | None :: rest => sources rest
  end.

(** [getAnalyticsNeedingRecalculation] *)
Definition getAnalyticsNeedingRecalculation : Task (list AnalyticDocumentWithScores) :=
  try_catch
    (now <- ask Date_now ;;
     s <- this ;;
     response <- await (search_due (internalClient s) RESULTS_INDEX_NAME 100 now) ;;
     ret (sources response))
    (fun _ => ret []).

End Service.

(* ================================================================== *)
(** ** DataQualityTaskRunner *)

Section Runner.

Variable Date_getTime : string -> num.

(** [new DataQualityTaskRunner(esClient, logger, refreshDelayMs)],
    which builds its [DataQualityScoringService]. *)
Definition new_DataQualityTaskRunner (esClient : Client) (refreshDelayMs : option Z)
  : Fields :=
  {| internalClient := esClient;
     logsClient := esClient;
     refreshDelayMs :=
       match refreshDelayMs with
       | Some d => d
       | None => DEFAULT_REFRESH_DELAY_MS
       end;
     retentionScoresCache := [];
     retentionScoresCacheTimestamp := 0;
     deviceCompletenessCache := [];
     deviceCompletenessCacheTimestamp := 0;
     isRunning := false |}.

(** [runFullCalculation]; the [catch] block logs and swallows. *)
Definition runFullCalculation (fuel : nat) : Task unit :=
  s <- this ;;
  if isRunning s then ret tt
  else
    assign (set_isRunning true) ;;;
    try_finally
      (try_catch (processAllAnalytics Date_getTime fuel) (fun _ => ret tt))
      (set_isRunning false).

(** [runFullCalculationWithClient] *)
Definition runFullCalculationWithClient (fuel : nat) (logsClient : Client)
  : Task unit :=
  s <- this ;;
  if isRunning s then ret tt
  else
    assign (set_isRunning true) ;;;
    try_finally
      (try_catch
         (setLogsClient logsClient ;;;
          processAllAnalytics Date_getTime fuel)
         (fun _ => ret tt))
      (fun s => set_isRunning false (set_logsClient (internalClient s) s)).

(** The copy [runSmartScoringWithClient] makes of a stored result
    before it recomputes it: the scores are dropped. *)
Definition withoutScores (analytic : AnalyticDocumentWithScores)
  : Task AnalyticDocument :=
  match scored_references analytic with
  | None =>
      throw "TypeError: Cannot read properties of undefined (reading 'map')"
  | Some refs =>
      ret {| id := scored_id analytic;
             analytic_name := scored_name analytic;
             x_mitre_log_source_references := Some (map reference refs) |}
  end.

(** The body of the [for (const analytic of dueAnalytics)] loop. *)
Definition recalculate (analytic : AnalyticDocumentWithScores) : Task unit :=
  try_catch
    (copy <- withoutScores analytic ;;
     processedAnalytic <- processAnalytic Date_getTime copy None ;;
     s <- this ;;
     await (index_doc (internalClient s) RESULTS_INDEX_NAME
              (scored_id processedAnalytic) processedAnalytic))
    (fun _ => ret tt).

(** The [try] block of [runSmartScoringWithClient]. *)
Definition smartBody (fuel : nat) (logsClient : Client) : Task SmartResult :=
  setLogsClient logsClient ;;;
  s <- this ;;
  resultsIndexExists <-
    await (indices_exists (internalClient s) RESULTS_INDEX_NAME) ;;
  if negb resultsIndexExists then
    processAllAnalytics Date_getTime fuel ;;;
    ret {| action := init; count := -1 |}
  else
    s <- this ;;
    countResult <- await (count_docs (internalClient s) RESULTS_INDEX_NAME) ;;
    if countResult =? 0 then
      processAllAnalytics Date_getTime fuel ;;;
      ret {| action := init; count := -1 |}
    else
      dueAnalytics <- getAnalyticsNeedingRecalculation ;;
      if Nat.eqb (List.length dueAnalytics) 0 then
        ret {| action := none; count := 0 |}
      else
        for_of dueAnalytics recalculate ;;;
        s <- this ;;
        await (indices_refresh (internalClient s) RESULTS_INDEX_NAME) ;;;
        ret {| action := update;
               count := Z.of_nat (List.length dueAnalytics) |}.

(** [runSmartScoringWithClient]; the [catch] block logs and rethrows. *)
Definition runSmartScoringWithClient (fuel : nat) (logsClient : Client)
  : Task SmartResult :=
  s <- this ;;
  if isRunning s then ret {| action := none; count := 0 |}
  else
    assign (set_isRunning true) ;;;
    try_finally
      (try_catch (smartBody fuel logsClient) (fun error => throw error))
      (fun s => set_isRunning false (set_logsClient (internalClient s) s)).

End Runner.

(* ================================================================== *)
(** ** MitreMatrixParser and the types of common/types.ts *)

Module StixExternalReference.
Record t : Type := {
  source_name : string;
  external_id : option string;
  url : option string }.
End StixExternalReference.

Module StixKillChainPhase.
Record t : Type := {
  kill_chain_name : string;
  phase_name : string }.
End StixKillChainPhase.

Module StixObject.
Record t : Type := {
  type : string;
  id : string;
  name : option string;
  description : option string;
  external_references : option (list StixExternalReference.t);
  kill_chain_phases : option (list StixKillChainPhase.t);
  x_mitre_is_subtechnique : option bool;
  x_mitre_deprecated : option bool;
  revoked : option bool;
  x_mitre_analytic_refs : option (list string);
  x_mitre_platforms : option (list string);
  relationship_type : option string;
  source_ref : option string;
  target_ref : option string }.
End StixObject.

Module StixAttackPattern.
Record t : Type := {
  id : string;
  name : string;
  description : string;
  external_references : list StixExternalReference.t;
  kill_chain_phases : option (list StixKillChainPhase.t);
  x_mitre_is_subtechnique : option bool;
  x_mitre_deprecated : option bool;
  revoked : option bool }.
End StixAttackPattern.

Module StixDetectionStrategy.
Record t : Type := {
  id : string;
  name : string;
  external_references : list StixExternalReference.t;
  x_mitre_analytic_refs : option (list string);
  x_mitre_deprecated : option bool }.
End StixDetectionStrategy.

Module StixAnalytic.
Record t : Type := {
  id : string;
  name : string;
  external_references : list StixExternalReference.t;
  x_mitre_platforms : option (list string);
  x_mitre_deprecated : option bool }.
End StixAnalytic.

Module StixRelationship.
Record t : Type := {
  id : string;
  relationship_type : string;
  source_ref : string;
  target_ref : string;
  x_mitre_deprecated : option bool }.
End StixRelationship.

Module MitreTactic.
Record t : Type := {
  id : string;
  name : string;
  shortName : string;
  description : string;
  externalId : string;
  url : string }.
End MitreTactic.

Module MitreAnalytic.
Record t : Type := {
  id : string;
  name : string;
  externalId : string;
  platforms : list string }.
End MitreAnalytic.

Module MitreDetectionStrategy.
Record t : Type := {
  id : string;
  name : string;
  externalId : string;
  url : string;
  analytics : list MitreAnalytic.t }.
End MitreDetectionStrategy.

Module MitreTechnique.
#[warnings="-register-all"]
Inductive t : Type := Build {
  id : string;
  name : string;
  externalId : string;
  url : string;
  description : string;
  tacticShortNames : list string;
  isSubtechnique : bool;
  parentTechniqueId : option string;
  subtechniques : option (list t);
  detectionStrategies : option (list MitreDetectionStrategy.t) }.

Definition with_subtechniques (subs : option (list t)) (x : t) : t :=
  Build (id x) (name x) (externalId x) (url x) (description x)
        (tacticShortNames x) (isSubtechnique x) (parentTechniqueId x)
        subs (detectionStrategies x).

Definition with_detectionStrategies
    (ds : option (list MitreDetectionStrategy.t)) (x : t) : t :=
  Build (id x) (name x) (externalId x) (url x) (description x)
        (tacticShortNames x) (isSubtechnique x) (parentTechniqueId x)
        (subtechniques x) ds.
End MitreTechnique.

Module TacticWithTechniques.
Record t : Type := {
  tactic : MitreTactic.t;
  techniques : list MitreTechnique.t }.
End TacticWithTechniques.

Module MitreMatrixData.
Record t : Type := {
  tactics : list TacticWithTechniques.t;
  availablePlatforms : list string }.
End MitreMatrixData.

Definition MITRE_TACTICS_ORDER : list MitreTactic.t := [
  {| MitreTactic.id := "x-mitre-tactic--daa4cbb1-b4f4-4723-a824-7f1efd6e0592";
     MitreTactic.name := "Reconnaissance";
     MitreTactic.shortName := "reconnaissance";
     MitreTactic.description :=
       "The adversary is trying to gather information they can use to plan future operations.";
     MitreTactic.externalId := "TA0043";
     MitreTactic.url := "https://attack.mitre.org/tactics/TA0043" |};
  {| MitreTactic.id := "x-mitre-tactic--d679bca2-e57d-4935-8650-8031c87a4400";
     MitreTactic.name := "Resource Development";
     MitreTactic.shortName := "resource-development";
     MitreTactic.description :=
       "The adversary is trying to establish resources they can use to support operations.";
     MitreTactic.externalId := "TA0042";
     MitreTactic.url := "https://attack.mitre.org/tactics/TA0042" |};
  {| MitreTactic.id := "x-mitre-tactic--ffd5bcee-6e16-4dd2-8eca-7b3beedf33ca";
     MitreTactic.name := "Initial Access";
     MitreTactic.shortName := "initial-access";
     MitreTactic.description :=
       "The adversary is trying to get into your network.";
     MitreTactic.externalId := "TA0001";
     MitreTactic.url := "https://attack.mitre.org/tactics/TA0001" |};
  {| MitreTactic.id := "x-mitre-tactic--4ca45d45-df4d-4613-8980-bac22d278fa5";
     MitreTactic.name := "Execution";
     MitreTactic.shortName := "execution";
     MitreTactic.description :=
       "The adversary is trying to run malicious code.";
     MitreTactic.externalId := "TA0002";
     MitreTactic.url := "https://attack.mitre.org/tactics/TA0002" |};
  {| MitreTactic.id := "x-mitre-tactic--5bc1d813-693e-4823-9961-abf9af4b0e92";
     MitreTactic.name := "Persistence";
     MitreTactic.shortName := "persistence";
     MitreTactic.description :=
       "The adversary is trying to maintain their foothold.";
     MitreTactic.externalId := "TA0003";
     MitreTactic.url := "https://attack.mitre.org/tactics/TA0003" |};
  {| MitreTactic.id := "x-mitre-tactic--5e29b093-294e-49e9-a803-dab3d73b77dd";
     MitreTactic.name := "Privilege Escalation";
     MitreTactic.shortName := "privilege-escalation";
     MitreTactic.description :=
       "The adversary is trying to gain higher-level permissions.";
     MitreTactic.externalId := "TA0004";
     MitreTactic.url := "https://attack.mitre.org/tactics/TA0004" |};
  {| MitreTactic.id := "x-mitre-tactic--78b23412-0651-46d7-a540-170a1ce8bd5a";
     MitreTactic.name := "Defense Evasion";
     MitreTactic.shortName := "defense-evasion";
     MitreTactic.description :=
       "The adversary is trying to avoid being detected.";
     MitreTactic.externalId := "TA0005";
     MitreTactic.url := "https://attack.mitre.org/tactics/TA0005" |};
  {| MitreTactic.id := "x-mitre-tactic--2558fd61-8c75-4730-94c4-11926db2a263";
     MitreTactic.name := "Credential Access";
     MitreTactic.shortName := "credential-access";
     MitreTactic.description :=
       "The adversary is trying to steal account names and passwords.";
     MitreTactic.externalId := "TA0006";
     MitreTactic.url := "https://attack.mitre.org/tactics/TA0006" |};
  {| MitreTactic.id := "x-mitre-tactic--c17c5845-175e-4421-9713-829d0573dbc9";
     MitreTactic.name := "Discovery";
     MitreTactic.shortName := "discovery";
     MitreTactic.description :=
       "The adversary is trying to figure out your environment.";
     MitreTactic.externalId := "TA0007";
     MitreTactic.url := "https://attack.mitre.org/tactics/TA0007" |};
  {| MitreTactic.id := "x-mitre-tactic--7141578b-e50b-4dcc-bfa4-08a8dd689e9e";
     MitreTactic.name := "Lateral Movement";
     MitreTactic.shortName := "lateral-movement";
     MitreTactic.description :=
       "The adversary is trying to move through your environment.";
     MitreTactic.externalId := "TA0008";
     MitreTactic.url := "https://attack.mitre.org/tactics/TA0008" |};
  {| MitreTactic.id := "x-mitre-tactic--d108ce10-2419-4cf9-a774-46161d6c6cfe";
     MitreTactic.name := "Collection";
     MitreTactic.shortName := "collection";
     MitreTactic.description :=
       "The adversary is trying to gather data of interest to their goal.";
     MitreTactic.externalId := "TA0009";
     MitreTactic.url := "https://attack.mitre.org/tactics/TA0009" |};
  {| MitreTactic.id := "x-mitre-tactic--f72804c5-f15a-449e-a5da-2eecd181f813";
     MitreTactic.name := "Command and Control";
     MitreTactic.shortName := "command-and-control";
     MitreTactic.description :=
       "The adversary is trying to communicate with compromised systems to control them.";
     MitreTactic.externalId := "TA0011";
     MitreTactic.url := "https://attack.mitre.org/tactics/TA0011" |};
  {| MitreTactic.id := "x-mitre-tactic--9a4e74ab-5008-408c-84bf-a10dfbc53462";
     MitreTactic.name := "Exfiltration";
     MitreTactic.shortName := "exfiltration";
     MitreTactic.description :=
       "The adversary is trying to steal data.";
     MitreTactic.externalId := "TA0010";
     MitreTactic.url := "https://attack.mitre.org/tactics/TA0010" |};
  {| MitreTactic.id := "x-mitre-tactic--5569339b-94c2-49ee-afb3-2222936582c8";
     MitreTactic.name := "Impact";
     MitreTactic.shortName := "impact";
     MitreTactic.description :=
       "The adversary is trying to manipulate, interrupt, or destroy your systems and data.";
     MitreTactic.externalId := "TA0040";
     MitreTactic.url := "https://attack.mitre.org/tactics/TA0040" |} ].

(** A [Map<string, V>]: the entries in insertion order; [set] on a key
    already present replaces the value where it stands. *)
Module JsMap.
Definition t (V : Type) : Type := list (string * V).

Fixpoint get {V : Type} (m : t V) (key : string) : option V :=
  match m with
  | [] => None
  | (k, v) :: rest => if String.eqb k key then Some v else get rest key
  end.

Fixpoint set {V : Type} (m : t V) (key : string) (v : V) : t V :=
  match m with
  | [] => [(key, v)]
  | (k, w) :: rest =>
      if String.eqb k key then (k, v) :: rest else (k, w) :: set rest key v
  end.

Definition values {V : Type} (m : t V) : list V := map snd m.
End JsMap.

(** What [loadStixData] finds at [LOCAL_FILE_PATH]. *)
Inductive File : Type :=
| missing                       (** [fs.existsSync] is false *)
| unreadable (e : Error)        (** [fs.readFileSync] throws *)
| content (rawData : string).

(** What [JSON.parse(rawData) as StixBundle] yields, as far as
    [parseMatrix] tells values apart: the cast checks nothing.  A
    [bundle] is a value whose [objects] is an array of objects with
    fields of the declared types; an array with other elements is not
    represented. *)
Inductive Parsed : Type :=
| syntax_error (e : Error)      (** [JSON.parse] throws *)
| falsy_value                   (** [null], [false], [0] or [""] *)
| objects_undefined             (** any other value without [objects] *)
| objects_null                  (** [objects] is [null] *)
| objects_no_array              (** [objects] is a boolean, a number, a string
                                    or an object *)
| bundle (objects : list StixObject.t).

(** [a === true], and truthiness of an optional flag. *)
Definition flag (b : option bool) : bool :=
  match b with
  | Some true => true
  | _ => false
  end.

(** [x === text] for an optional string [x]. *)
Definition equals (x : option string) (text : string) : bool :=
  match x with
  | Some s => String.eqb s text
  | None => false
  end.

(** [s.includes(c)], [s.split(c)[0]] and [s.replace(c, d)] for
    one-character strings [c] and [d]. *)
Fixpoint includes (c : ascii) (s : string) : bool :=
  match s with
  | EmptyString => false
  | String a rest => (Ascii.eqb a c || includes c rest)%bool
  end.

Definition before (c : ascii) (s : string) : string :=
  hd EmptyString (split c s).

Fixpoint replace (c d : ascii) (s : string) : string :=
  match s with
  | EmptyString => EmptyString
  | String a rest => if Ascii.eqb a c then String d rest else String a (replace c d rest)
  end.

(** [array.sort(compare)]: a stable sort. *)
Fixpoint insert_sorted {X : Type} (compare : X -> X -> Z) (x : X) (l : list X)
  : list X :=
  match l with
  | [] => [x]
  | y :: rest =>
      if compare x y <=? 0 then x :: y :: rest
      else y :: insert_sorted compare x rest
  end.

Definition sort {X : Type} (compare : X -> X -> Z) (l : list X) : list X :=
  fold_right (insert_sorted compare) [] l.

(** The UTF-16 code units of a code point, and of a string. *)
Definition unitsOf (cp : N) : list N :=
  if (cp <? 65536)%N then [cp]
  else [(55296 + (cp - 65536) / 1024)%N; (56320 + (cp - 65536) mod 1024)%N].

Definition codeUnits (s : string) : list N :=
  flat_map (fun character => unitsOf (codePoint character)) (characters s).

Fixpoint compareUnits (a b : list N) : comparison :=
  match a, b with
  | [], [] => Eq
  | [], _ :: _ => Lt
  | _ :: _, [] => Gt
  | x :: a', y :: b' =>
      match (x ?= y)%N with
      | Eq => compareUnits a' b'
      | Lt => Lt
      | Gt => Gt
      end
  end.

(** The comparison of [array.sort()] without an argument: of strings,
    by their code units. *)
Definition defaultCompare (a b : string) : Z :=
  match compareUnits (codeUnits a) (codeUnits b) with
  | Lt => -1
  | Eq => 0
  | Gt => 1
  end.

(** [array.find(p)] from the end, as an index. *)
Fixpoint findLastIndex {X : Type} (p : X -> bool) (l : list X) : option nat :=
  match l with
  | [] => None
  | x :: rest =>
      match findLastIndex p rest with
      | Some i => Some (S i)
      | None => if p x then Some O else None
      end
  end.

Fixpoint update_at {X : Type} (i : nat) (f : X -> X) (l : list X) : list X :=
  match l, i with
  | [], _ => []
  | x :: rest, O => f x :: rest
  | x :: rest, S j => x :: update_at j f rest
  end.

Section Parser.

(** [a.localeCompare(b)] *)
Variable localeCompare : string -> string -> Z.

(** [JSON.parse] *)
Variable JSON_parse : string -> Parsed.

(** [loadStixData]: the bundle, or [null]. *)
Definition loadStixData (file : File) : option Parsed :=
  match file with
  | missing => None
  | unreadable _ => None
  | content rawData =>
      match JSON_parse rawData with
      | syntax_error _ => None
      | parsed => Some parsed
      end
  end.

(** [extractAttackPatterns] *)
Definition extractAttackPatterns (objects : list StixObject.t)
  : list StixAttackPattern.t :=
  flat_map
    (fun obj =>
       match StixObject.external_references obj with
       | Some refs =>
           if (String.eqb (StixObject.type obj) "attack-pattern"
               && negb (flag (StixObject.x_mitre_deprecated obj))
               && negb (flag (StixObject.revoked obj))
               && Js.truthy_opt (StixObject.name obj))%bool
           then
             [ {| StixAttackPattern.id := StixObject.id obj;
                  StixAttackPattern.name := the (StixObject.name obj);
                  StixAttackPattern.description := the (StixObject.description obj);
                  StixAttackPattern.external_references := refs;
                  StixAttackPattern.kill_chain_phases := StixObject.kill_chain_phases obj;
                  StixAttackPattern.x_mitre_is_subtechnique :=
                    StixObject.x_mitre_is_subtechnique obj;
                  StixAttackPattern.x_mitre_deprecated := StixObject.x_mitre_deprecated obj;
                  StixAttackPattern.revoked := StixObject.revoked obj |} ]
           else []
       | None => []
       end)
    objects.

(** [refs.find((ref) => ref.source_name === 'mitre-attack' && ref.external_id)] *)
Definition findMitreRef (refs : list StixExternalReference.t)
  : option StixExternalReference.t :=
  find (fun ref =>
          (String.eqb (StixExternalReference.source_name ref) "mitre-attack"
           && Js.truthy_opt (StixExternalReference.external_id ref))%bool)
       refs.

(** [mitreRef?.external_id || ''] *)
Definition externalIdOf (mitreRef : option StixExternalReference.t) : string :=
  match mitreRef with
  | Some ref => the (StixExternalReference.external_id ref)
  | None => EmptyString
  end.

(** [mitreRef?.url || fallback] *)
Definition urlOf (mitreRef : option StixExternalReference.t) (fallback : string)
  : string :=
  match mitreRef with
  | Some ref =>
      if Js.truthy_opt (StixExternalReference.url ref)
      then the (StixExternalReference.url ref) else fallback
  | None => fallback
  end.

(** [convertToTechniques] *)
Definition convertToTechniques (attackPatterns : list StixAttackPattern.t)
  : list MitreTechnique.t :=
  map
    (fun pattern =>
       let mitreRef := findMitreRef (StixAttackPattern.external_references pattern) in
       let externalId := externalIdOf mitreRef in
       let isSubtechnique := flag (StixAttackPattern.x_mitre_is_subtechnique pattern) in
       let parentTechniqueId :=
         if (isSubtechnique && includes "." externalId)%bool
         then Some (before "." externalId) else None in
       let tacticShortNames :=
         map StixKillChainPhase.phase_name
           (filter (fun phase =>
                      String.eqb (StixKillChainPhase.kill_chain_name phase) "mitre-attack")
                   (match StixAttackPattern.kill_chain_phases pattern with
                    | Some phases => phases
                    | None => []
                    end)) in
       MitreTechnique.Build
         (StixAttackPattern.id pattern)
         (StixAttackPattern.name pattern)
         externalId
         (urlOf mitreRef
            ("https://attack.mitre.org/techniques/" ++ replace "." "/" externalId))
         (StixAttackPattern.description pattern)
         tacticShortNames
         isSubtechnique
         parentTechniqueId
         None
         None)
    attackPatterns.

(** [extractDetectionStrategies] *)
Definition extractDetectionStrategies (objects : list StixObject.t)
  : JsMap.t StixDetectionStrategy.t :=
  fold_left
    (fun strategies obj =>
       match StixObject.external_references obj with
       | Some refs =>
           if (String.eqb (StixObject.type obj) "x-mitre-detection-strategy"
               && negb (flag (StixObject.x_mitre_deprecated obj))
               && Js.truthy_opt (StixObject.name obj))%bool
           then
             JsMap.set strategies (StixObject.id obj)
               {| StixDetectionStrategy.id := StixObject.id obj;
                  StixDetectionStrategy.name := the (StixObject.name obj);
                  StixDetectionStrategy.external_references := refs;
                  StixDetectionStrategy.x_mitre_analytic_refs :=
                    StixObject.x_mitre_analytic_refs obj;
                  StixDetectionStrategy.x_mitre_deprecated :=
                    StixObject.x_mitre_deprecated obj |}
           else strategies
       | None => strategies
       end)
    objects [].

(** [extractAnalytics] *)
Definition extractAnalytics (objects : list StixObject.t)
  : JsMap.t StixAnalytic.t :=
  fold_left
    (fun analyticsMap obj =>
       match StixObject.external_references obj with
       | Some refs =>
           if (String.eqb (StixObject.type obj) "x-mitre-analytic"
               && negb (flag (StixObject.x_mitre_deprecated obj))
               && Js.truthy_opt (StixObject.name obj))%bool
           then
             JsMap.set analyticsMap (StixObject.id obj)
               {| StixAnalytic.id := StixObject.id obj;
                  StixAnalytic.name := the (StixObject.name obj);
                  StixAnalytic.external_references := refs;
                  StixAnalytic.x_mitre_platforms := StixObject.x_mitre_platforms obj;
                  StixAnalytic.x_mitre_deprecated := StixObject.x_mitre_deprecated obj |}
           else analyticsMap
       | None => analyticsMap
       end)
    objects [].

(** [extractDetectsRelationships] *)
Definition extractDetectsRelationships (objects : list StixObject.t)
  : list StixRelationship.t :=
  flat_map
    (fun obj =>
       if (String.eqb (StixObject.type obj) "relationship"
           && equals (StixObject.relationship_type obj) "detects"
           && negb (flag (StixObject.x_mitre_deprecated obj))
           && Js.truthy_opt (StixObject.source_ref obj)
           && Js.truthy_opt (StixObject.target_ref obj))%bool
       then
         [ {| StixRelationship.id := StixObject.id obj;
              StixRelationship.relationship_type := the (StixObject.relationship_type obj);
              StixRelationship.source_ref := the (StixObject.source_ref obj);
              StixRelationship.target_ref := the (StixObject.target_ref obj);
              StixRelationship.x_mitre_deprecated := StixObject.x_mitre_deprecated obj |} ]
       else [])
    objects.

(** The analytics a strategy refers to that the analytic map holds. *)
Definition analyticsForStrategy (analyticsMap : JsMap.t StixAnalytic.t)
    (strategy : StixDetectionStrategy.t) : list MitreAnalytic.t :=
  flat_map
    (fun analyticRef =>
       match JsMap.get analyticsMap analyticRef with
       | Some analytic =>
           [ {| MitreAnalytic.id := StixAnalytic.id analytic;
                MitreAnalytic.name := StixAnalytic.name analytic;
                MitreAnalytic.externalId :=
                  externalIdOf (findMitreRef (StixAnalytic.external_references analytic));
                MitreAnalytic.platforms :=
                  match StixAnalytic.x_mitre_platforms analytic with
                  | Some platforms => platforms
                  | None => []
                  end |} ]
       | None => []
       end)
    (match StixDetectionStrategy.x_mitre_analytic_refs strategy with
     | Some refs => refs
     | None => []
     end).

(** [linkDetectionStrategiesToTechniques].  [techniqueIdMap] maps an id
    to the last technique of the array that carries it, and the
    strategy is pushed onto that technique. *)
Definition linkDetectionStrategiesToTechniques
    (techniques : list MitreTechnique.t)
    (detectionStrategies : JsMap.t StixDetectionStrategy.t)
    (analyticsMap : JsMap.t StixAnalytic.t)
    (detectsRelationships : list StixRelationship.t) : list MitreTechnique.t :=
  fold_left
    (fun techniques relationship =>
       match findLastIndex
               (fun technique =>
                  String.eqb (MitreTechnique.id technique)
                             (StixRelationship.target_ref relationship))
               techniques,
             JsMap.get detectionStrategies (StixRelationship.source_ref relationship)
       with
       | Some i, Some strategy =>
           let mitreRef :=
             findMitreRef (StixDetectionStrategy.external_references strategy) in
           let linked :=
             {| MitreDetectionStrategy.id := StixDetectionStrategy.id strategy;
                MitreDetectionStrategy.name := StixDetectionStrategy.name strategy;
                MitreDetectionStrategy.externalId := externalIdOf mitreRef;
                MitreDetectionStrategy.url := urlOf mitreRef EmptyString;
                MitreDetectionStrategy.analytics :=
                  analyticsForStrategy analyticsMap strategy |} in
           update_at i
             (fun technique =>
                MitreTechnique.with_detectionStrategies
                  (Some (match MitreTechnique.detectionStrategies technique with
                         | Some ds => (ds ++ [linked])%list
                         | None => [linked]
                         end))
                  technique)
             techniques
       | _, _ => techniques
       end)
    detectsRelationships techniques.

(** [new Set] filled by [add]: insertion order, no duplicates. *)
Definition set_add (platformsSet : list string) (platform : string) : list string :=
  if existsb (String.eqb platform) platformsSet then platformsSet
  else (platformsSet ++ [platform])%list.

(** [collectAvailablePlatforms] *)
Definition collectAvailablePlatforms (analyticsMap : JsMap.t StixAnalytic.t)
  : list string :=
  sort defaultCompare
    (fold_left
       (fun platformsSet analytic =>
          match StixAnalytic.x_mitre_platforms analytic with
          | Some platforms => fold_left set_add platforms platformsSet
          | None => platformsSet
          end)
       (JsMap.values analyticsMap) []).

Definition byName (a b : MitreTechnique.t) : Z :=
  localeCompare (MitreTechnique.name a) (MitreTechnique.name b).

(** [buildMatrix] *)
Definition buildMatrix (techniques : list MitreTechnique.t)
    (availablePlatforms : list string) : MitreMatrixData.t :=
  let parentTechniques :=
    filter (fun t => negb (MitreTechnique.isSubtechnique t)) techniques in
  let subtechniques := filter MitreTechnique.isSubtechnique techniques in
  let techniqueMap :=
    fold_left
      (fun techniqueMap technique =>
         JsMap.set techniqueMap (MitreTechnique.externalId technique)
           (MitreTechnique.with_subtechniques (Some []) technique))
      parentTechniques [] in
  let techniqueMap :=
    fold_left
      (fun techniqueMap subtechnique =>
         if Js.truthy_opt (MitreTechnique.parentTechniqueId subtechnique) then
           let key := the (MitreTechnique.parentTechniqueId subtechnique) in
           match JsMap.get techniqueMap key with
           | Some parent =>
               match MitreTechnique.subtechniques parent with
               | Some subs =>
                   JsMap.set techniqueMap key
                     (MitreTechnique.with_subtechniques
                        (Some (subs ++ [subtechnique])%list) parent)
               | None => techniqueMap
               end
           | None => techniqueMap
           end
         else techniqueMap)
      subtechniques techniqueMap in
  let techniqueMap :=
    map (fun entry =>
           (fst entry,
            match MitreTechnique.subtechniques (snd entry) with
            | Some subs =>
                MitreTechnique.with_subtechniques (Some (sort byName subs)) (snd entry)
            | None => snd entry
            end))
        techniqueMap in
  let tactics :=
    map (fun tactic =>
           {| TacticWithTechniques.tactic := tactic;
              TacticWithTechniques.techniques :=
                sort byName
                  (filter
                     (fun technique =>
                        existsb (String.eqb (MitreTactic.shortName tactic))
                                (MitreTechnique.tacticShortNames technique))
                     (JsMap.values techniqueMap)) |})
        MITRE_TACTICS_ORDER in
  {| MitreMatrixData.tactics := tactics;
     MitreMatrixData.availablePlatforms := availablePlatforms |}.

(** [getEmptyTactics] *)
Definition getEmptyTactics : list TacticWithTechniques.t :=
  map (fun tactic =>
         {| TacticWithTechniques.tactic := tactic;
            TacticWithTechniques.techniques := [] |})
      MITRE_TACTICS_ORDER.

(** [parseMatrix]: the promise it returns, resolved or rejected. *)
Definition parseMatrix (file : File) : Result MitreMatrixData.t :=
  match loadStixData file with
  | None | Some falsy_value | Some (syntax_error _) =>
      Ok {| MitreMatrixData.tactics := getEmptyTactics;
            MitreMatrixData.availablePlatforms := [] |}
  | Some objects_undefined =>
      Err "TypeError: Cannot read properties of undefined (reading 'filter')"
  | Some objects_null =>
      Err "TypeError: Cannot read properties of null (reading 'filter')"
  | Some objects_no_array =>
      Err "TypeError: stixData.objects.filter is not a function"
  | Some (bundle objects) =>
      let attackPatterns := extractAttackPatterns objects in
      let detectionStrategies := extractDetectionStrategies objects in
      let analytics := extractAnalytics objects in
      let detectsRelationships := extractDetectsRelationships objects in
      let techniques := convertToTechniques attackPatterns in
      let techniques :=
        linkDetectionStrategiesToTechniques techniques detectionStrategies
          analytics detectsRelationships in
      let availablePlatforms := collectAvailablePlatforms analytics in
      Ok (buildMatrix techniques availablePlatforms)
  end.

(** [getMatrix], with the field [cachedMatrix] passed in and out. *)
Definition getMatrix (cachedMatrix : option MitreMatrixData.t) (file : File)
  : Result MitreMatrixData.t * option MitreMatrixData.t :=
  match cachedMatrix with
  | Some matrix => (Ok matrix, cachedMatrix)
  | None =>
      match parseMatrix file with
      | Ok matrix => (Ok matrix, Some matrix)
      | Err e => (Err e, None)
      end
  end.

(** [clearCache] *)
Definition clearCache (cachedMatrix : option MitreMatrixData.t)
  : option MitreMatrixData.t := None.

End Parser.

(* ================================================================== *)
(** ** Executions of a resumption *)

(** What an execution did: the store calls with their replies and the
    synchronous reads with their answers, most recent first. *)
Inductive Event : Type :=
| called (X : Type) (c : Request X) (reply : Result X)
| asked (X : Type) (c : Sync X) (answer : X).
Arguments called {X} c reply.
Arguments asked {X} c answer.

Definition Trace := list Event.

(** An environment: what the stores, the clock and the random source
    reply, given everything that happened so far. *)
Record World : Type := {
  respond : forall X : Type, Trace -> Request X -> Result X;
  answer : forall X : Type, Trace -> Sync X -> X }.

Inductive Final (A : Type) : Type :=
| returned (a : A)
| thrown (e : Error)
| unfinished.
Arguments returned {A} a.
Arguments thrown {A} e.
Arguments unfinished {A}.

Record Outcome (A : Type) : Type := {
  final : Final A;
  fields : Fields;
  trace : Trace }.

(** The execution of [r] in the world [w] when nothing else runs on
    the instance in between. *)
Fixpoint run {A : Type} (w : World) (r : Res A) (h : Trace) : Outcome A :=
  match r with
  | Done a s => {| final := returned a; fields := s; trace := h |}
  | Raised e s => {| final := thrown e; fields := s; trace := h |}
  | Starved s => {| final := unfinished; fields := s; trace := h |}
  | Await s c k =>
      let reply := respond w h c in
      run w (k reply s) (called c reply :: h)
  | Ask c k =>
      let x := answer w h c in
      run w (k x) (asked c x :: h)
  end.

(** The continuation of a scroll. *)
Definition is_scroll (e : Event) : bool :=
  match e with
  | called (scroll _ _) _ => true
  | _ => false
  end.

(** The [must] clauses of a probe. *)
Definition probe_of {X : Type} (c : Request X) : option (list Clause) :=
  match c with
  | search_logs _ _ must => Some must
  | _ => None
  end.

(** The probe carries a clause next to the one on the name field. *)
Definition has_channel_clause (must : list Clause) : bool :=
  Nat.ltb 1 (List.length must).

(** ** A program logic on resumptions

    [sat I R Ra G P Q U r]: along every execution of [r] in which the
    stores reply within [R], the clock and the random source answer
    within [Ra], and the fields satisfy [I] whenever [r] resumes
    (whatever else ran on the instance in between),
    - the fields satisfy [I] whenever [r] is suspended,
    - every store call satisfies [G],
    - [r] returns in a state satisfying [P], throws in one satisfying
      [Q], or runs out of fuel in one satisfying [U]. *)
Section Sat.

Variable A : Type.
Variable I : Fields -> Prop.
Variable R : forall X : Type, Request X -> Result X -> Prop.
Variable Ra : forall X : Type, Sync X -> X -> Prop.
Variable G : forall X : Type, Request X -> Prop.
Variable P : A -> Fields -> Prop.
Variable Q : Error -> Fields -> Prop.
Variable U : Fields -> Prop.

Fixpoint sat (r : Res A) : Prop :=
  match r with
  | Done a s => P a s
  | Raised e s => Q e s
  | Starved s => U s
  | Await s c k => I s /\ G c /\ forall x s', R c x -> I s' -> sat (k x s')
  | Ask c k => forall x, Ra c x -> sat (k x)
  end.

End Sat.

(** Worlds that reply within [R] and answer within [Ra]. *)
Definition obeys (w : World)
    (R : forall X : Type, Request X -> Result X -> Prop)
    (Ra : forall X : Type, Sync X -> X -> Prop) : Prop :=
  (forall X h (c : Request X), R X c (respond w h c)) /\
  (forall X h (c : Sync X), Ra X c (answer w h c)).

(** Events whose store call satisfies [G]. *)
Definition event_ok (G : forall X : Type, Request X -> Prop) (e : Event) : Prop :=
  match e with
  | called c _ => G _ c
  | asked _ _ => True
  end.

(* ================================================================== *)
(** ** A reference store

    A world whose stores hold fixed contents: the pages the scrolled
    scan of the catalog serves (one per call, then the page that ends
    the scan), the result documents, the settings documents and the
    answer of the log store to a probe.  A search for due results
    returns the first [size] of them. *)

Record Store : Type := {
  clock : Z;
  draw : Q;
  probe : list Clause -> Result (list (option LogDoc));
  settings_index : Result bool;
  settings_doc : string -> Result (option Js.object);
  catalog : option (list ScrollPage);
  scroll_reply : option Error;
  results : option (list AnalyticDocumentWithScores);
  index_reply : string -> Result unit;
  refresh_reply : Result unit }.

Definition is_due (now : Timestamp) (doc : AnalyticDocumentWithScores) : bool :=
  match scored_references doc with
  | Some refs => existsb (fun r => next_execution (scores r) <=? now) refs
  | None => false
  end.

Definition empty_page : ScrollPage := {| hits_hits := []; _scroll_id := None |}.

(** The page that ends a scan: no hits, under the scroll id of the
    scan. *)
Definition end_page (pages : list ScrollPage) : ScrollPage :=
  {| hits_hits := []; _scroll_id := _scroll_id (last pages empty_page) |}.

Definition is_some {X : Type} (x : option X) : bool :=
  match x with
  | Some _ => true
  | None => false
  end.

Definition store_respond (st : Store) (X : Type) (h : Trace) (c : Request X)
  : Result X :=
  match c in Request X return Result X with
  | indices_exists _ index =>
      if String.eqb index SETTINGS_INDEX_NAME then settings_index st
      else if String.eqb index ECS_INDEX_NAME then Ok (is_some (catalog st))
      else if String.eqb index RESULTS_INDEX_NAME then Ok (is_some (results st))
      else Ok false
  | count_docs _ index =>
      match results st with
      | Some docs => Ok (Z.of_nat (List.length docs))
      | None => Err "index_not_found_exception"
      end
  | get_scores _ _ id => settings_doc st id
  | search_logs _ _ must => probe st must
  | search_scroll _ _ size =>
      match catalog st with
      | Some pages => Ok (nth 0 pages (end_page pages))
      | None => Err "index_not_found_exception"
      end
  | scroll _ _ =>
      match scroll_reply st, catalog st with
      | Some e, _ => Err e
      | None, Some pages =>
          Ok (nth (S (List.length (filter is_scroll h))) pages (end_page pages))
      | None, None => Err "search_context_missing_exception"
      end
  | clearScroll _ _ => Ok tt
  | search_due _ _ size now =>
      match results st with
      | Some docs =>
          Ok (map Some (firstn (Z.to_nat size) (filter (is_due now) docs)))
      | None => Err "index_not_found_exception"
      end
  | index_doc _ _ id _ => index_reply st id
  | indices_refresh _ _ => refresh_reply st
  end.

Definition store_answer (st : Store) (X : Type) (h : Trace) (c : Sync X) : X :=
  match c in Sync X return X with
  | Date_now => clock st
  | Math_random => draw st
  end.

Definition store_world (st : Store) : World :=
  {| respond := store_respond st; answer := store_answer st |}.

(* ================================================================== *)
(** ** Auxiliary notions for the proofs *)

(** Nothing assumed of the replies, nothing required of the calls. *)
Definition any_reply (X : Type) (c : Request X) (x : Result X) : Prop := True.
Definition any_answer (X : Type) (c : Sync X) (x : X) : Prop := True.
Definition any_call (X : Type) (c : Request X) : Prop := True.
Definition always (s : Fields) : Prop := True.
Definition whatever (A : Type) (a : A) (s : Fields) : Prop := True.

(** [I] holds at every suspension of [r] and when [r] returns. *)
Definition framed (I : Fields -> Prop)
    (R : forall X : Type, Request X -> Result X -> Prop)
    (Ra : forall X : Type, Sync X -> X -> Prop)
    (G : forall X : Type, Request X -> Prop)
    (Q : Error -> Fields -> Prop)
    (U : Fields -> Prop) (A : Type) (r : Res A) : Prop :=
  sat I R Ra G (fun _ s => I s) Q U r.

(** [I] holds at every suspension of [r] and however [r] ends,
    whatever the stores do. *)
Definition stable (I : Fields -> Prop) (A : Type) (r : Res A) : Prop :=
  framed I any_reply any_answer any_call (fun _ s => I s) I r.

(** The calls the scoring of a reference may issue: reads of the
    settings and of the log store. *)
Definition quiet (X : Type) (c : Request X) : Prop :=
  match c with
  | indices_exists _ _ | get_scores _ _ _ | search_logs _ _ _ => True
  | _ => False
  end.

(** The ids of the result documents an execution wrote or tried to
    write, most recent first. *)
Fixpoint write_ids (t : Trace) : list string :=
  match t with
  | [] => []
  | called (index_doc _ _ id _) _ :: rest => id :: write_ids rest
  | _ :: rest => write_ids rest
  end.

(** The sizes of the searches for due results, most recent first. *)
Fixpoint due_searches (t : Trace) : list Z :=
  match t with
  | [] => []
  | called (search_due _ _ size _) _ :: rest => size :: due_searches rest
  | _ :: rest => due_searches rest
  end.

(** How an execution goes on after [bind], [catch] and [finally]. *)
Definition continue {A B : Type} (w : World) (o : Outcome A) (f : A -> Task B)
  : Outcome B :=
  match final o with
  | returned a => run w (f a (fields o)) (trace o)
  | thrown e => {| final := thrown e; fields := fields o; trace := trace o |}
  | unfinished => {| final := unfinished; fields := fields o; trace := trace o |}
  end.

Definition handle {A : Type} (w : World) (o : Outcome A) (f : Error -> Task A)
  : Outcome A :=
  match final o with
  | thrown e => run w (f e (fields o)) (trace o)
  | _ => o
  end.

Definition cleanup {A : Type} (o : Outcome A) (fin : Fields -> Fields) : Outcome A :=
  match final o with
  | unfinished => o
  | _ => {| final := final o; fields := fin (fields o); trace := trace o |}
  end.

(** The exclusive-run flag is up. *)
Definition running (s : Fields) : Prop := isRunning s = true.

(** A pass in flight: the flag is up whenever the pass is suspended
    (provided it is still up when the pass resumes), and down when the
    pass ends, by [return] or by [throw]. *)
Definition in_flight (A : Type) (r : Res A) : Prop :=
  sat running any_reply any_answer any_call
      (fun _ s => isRunning s = false) (fun _ s => isRunning s = false)
      running r.

(* ================================================================== *)
(** ** Statements about the probe *)

(** The clauses of the probe of a reference. *)
Definition probeClauses (logSourceRef : LogSourceReference) : list Clause :=
  let m := mapping logSourceRef in
  let useChannel := String.eqb (status m) "complete" in
  mustClauses (name_field (ecs m)) (name_value (ecs m))
    (if useChannel then Some (channel_field (ecs m)) else None)
    (if useChannel then Some (channel_value (ecs m)) else None).

(** Every probe that scoring [logSourceRef] can issue satisfies [ok]. *)
Definition probes (Date_getTime : string -> num) (logSourceRef : LogSourceReference)
    (ok : list Clause -> Prop) : Prop :=
  forall platform s,
    sat always any_reply any_answer
        (fun X c => forall must, probe_of c = Some must -> ok must)
        (@whatever Scores) (@whatever Error) always
        (calculateScoresForLogSource Date_getTime logSourceRef platform s).

(** The channel clause goes with the status 'complete' and with no
    other, as the specification puts it. *)
Definition channel_iff_complete (Date_getTime : string -> num)
    (logSourceRef : LogSourceReference) : Prop :=
  probes Date_getTime logSourceRef
    (fun must =>
       has_channel_clause must = true <-> status (mapping logSourceRef) = "complete").

(** A reference mapped completely whose channel field is empty. *)
Definition reference_without_channel : LogSourceReference :=
  {| x_mitre_data_component_ref := "x-mitre-data-component--0001";
     data_component_name := "Process Creation";
     name := "WinEventLog:Security";
     channel := "EventCode=4688";
     mapping :=
       {| ecs := {| name_field := "event.code"; name_value := "4688";
                    channel_field := ""; channel_value := "Security" |};
          status := "complete"; confidence := "high";
          notes := ""; verified := true |} |}.

(** The clause on the channel of a mapping: the channel field against
    the channel value, or against the set of its alternatives when the
    value lists several, separated by commas; white space around an
    alternative does not count. *)
Definition channelClause (e : EcsMapping) : Clause :=
  match map trim (split "," (channel_value e)) with
  | [alternative] => term (channel_field e) alternative
  | alternatives => terms (channel_field e) alternatives
  end.

(** A reference that is not mapped. *)
Definition reference_unmapped : LogSourceReference :=
  {| x_mitre_data_component_ref := "x-mitre-data-component--0001";
     data_component_name := "Process Creation";
     name := "WinEventLog:Security";
     channel := "EventCode=4688";
     mapping :=
       {| ecs := {| name_field := "event.code"; name_value := "4688";
                    channel_field := "winlog.channel"; channel_value := "Security" |};
          status := "unmapped"; confidence := "high";
          notes := ""; verified := false |} |}.

(** A date parser that knows no date. *)
Definition no_date (text : string) : num := NaN.

(** A runner as the plugin builds it. *)
Definition fresh_runner : Fields := new_DataQualityTaskRunner asInternalUser None.

(* ================================================================== *)
(** ** Statements about the scores *)

(** The multipliers as the specification tabulates them. *)
Definition statusMultiplier (status : string) : Q :=
  if String.eqb status "complete" then 1
  else if String.eqb status "partial" then 5 # 10
  else 0.

Definition confidenceMultiplier (confidence : string) : Q :=
  if String.eqb confidence "high" then 1
  else if String.eqb confidence "medium" then 8 # 10
  else if String.eqb confidence "low" then 4 # 10
  else 0.

(** [x] rounded to the multiple of [1/d] nearest to it. *)
Definition rounded (d : Z) (x : Q) : Q :=
  (inject_Z (Qfloor (x * inject_Z d + (1 # 2))) / inject_Z d)%Q.

(** The completeness score of the specification. *)
Definition completenessRule (status confidence : string) (found : bool) : Q :=
  if String.eqb status "unmapped" then 0
  else rounded 100 ((if found then 5 else 0) * statusMultiplier status
                    * confidenceMultiplier confidence)%Q.

(** A score that is a number between 0 and 5. *)
Definition in_range (v : Js.value) : Prop :=
  match v with
  | Js.VNumber n => Js.between 0 5 n
  | _ => False
  end.

(** The mean of the five dimension scores, rounded to one decimal. *)
Definition roundedMean (sc : Scores) : num :=
  let total :=
    Js.add
      (Js.add
         (Js.add (Js.add (score (data_field_completeness sc)) (score (timeliness sc)))
                 (score (consistency sc)))
         (Js.ToNumber (score (device_completeness sc))))
      (Js.ToNumber (score (retention sc))) in
  Js.div (Js.Math_round (Js.mul (Js.div total (dec 5 1)) (dec 10 1))) (dec 10 1).

Definition scores_ok (sc : Scores) : Prop :=
  Js.between 0 5 (score (data_field_completeness sc)) /\
  Js.between 0 5 (score (timeliness sc)) /\
  Js.between 0 5 (score (consistency sc)) /\
  in_range (score (device_completeness sc)) /\
  in_range (score (retention sc)) /\
  quality_score sc = roundedMean sc /\
  Js.between 0 5 (quality_score sc).

(** Configured scores between 0 and 5. *)
Definition settings_ok (o : Js.object) : Prop :=
  Forall (fun entry => (0 <= snd entry /\ snd entry <= 5)%Q) o.

Definition caches_ok (s : Fields) : Prop :=
  settings_ok (retentionScoresCache s) /\ settings_ok (deviceCompletenessCache s).

Definition settings_replies_ok (X : Type) (c : Request X) : Result X -> Prop :=
  match c in Request X return Result X -> Prop with
  | get_scores _ _ _ =>
      fun reply =>
        match reply with
        | Ok (Some o) => settings_ok o
        | _ => True
        end
  | _ => fun _ => True
  end.

(** A platform name that is no property of [Object.prototype]. *)
Definition plain_key (key : option string) : Prop :=
  match key with
  | Some k => Js.inherited k = false
  | None => True
  end.

(** A log store in which every probe finds a record, no settings
    index, nothing else. *)
Definition found_store : Store :=
  {| clock := 1767225600000;
     draw := 1 # 2;
     probe := fun _ =>
       Ok [Some {| at_timestamp := Some "2026-01-01T00:00:00.000Z";
                   event_ingested := Some "2026-01-01T00:00:01.000Z" |}];
     settings_index := Ok false;
     settings_doc := fun _ => Err "index_not_found_exception";
     catalog := None;
     scroll_reply := None;
     results := None;
     index_reply := fun _ => Ok tt;
     refresh_reply := Ok tt |}.

(** A reference whose status is the name of an inherited property. *)
Definition reference_inherited_status : LogSourceReference :=
  {| x_mitre_data_component_ref := "x-mitre-data-component--0001";
     data_component_name := "Process Creation";
     name := "WinEventLog:Security";
     channel := "EventCode=4688";
     mapping :=
       {| ecs := {| name_field := "event.code"; name_value := "4688";
                    channel_field := "winlog.channel"; channel_value := "Security" |};
          status := "constructor"; confidence := "high";
          notes := ""; verified := true |} |}.

(* ================================================================== *)
(** ** Statements about the parser *)

Definition mitre_reference (external_id : string) : StixExternalReference.t :=
  {| StixExternalReference.source_name := "mitre-attack";
     StixExternalReference.external_id := Some external_id;
     StixExternalReference.url := None |}.

(** A named object of the bundle with a reference into the registry,
    of the given type, with the given [revoked] mark, not deprecated. *)
Definition stix_object (type id name external_id : string) (revoked : option bool)
  : StixObject.t :=
  {| StixObject.type := type;
     StixObject.id := id;
     StixObject.name := Some name;
     StixObject.description := None;
     StixObject.external_references := Some [mitre_reference external_id];
     StixObject.kill_chain_phases := None;
     StixObject.x_mitre_is_subtechnique := None;
     StixObject.x_mitre_deprecated := None;
     StixObject.revoked := revoked;
     StixObject.x_mitre_analytic_refs := None;
     StixObject.x_mitre_platforms := None;
     StixObject.relationship_type := None;
     StixObject.source_ref := None;
     StixObject.target_ref := None |}.

Definition revoked_pattern : StixObject.t :=
  stix_object "attack-pattern" "attack-pattern--0001" "Phishing" "T1566" (Some true).

Definition revoked_strategy : StixObject.t :=
  stix_object "x-mitre-detection-strategy" "x-mitre-detection-strategy--0001"
    "Detect phishing" "DET0001" (Some true).

Definition revoked_analytic : StixObject.t :=
  stix_object "x-mitre-analytic" "x-mitre-analytic--0001" "Analytic 0001" "AN0001"
    (Some true).

(** An object the extraction has to leave out, in the words of the
    specification: marked deprecated or revoked, or without a name or
    without external references. *)
Definition excluded (obj : StixObject.t) : Prop :=
  flag (StixObject.x_mitre_deprecated obj) = true \/
  flag (StixObject.revoked obj) = true \/
  Js.truthy_opt (StixObject.name obj) = false \/
  StixObject.external_references obj = None.

(** The taxonomy of a failed build. *)
Definition emptyMatrix : MitreMatrixData.t :=
  {| MitreMatrixData.tactics := getEmptyTactics;
     MitreMatrixData.availablePlatforms := [] |}.

(** The source file is missing, unreadable or unparsable. *)
Definition load_fails (JSON_parse : string -> Parsed) (file : File) : Prop :=
  match file with
  | missing => True
  | unreadable _ => True
  | content rawData => exists e, JSON_parse rawData = syntax_error e
  end.

(** A parser that rejects every text. *)
Definition rejecting_parser (rawData : string) : Parsed :=
  syntax_error "SyntaxError: Unexpected token".

(** [JSON.parse] on the text [{}]: an object without properties; no
    other text is given to this parser. *)
Definition empty_object_parser (rawData : string) : Parsed :=
  if String.eqb rawData "{}" then objects_undefined
  else syntax_error "SyntaxError: Unexpected token".

(** An order on names: the one of their code units. *)
Definition byteCompare (a b : string) : Z := defaultCompare a b.

(** What the loops of [extractDetectionStrategies] and
    [extractAnalytics] keep: objects of the type that are not marked
    deprecated and have a name and external references. *)
Definition kept (type : string) (obj : StixObject.t) : Prop :=
  StixObject.type obj = type /\
  flag (StixObject.x_mitre_deprecated obj) = false /\
  Js.truthy_opt (StixObject.name obj) = true /\
  StixObject.external_references obj <> None.


(* ================================================================== *)
(** ** Statements about the smart pass *)

(** A page of a scrolled scan is asked for. *)
Definition is_paging (e : Event) : bool :=
  match e with
  | called (search_scroll _ _ _) _ => true
  | called (scroll _ _) _ => true
  | _ => false
  end.

(** The smart pass [o] went through the full pass [full]: it did what
    [full] did, and returned [{action: 'init', count: -1}] where
    [full] returned, threw what [full] threw. *)
Definition as_full_pass (full : Outcome unit) (o : Outcome SmartResult) : Prop :=
  trace o = trace full /\
  match final full with
  | returned _ =>
      final o = returned {| action := init; count := -1 |} /\
      isRunning (fields o) = false
  | thrown e => final o = thrown e /\ isRunning (fields o) = false
  | unfinished => final o = unfinished
  end.

(** The results whose [next_execution] has elapsed at [now]. *)
Definition due (now : Timestamp) (docs : list AnalyticDocumentWithScores)
  : list AnalyticDocumentWithScores :=
  filter (is_due now) docs.

(** The smart pass as the specification states it, on a store with
    results: nothing is written when no result is due; otherwise every
    due result is recomputed and written back, and the count is their
    number. *)
Definition recomputes_all_due (Date_getTime : string -> num) (fuel : nat)
    (st : Store) (s : Fields) : Prop :=
  forall logsClient docs,
    results st = Some docs ->
    docs <> [] ->
    let o := run (store_world st)
               (runSmartScoringWithClient Date_getTime fuel logsClient s) [] in
    match due (clock st) docs with
    | [] => final o = returned {| action := none; count := 0 |} /\ write_ids (trace o) = []
    | dueAnalytics =>
        final o = returned {| action := update;
                              count := Z.of_nat (List.length dueAnalytics) |} /\
        rev (write_ids (trace o)) = map scored_id dueAnalytics
    end.

(** A result with one unmapped reference, last scored so that it is
    due at [next]. *)
Definition stale_result (next : Timestamp) (n : nat) : AnalyticDocumentWithScores :=
  let unmapped :=
    {| x_mitre_data_component_ref := "x-mitre-data-component--0001";
       data_component_name := "Process Creation";
       name := "WinEventLog:Security";
       channel := "EventCode=4688";
       mapping :=
         {| ecs := {| name_field := "event.code"; name_value := "4688";
                      channel_field := ""; channel_value := "" |};
            status := "unmapped"; confidence := "";
            notes := ""; verified := false |} |} in
  let zero (A : Type) (d : A) := {| score := dec 0 1; details := d |} in
  {| scored_id := "x-mitre-analytic--" ++ String (ascii_of_nat (48 + n / 100))
                    (String (ascii_of_nat (48 + (n / 10) mod 10))
                       (String (ascii_of_nat (48 + n mod 10)) EmptyString));
     scored_name := "Analytic";
     scored_references :=
       Some [ {| reference := unmapped;
                 scores :=
                   {| next_execution := next;
                      quality_score := dec 0 1;
                      data_field_completeness :=
                        zero _ {| base_score := dec 0 1;
                                  status_multiplier := Js.VNumber (dec 0 1);
                                  confidence_multiplier := Js.VNumber (dec 0 1);
                                  reason := "Status is unmapped" |};
                      timeliness :=
                        zero _ {| last_doc_timestamp := None; last_doc_ingested := None;
                                  delta_seconds := None;
                                  timeliness_reason := "No document available" |};
                      consistency :=
                        zero _ {| consistency_reason :=
                                    "Fields not found or not standardized" |};
                      device_completeness :=
                        {| score := Js.VNumber (dec 0 1);
                           details := {| coverage_percent := dec 0 1;
                                         device_reason :=
                                           "Field not found - 0% coverage" |} |};
                      retention :=
                        {| score := Js.VNumber (dec 0 1);
                           details := {| retention_percent := dec 0 1;
                                         retention_reason :=
                                           "Field not found - no data retention" |} |}
                   |} |} ] |}.

(** A store holding a hundred and one results, all of them due. *)
Definition crowded_store : Store :=
  {| clock := 1767225600000;
     draw := 1 # 2;
     probe := fun _ => Ok [];
     settings_index := Ok false;
     settings_doc := fun _ => Err "index_not_found_exception";
     catalog := Some [];
     scroll_reply := None;
     results := Some (map (stale_result 1767139200000) (seq 0 101));
     index_reply := fun _ => Ok tt;
     refresh_reply := Ok tt |}.

(* ================================================================== *)
(** ** Statements about the documents the smart pass sends *)

(** A write to a result index: the index, the id and the document. *)
Record Write : Type := {
  write_index : string;
  write_id : string;
  write_document : AnalyticDocumentWithScores }.

(** The writes of a trace, most recent first. *)
Fixpoint writes (t : Trace) : list Write :=
  match t with
  | [] => []
  | called (index_doc _ index id document) _ :: rest =>
      {| write_index := index; write_id := id; write_document := document |}
        :: writes rest
  | _ :: rest => writes rest
  end.

(** What recomputing the results [scanned] sends to the result index
    of the store [st], in order, from the fields [s]: for each result
    that has references and whose recomputation by [processAnalytic]
    returns, the document [processAnalytic] returns, under its id.
    The fields carry the caches of the settings from one result to
    the next. *)
Fixpoint recomputed (Date_getTime : string -> num) (st : Store)
    (scanned : list AnalyticDocumentWithScores) (s : Fields) : list Write :=
  match scanned with
  | [] => []
  | analytic :: rest =>
      match scored_references analytic with
      | None => recomputed Date_getTime st rest s
      | Some refs =>
          let copy :=
            {| id := scored_id analytic;
               analytic_name := scored_name analytic;
               x_mitre_log_source_references := Some (map reference refs) |} in
          let o := run (store_world st)
                     (processAnalytic Date_getTime copy None s) [] in
          match final o with
          | returned processedAnalytic =>
              {| write_index := RESULTS_INDEX_NAME;
                 write_id := scored_id processedAnalytic;
                 write_document := processedAnalytic |}
                :: recomputed Date_getTime st rest (fields o)
          | _ => recomputed Date_getTime st rest (fields o)
          end
      end
  end.

(** [l] lists elements of [m], in the order of [m]. *)
Inductive subseq {X : Type} : list X -> list X -> Prop :=
| subseq_nil : subseq [] []
| subseq_skip (x : X) (l m : list X) : subseq l m -> subseq l (x :: m)
| subseq_take (x : X) (l m : list X) : subseq l m -> subseq (x :: l) (x :: m).

(** The clock and the random source of a store. *)
Definition store_answers (st : Store) (X : Type) (c : Sync X) (x : X) : Prop :=
  x = store_answer st [] c.

(** The next execution that the clock and the draw of the store give
    is an instant a [Date] can hold. *)
Definition next_in_range (st : Store) (s : Fields) : Prop :=
  Z.abs (clock st + refreshDelayMs s
         + (Qfloor (draw st * inject_Z (360 - 60 + 1)) + 60) * 1000) <= MAX_TIME.

(** The fields a recomputation leaves as they are. *)
Definition same_instance (s s' : Fields) : Prop :=
  internalClient s' = internalClient s /\ refreshDelayMs s' = refreshDelayMs s.

(* ================================================================== *)
(** ** Statements about the scan of the catalog *)

Definition analytic_without_references : AnalyticDocument :=
  {| id := "x-mitre-analytic--0001";
     analytic_name := "Analytic 0001";
     x_mitre_log_source_references := Some [] |}.

Definition first_page : ScrollPage :=
  {| hits_hits := [Some analytic_without_references];
     _scroll_id := Some "scroll-1" |}.

(** A catalog of one page; the continuation of the scroll fails, or
    the refresh of the results does, as told. *)
Definition catalog_store (scroll_reply : option Error) (refresh_reply : Result unit)
  : Store :=
  {| clock := 1767225600000;
     draw := 1 # 2;
     probe := fun _ => Ok [];
     settings_index := Ok false;
     settings_doc := fun _ => Err "index_not_found_exception";
     catalog := Some [first_page];
     scroll_reply := scroll_reply;
     results := Some [];
     index_reply := fun _ => Ok tt;
     refresh_reply := refresh_reply |}.

(** The scrolls an execution was handed and those it closed, in the
    order of the calls. *)
Fixpoint scrolls_opened (t : Trace) : list string :=
  match t with
  | [] => []
  | called (search_scroll _ _ _) (Ok page) :: rest =>
      match _scroll_id page with
      | Some scroll_id => scrolls_opened rest ++ [scroll_id]
      | None => scrolls_opened rest
      end
  | _ :: rest => scrolls_opened rest
  end.

Fixpoint scrolls_closed (t : Trace) : list string :=
  match t with
  | [] => []
  | called (clearScroll _ scroll_id) _ :: rest => scrolls_closed rest ++ [scroll_id]
  | _ :: rest => scrolls_closed rest
  end.

(** The number of continuations of a scroll in a trace. *)
Definition continuations (t : Trace) : nat := List.length (filter is_scroll t).

(** Everything but the continuation of a scroll. *)
Definition no_scroll (X : Type) (c : Request X) : Prop :=
  match c with
  | scroll _ _ => False
  | _ => True
  end.

(* ================================================================== *)
(** ** Inputs of the examples *)

(** A date parser for the instants of the examples: [T] and a number
    of minutes after it. *)
Definition minutes_after (text : string) : num :=
  if String.eqb text "T" then Js.of_Z 0
  else if String.eqb text "T+4m" then Js.of_Z (4 * 60 * 1000)
  else if String.eqb text "T+10m" then Js.of_Z (10 * 60 * 1000)
  else if String.eqb text "T+40m" then Js.of_Z (40 * 60 * 1000)
  else if String.eqb text "T+90m" then Js.of_Z (90 * 60 * 1000)
  else NaN.

Definition ingested_at (text : string) : option LogDoc :=
  Some {| at_timestamp := Some "T"; event_ingested := Some text |}.

(** A store whose result index is empty, over an empty catalog. *)
Definition empty_store : Store :=
  {| clock := 1767225600000;
     draw := 1 # 2;
     probe := fun _ => Ok [];
     settings_index := Ok false;
     settings_doc := fun _ => Err "index_not_found_exception";
     catalog := Some [];
     scroll_reply := None;
     results := Some [];
     index_reply := fun _ => Ok tt;
     refresh_reply := Ok tt |}.

(** A store with one result, due a week after the clock reading. *)
Definition settled_store : Store :=
  {| clock := 1767225600000;
     draw := 1 # 2;
     probe := fun _ => Ok [];
     settings_index := Ok false;
     settings_doc := fun _ => Err "index_not_found_exception";
     catalog := Some [];
     scroll_reply := None;
     results := Some [stale_result 1767830400000 0];
     index_reply := fun _ => Ok tt;
     refresh_reply := Ok tt |}.

(* ================================================================== *)
(** ** Statements about the matrix *)

(** A comparison of names that orders any two of them, consistently:
    what [localeCompare] is for a collation. *)
Definition collation (compare : string -> string -> Z) : Prop :=
  (forall a b, compare a b <= 0 \/ compare b a <= 0) /\
  (forall a b c, compare a b <= 0 -> compare b c <= 0 -> compare a c <= 0).

(** Techniques listed by name: none comes before one that the
    comparison puts strictly earlier. *)
Definition listed_by_name (compare : string -> string -> Z)
  : list MitreTechnique.t -> Prop :=
  StronglySorted (fun a b => byName compare a b <= 0).

(** [t] is the entry [buildMatrix] makes for the technique [t0]: the
    fields of [t0], with a list of subtechniques. *)
Definition entry_of (t0 t : MitreTechnique.t) : Prop :=
  exists subs, t = MitreTechnique.with_subtechniques (Some subs) t0.

(** The subtechniques [buildMatrix] hangs under the external id [key]:
    those that name it as their parent. *)
Definition child_of (key : string) (sub : MitreTechnique.t) : bool :=
  (MitreTechnique.isSubtechnique sub
   && Js.truthy_opt (MitreTechnique.parentTechniqueId sub)
   && String.eqb (the (MitreTechnique.parentTechniqueId sub)) key)%bool.

(** The techniques that are no subtechniques. *)
Definition parents (techniques : list MitreTechnique.t) : list MitreTechnique.t :=
  filter (fun t => negb (MitreTechnique.isSubtechnique t)) techniques.

(** The steps of [buildMatrix] on [techniqueMap]: the entry of a
    parent technique, a subtechnique pushed under its parent, the
    subtechniques of an entry sorted. *)
Definition addParent (techniqueMap : JsMap.t MitreTechnique.t)
    (technique : MitreTechnique.t) : JsMap.t MitreTechnique.t :=
  JsMap.set techniqueMap (MitreTechnique.externalId technique)
    (MitreTechnique.with_subtechniques (Some []) technique).

Definition addChild (techniqueMap : JsMap.t MitreTechnique.t)
    (subtechnique : MitreTechnique.t) : JsMap.t MitreTechnique.t :=
  if Js.truthy_opt (MitreTechnique.parentTechniqueId subtechnique) then
    let key := the (MitreTechnique.parentTechniqueId subtechnique) in
    match JsMap.get techniqueMap key with
    | Some parent =>
        match MitreTechnique.subtechniques parent with
        | Some subs =>
            JsMap.set techniqueMap key
              (MitreTechnique.with_subtechniques
                 (Some (subs ++ [subtechnique])%list) parent)
        | None => techniqueMap
        end
    | None => techniqueMap
    end
  else techniqueMap.

Definition sortChildren (localeCompare : string -> string -> Z)
    (entry : string * MitreTechnique.t) : string * MitreTechnique.t :=
  (fst entry,
   match MitreTechnique.subtechniques (snd entry) with
   | Some subs =>
       MitreTechnique.with_subtechniques
         (Some (sort (byName localeCompare) subs)) (snd entry)
   | None => snd entry
   end).

Definition techniqueMapOf (localeCompare : string -> string -> Z)
    (techniques : list MitreTechnique.t) : JsMap.t MitreTechnique.t :=
  map (sortChildren localeCompare)
    (fold_left addChild (filter MitreTechnique.isSubtechnique techniques)
       (fold_left addParent (parents techniques) [])).

(** The techniques a tactic lists among [entries]. *)
Definition under (localeCompare : string -> string -> Z) (tactic : MitreTactic.t)
    (entries : list MitreTechnique.t) : list MitreTechnique.t :=
  sort (byName localeCompare)
    (filter (fun technique =>
               existsb (String.eqb (MitreTactic.shortName tactic))
                       (MitreTechnique.tacticShortNames technique))
            entries).

(** The matrix as a table: under each tactic of the taxonomy, by name,
    the parent techniques that carry it, each with the subtechniques
    that name it as their parent, by name. *)
Definition matrixTable (localeCompare : string -> string -> Z)
    (techniques : list MitreTechnique.t) (availablePlatforms : list string)
  : MitreMatrixData.t :=
  {| MitreMatrixData.tactics :=
       map (fun tactic =>
              {| TacticWithTechniques.tactic := tactic;
                 TacticWithTechniques.techniques :=
                   under localeCompare tactic
                     (map (fun t0 =>
                             MitreTechnique.with_subtechniques
                               (Some (sort (byName localeCompare)
                                        (filter
                                           (child_of (MitreTechnique.externalId t0))
                                           techniques)))
                               t0)
                          (parents techniques)) |})
           MITRE_TACTICS_ORDER;
     MitreMatrixData.availablePlatforms := availablePlatforms |}.

(** What [buildMatrix] keeps true of [techniqueMap]: an entry stands
    under the external id of the parent technique it copies, and
    holds subtechniques of the input that name that id as parent. *)
Definition entries_ok (techniques : list MitreTechnique.t)
    (techniqueMap : JsMap.t MitreTechnique.t) : Prop :=
  forall key t, In (key, t) techniqueMap ->
    exists t0 subs,
      In t0 techniques /\ MitreTechnique.isSubtechnique t0 = false /\
      key = MitreTechnique.externalId t0 /\
      t = MitreTechnique.with_subtechniques (Some subs) t0 /\
      Forall (fun sub => In sub techniques /\ child_of key sub = true) subs.

(** A technique listed in the matrix, under the tactic [tactic]. *)
Definition listed_ok (techniques : list MitreTechnique.t) (tactic : MitreTactic.t)
    (t : MitreTechnique.t) : Prop :=
  In (MitreTactic.shortName tactic) (MitreTechnique.tacticShortNames t) /\
  MitreTechnique.isSubtechnique t = false /\
  (exists t0, In t0 techniques /\ entry_of t0 t) /\
  exists subs,
    MitreTechnique.subtechniques t = Some subs /\
    Forall (fun sub => In sub techniques /\
                       MitreTechnique.isSubtechnique sub = true /\
                       MitreTechnique.parentTechniqueId sub
                         = Some (MitreTechnique.externalId t))
           subs.

(** The entry of the parent technique [t0] once the subtechniques
    [done] have been pushed. *)
Definition entryWith (done : list MitreTechnique.t) (t0 : MitreTechnique.t)
  : string * MitreTechnique.t :=
  (MitreTechnique.externalId t0,
   MitreTechnique.with_subtechniques
     (Some (filter (child_of (MitreTechnique.externalId t0)) done)) t0).


(* ================================================================== *)
(** ** Statements about the techniques and their detection strategies *)

(** The object [linkDetectionStrategiesToTechniques] pushes for a
    strategy. *)
Definition linkedStrategy (analyticsMap : JsMap.t StixAnalytic.t)
    (strategy : StixDetectionStrategy.t) : MitreDetectionStrategy.t :=
  let mitreRef := findMitreRef (StixDetectionStrategy.external_references strategy) in
  {| MitreDetectionStrategy.id := StixDetectionStrategy.id strategy;
     MitreDetectionStrategy.name := StixDetectionStrategy.name strategy;
     MitreDetectionStrategy.externalId := externalIdOf mitreRef;
     MitreDetectionStrategy.url := urlOf mitreRef EmptyString;
     MitreDetectionStrategy.analytics := analyticsForStrategy analyticsMap strategy |}.

(** The strategies the relationships [rels] link to the technique with
    the id [target], in the order of the relationships: one for each
    relationship that points at [target] from a strategy of the map. *)
Definition strategiesFor (detectionStrategies : JsMap.t StixDetectionStrategy.t)
    (analyticsMap : JsMap.t StixAnalytic.t) (rels : list StixRelationship.t)
    (target : string) : list MitreDetectionStrategy.t :=
  flat_map
    (fun relationship =>
       if String.eqb target (StixRelationship.target_ref relationship) then
         match JsMap.get detectionStrategies (StixRelationship.source_ref relationship)
         with
         | Some strategy => [linkedStrategy analyticsMap strategy]
         | None => []
         end
       else [])
    rels.

(** A technique with the strategies [ds]; the field stays [undefined]
    when there is none. *)
Definition withStrategies (ds : list MitreDetectionStrategy.t) (t : MitreTechnique.t)
  : MitreTechnique.t :=
  MitreTechnique.with_detectionStrategies
    (match ds with
     | [] => None
     | _ :: _ => Some ds
     end) t.

(** What [convertToTechniques] derives from the external id of a
    pattern: a parent id for a subtechnique whose external id has a
    dot, the part before the first dot; none otherwise. *)
Definition parent_id_ok (t : MitreTechnique.t) : Prop :=
  match MitreTechnique.parentTechniqueId t with
  | Some parent =>
      MitreTechnique.isSubtechnique t = true /\
      includes "." parent = false /\
      exists rest, MitreTechnique.externalId t = parent ++ String "." rest
  | None =>
      MitreTechnique.isSubtechnique t = false \/
      includes "." (MitreTechnique.externalId t) = false
  end.

(** The platforms of the analytics of a map. *)
Definition platform_of (analyticsMap : JsMap.t StixAnalytic.t) (platform : string)
  : Prop :=
  exists analytic platforms,
    In analytic (JsMap.values analyticsMap) /\
    StixAnalytic.x_mitre_platforms analytic = Some platforms /\
    In platform platforms.

(** A technique of the matrix goes back to an attack pattern of the
    bundle that is neither deprecated nor revoked and has a name and
    external references. *)
Definition from_pattern (objects : list StixObject.t) (t : MitreTechnique.t) : Prop :=
  exists obj,
    In obj objects /\
    StixObject.type obj = "attack-pattern" /\
    StixObject.id obj = MitreTechnique.id t /\
    ~ excluded obj.


(* ================================================================== *)
(** ** A small bundle *)

(** A technique with one subtechnique, a detection strategy that
    detects the technique and refers to an analytic of the bundle and
    to one that is not in the bundle, and the analytic. *)
Definition sample_technique : StixObject.t :=
  {| StixObject.type := "attack-pattern";
     StixObject.id := "attack-pattern--7385dfaf";
     StixObject.name := Some "Command and Scripting Interpreter";
     StixObject.description := Some "Adversaries may abuse interpreters.";
     StixObject.external_references := Some [mitre_reference "T1059"];
     StixObject.kill_chain_phases :=
       Some [ {| StixKillChainPhase.kill_chain_name := "mitre-attack";
                 StixKillChainPhase.phase_name := "execution" |} ];
     StixObject.x_mitre_is_subtechnique := Some false;
     StixObject.x_mitre_deprecated := None;
     StixObject.revoked := None;
     StixObject.x_mitre_analytic_refs := None;
     StixObject.x_mitre_platforms := None;
     StixObject.relationship_type := None;
     StixObject.source_ref := None;
     StixObject.target_ref := None |}.

Definition sample_subtechnique : StixObject.t :=
  {| StixObject.type := "attack-pattern";
     StixObject.id := "attack-pattern--970a3432";
     StixObject.name := Some "PowerShell";
     StixObject.description := None;
     StixObject.external_references := Some [mitre_reference "T1059.001"];
     StixObject.kill_chain_phases :=
       Some [ {| StixKillChainPhase.kill_chain_name := "mitre-attack";
                 StixKillChainPhase.phase_name := "execution" |} ];
     StixObject.x_mitre_is_subtechnique := Some true;
     StixObject.x_mitre_deprecated := None;
     StixObject.revoked := None;
     StixObject.x_mitre_analytic_refs := None;
     StixObject.x_mitre_platforms := None;
     StixObject.relationship_type := None;
     StixObject.source_ref := None;
     StixObject.target_ref := None |}.

Definition sample_strategy : StixObject.t :=
  {| StixObject.type := "x-mitre-detection-strategy";
     StixObject.id := "x-mitre-detection-strategy--0455";
     StixObject.name := Some "Detect interpreters";
     StixObject.description := None;
     StixObject.external_references := Some [mitre_reference "DET0455"];
     StixObject.kill_chain_phases := None;
     StixObject.x_mitre_is_subtechnique := None;
     StixObject.x_mitre_deprecated := None;
     StixObject.revoked := None;
     StixObject.x_mitre_analytic_refs :=
       Some ["x-mitre-analytic--1234"; "x-mitre-analytic--9999"];
     StixObject.x_mitre_platforms := None;
     StixObject.relationship_type := None;
     StixObject.source_ref := None;
     StixObject.target_ref := None |}.

Definition sample_analytic : StixObject.t :=
  {| StixObject.type := "x-mitre-analytic";
     StixObject.id := "x-mitre-analytic--1234";
     StixObject.name := Some "Analytic 1234";
     StixObject.description := None;
     StixObject.external_references := Some [mitre_reference "AN1234"];
     StixObject.kill_chain_phases := None;
     StixObject.x_mitre_is_subtechnique := None;
     StixObject.x_mitre_deprecated := None;
     StixObject.revoked := None;
     StixObject.x_mitre_analytic_refs := None;
     StixObject.x_mitre_platforms := Some ["Windows"; "Linux"; "Windows"];
     StixObject.relationship_type := None;
     StixObject.source_ref := None;
     StixObject.target_ref := None |}.

Definition sample_relationship : StixObject.t :=
  {| StixObject.type := "relationship";
     StixObject.id := "relationship--0001";
     StixObject.name := None;
     StixObject.description := None;
     StixObject.external_references := None;
     StixObject.kill_chain_phases := None;
     StixObject.x_mitre_is_subtechnique := None;
     StixObject.x_mitre_deprecated := None;
     StixObject.revoked := None;
     StixObject.x_mitre_analytic_refs := None;
     StixObject.x_mitre_platforms := None;
     StixObject.relationship_type := Some "detects";
     StixObject.source_ref := Some "x-mitre-detection-strategy--0455";
     StixObject.target_ref := Some "attack-pattern--7385dfaf" |}.

Definition sample_bundle : list StixObject.t :=
  [ sample_subtechnique; sample_technique; sample_strategy; sample_analytic;
    sample_relationship ].

(** The techniques [parseMatrix] builds from the bundle, before and
    after the strategies are linked. *)
Definition sample_techniques : list MitreTechnique.t :=
  convertToTechniques (extractAttackPatterns sample_bundle).

(** A parser that reads the bundle from every text. *)
Definition sample_parser (rawData : string) : Parsed := bundle sample_bundle.


(* ================================================================== *)
(** ** Statements about the timeliness score *)

(** A record of the log store that carries both timestamps, dated [t]
    and ingested at [i] (epoch milliseconds). *)
Definition dated (Date_getTime : string -> num) (doc : LogDoc) (t i : Q) : Prop :=
  exists timestampStr ingestedStr,
    at_timestamp doc = Some timestampStr /\ timestampStr <> "" /\
    event_ingested doc = Some ingestedStr /\ ingestedStr <> "" /\
    Date_getTime timestampStr = Num t /\ Date_getTime ingestedStr = Num i.

(** The score by the delay of the ingestion, in milliseconds. *)
Definition timelinessByDelay (delay : Q) : num :=
  if Qlt_le_dec delay 300000 then dec 5 1
  else if Qlt_le_dec delay 900000 then dec 3 1
  else if Qlt_le_dec delay 3600000 then dec 1 1
  else dec 0 1.

(** No record, a record without one of the timestamps (missing or
    empty), or one with a timestamp that is no date. *)
Definition undated (Date_getTime : string -> num) (lastDoc : option LogDoc) : Prop :=
  match lastDoc with
  | None => True
  | Some doc =>
      Js.truthy_opt (event_ingested doc) = false \/
      Js.truthy_opt (at_timestamp doc) = false \/
      Date_getTime (the (event_ingested doc)) = NaN \/
      Date_getTime (the (at_timestamp doc)) = NaN
  end.


(* ================================================================== *)
(** ** Statements about the scores of a reference *)

(** A log store in which no probe finds a record: a search of the
    logs returns no hit, or fails. *)
Definition finds_nothing (X : Type) (c : Request X) : Result X -> Prop :=
  match c in Request X return Result X -> Prop with
  | search_logs _ _ _ =>
      fun reply =>
        match reply with
        | Ok (_ :: _) => False
        | _ => True
        end
  | _ => fun _ => True
  end.

(** The five dimension scores and the quality score are 0. *)
Definition all_zero (sc : Scores) : Prop :=
  Js.same (score (data_field_completeness sc)) (Num 0) /\
  score (timeliness sc) = dec 0 1 /\
  score (consistency sc) = dec 0 1 /\
  score (device_completeness sc) = Js.VNumber (dec 0 1) /\
  score (retention sc) = Js.VNumber (dec 0 1) /\
  Js.same (quality_score sc) (Num 0).

(** The status and the confidence of a mapping are keys of the
    multiplier tables, or name no property at all. *)
Definition plain_mapping (m : Mapping) : Prop :=
  status m = "unmapped" \/
  (Js.inherited (status m) = false /\ Js.inherited (confidence m) = false).

(** What can make the scoring of a reference throw: a next execution
    that is no valid date. *)
Definition invalid_time : Error := "RangeError: Invalid time value".


(* ================================================================== *)
(** ** Statements about the settings *)

(** A settings store without a document of configured scores: the
    index is missing, the document is, or the read fails. *)
Definition no_settings (X : Type) (c : Request X) : Result X -> Prop :=
  match c in Request X return Result X -> Prop with
  | get_scores _ _ _ =>
      fun reply =>
        match reply with
        | Ok (Some _) => False
        | _ => True
        end
  | _ => fun _ => True
  end.

(** The configured scores a store holds under the document [id]. *)
Definition stored_scores (st : Store) (id : string) : Js.object :=
  match settings_index st with
  | Ok true =>
      match settings_doc st id with
      | Ok (Some scores) => scores
      | _ => []
      end
  | _ => []
  end.

(** The store calls of a trace. *)
Definition calls (t : Trace) : Trace :=
  filter (fun e => match e with
                   | called _ _ => true
                   | asked _ _ => false
                   end) t.

(** A store whose settings index holds a retention score for Windows
    and device-completeness scores for Windows and Linux. *)
Definition configured_store : Store :=
  {| clock := 1767225600000;
     draw := 1 # 2;
     probe := fun _ => Ok [];
     settings_index := Ok true;
     settings_doc := fun id =>
       if String.eqb id "retention_scores" then Ok (Some [("Windows", 3 # 1)]%Q)
       else if String.eqb id "device_completeness_scores"
            then Ok (Some [("Windows", 4 # 1); ("Linux", 1 # 1)]%Q)
            else Err "document_missing_exception";
     catalog := Some [];
     scroll_reply := None;
     results := Some [];
     index_reply := fun _ => Ok tt;
     refresh_reply := Ok tt |}.


(* ================================================================== *)
(** ** Statements about the recomputation of an analytic *)

(** [scored] is [analytic] with scores: the same id and name, the same
    references in the same order. *)
Definition scored_from (analytic : AnalyticDocument)
    (scored : AnalyticDocumentWithScores) : Prop :=
  scored_id scored = id analytic /\
  scored_name scored = analytic_name analytic /\
  option_map (map reference) (scored_references scored)
    = x_mitre_log_source_references analytic.

(** What iterating a missing reference array throws. *)
Definition not_iterable : Error :=
  "TypeError: analytic.x_mitre_log_source_references is not iterable".

(* ================================================================== *)
(** ** Statements about the passes *)

(** A pass ended, by [return] or by [throw], and left the instance
    idle, with the internal client back as the logs client. *)
Definition released (s : Fields) (A : Type) (o : Outcome A) : Prop :=
  final o <> unfinished ->
  isRunning (fields o) = false /\
  logsClient (fields o) = internalClient s /\
  internalClient (fields o) = internalClient s.

(** The instance serves the stores as [internal], the logs as [logs]. *)
Definition serves (internal logs : Client) (s : Fields) : Prop :=
  internalClient s = internal /\ logsClient s = logs.

(** The identity each store call is made with: the logs are searched
    as [logs], every other call is made as [internal]. *)
Definition by_client (internal logs : Client) (X : Type) (c : Request X) : Prop :=
  match c with
  | search_logs cl _ _ => cl = logs
  | indices_exists cl _ | count_docs cl _ | get_scores cl _ _
  | search_scroll cl _ _ | scroll cl _ | clearScroll cl _
  | search_due cl _ _ _ | index_doc cl _ _ _ | indices_refresh cl _ => cl = internal
  end.


(* ================================================================== *)
(** ** Statements about the full pass *)

(** The analytics of a page that the full pass scores: the hits with a
    source and at least one log-source reference. *)
Fixpoint scored_hits (hits : list (option AnalyticDocument)) : list string :=
  match hits with
  | [] => []
  | Some analytic :: rest =>
      match x_mitre_log_source_references analytic with
      | Some (_ :: _) => id analytic :: scored_hits rest
      | _ => scored_hits rest
      end
  | None :: rest => scored_hits rest
  end.

(** A catalog served page by page: every page has hits and comes with
    a scroll id. *)
Definition paged (pages : list ScrollPage) : Prop :=
  Forall (fun page => hits_hits page <> [] /\
                      Js.truthy_opt (_scroll_id page) = true) pages.

(** The scroll id the scan of a catalog ends with. *)
Definition last_scroll (pages : list ScrollPage) : list string :=
  match pages with
  | [] => []
  | _ :: _ => [the (_scroll_id (last pages empty_page))]
  end.

(** A catalog of two pages, three analytics with references among
    their five hits. *)
Definition sample_reference : LogSourceReference :=
  {| x_mitre_data_component_ref := "x-mitre-data-component--0001";
     data_component_name := "Process Creation";
     name := "WinEventLog:Security";
     channel := "EventCode=4688";
     mapping :=
       {| ecs := {| name_field := "event.code"; name_value := "4688";
                    channel_field := "winlog.channel"; channel_value := "Security" |};
          status := "complete"; confidence := "high";
          notes := ""; verified := true |} |}.

Definition sample_document (id : string) : AnalyticDocument :=
  {| id := id; analytic_name := "Analytic";
     x_mitre_log_source_references := Some [sample_reference] |}.

Definition sample_pages : list ScrollPage :=
  [ {| hits_hits := [ Some (sample_document "AN-1"); None;
                      Some analytic_without_references;
                      Some (sample_document "AN-2") ];
       _scroll_id := Some "scroll-1" |};
    {| hits_hits := [ Some (sample_document "AN-3") ];
       _scroll_id := Some "scroll-2" |} ].

Definition sample_catalog : Store :=
  {| clock := 1767225600000;
     draw := 1 # 2;
     probe := fun _ => Ok [];
     settings_index := Ok false;
     settings_doc := fun _ => Err "index_not_found_exception";
     catalog := Some sample_pages;
     scroll_reply := None;
     results := None;
     index_reply := fun _ => Ok tt;
     refresh_reply := Ok tt |}.


(* ================================================================== *)
(** ** Statements about the smart pass and the settings *)

(** A result store that holds results and fails the search for the
    due ones. *)
Definition due_search_fails (X : Type) (c : Request X) : Result X -> Prop :=
  match c in Request X return Result X -> Prop with
  | indices_exists _ _ => fun reply => reply = Ok true
  | count_docs _ _ => fun reply => exists n, reply = Ok n /\ n <> 0
  | search_due _ _ _ _ => fun reply => exists e, reply = Err e
  | _ => fun _ => True
  end.

(** Everything but a write of a result. *)
Definition no_write (X : Type) (c : Request X) : Prop :=
  match c with
  | index_doc _ _ _ _ => False
  | _ => True
  end.

(** A store with results whose search for the due ones fails. *)
Definition failing_search_world : World :=
  {| respond := fun X h c =>
       match c in Request X return Result X with
       | indices_exists _ _ => Ok true
       | count_docs _ _ => Ok 3
       | search_due _ _ _ _ => Err "search_phase_execution_exception"
       | c' => store_respond empty_store h c'
       end;
     answer := store_answer empty_store |}.

(** No configured score is cached. *)
Definition nothing_cached (s : Fields) : Prop :=
  retentionScoresCache s = [] /\ deviceCompletenessCache s = [].

(** The quality score is a number of [0, 4.4]. *)
Definition capped (sc : Scores) : Prop :=
  Js.between 0 (44 # 10) (quality_score sc).

(* ================================================================== *)
(** ** Rules of the program logic *)

Section SatRules.

Variable I : Fields -> Prop.
Variable R : forall X : Type, Request X -> Result X -> Prop.
Variable Ra : forall X : Type, Sync X -> X -> Prop.
Variable G : forall X : Type, Request X -> Prop.

Lemma sat_mono (A : Type) (P P' : A -> Fields -> Prop)
    (Q Q' : Error -> Fields -> Prop) (U U' : Fields -> Prop) (r : Res A) :
  (forall a s, P a s -> P' a s) ->
  (forall e s, Q e s -> Q' e s) ->
  (forall s, U s -> U' s) ->
  sat I R Ra G P Q U r -> sat I R Ra G P' Q' U' r.
Proof.
  intros HP HQ HU.
  induction r as [a s | e s | s | X s c k IH | X c k IH]; simpl; intuition eauto.
Qed.

Lemma sat_bind (A B : Type) (P1 : A -> Fields -> Prop) (P2 : B -> Fields -> Prop)
    (Q : Error -> Fields -> Prop) (U : Fields -> Prop)
    (r : Res A) (f : A -> Task B) :
  sat I R Ra G P1 Q U r ->
  (forall a s, P1 a s -> sat I R Ra G P2 Q U (f a s)) ->
  sat I R Ra G P2 Q U (bindR r f).
Proof.
  intros Hr Hf.
  induction r as [a s | e s | s | X s c k IH | X c k IH]; simpl in *;
    intuition eauto.
Qed.

Lemma sat_catch (A : Type) (P : A -> Fields -> Prop)
    (Q1 Q2 : Error -> Fields -> Prop) (U : Fields -> Prop)
    (r : Res A) (h : Error -> Task A) :
  sat I R Ra G P Q1 U r ->
  (forall e s, Q1 e s -> sat I R Ra G P Q2 U (h e s)) ->
  sat I R Ra G P Q2 U (catchR r h).
Proof.
  intros Hr Hh.
  induction r as [a s | e s | s | X s c k IH | X c k IH]; simpl in *;
    intuition eauto.
Qed.

Lemma sat_finally (A : Type) (P1 P2 : A -> Fields -> Prop)
    (Q1 Q2 : Error -> Fields -> Prop) (U : Fields -> Prop)
    (r : Res A) (fin : Fields -> Fields) :
  sat I R Ra G P1 Q1 U r ->
  (forall a s, P1 a s -> P2 a (fin s)) ->
  (forall e s, Q1 e s -> Q2 e (fin s)) ->
  sat I R Ra G P2 Q2 U (finallyR r fin).
Proof.
  intros Hr HP HQ.
  induction r as [a s | e s | s | X s c k IH | X c k IH]; simpl in *;
    intuition eauto.
Qed.

Lemma sat_await (X : Type) (P : X -> Fields -> Prop) (Q : Error -> Fields -> Prop)
    (U : Fields -> Prop) (c : Request X) (s : Fields) :
  I s -> G c ->
  (forall x s', R c (Ok x) -> I s' -> P x s') ->
  (forall e s', R c (Err e) -> I s' -> Q e s') ->
  sat I R Ra G P Q U (await c s).
Proof.
  intros Hi Hg Hok Herr. simpl. repeat split; auto.
  intros [x | e] s' Hr Hs'; simpl; auto.
Qed.

Lemma sat_ask (X : Type) (P : X -> Fields -> Prop) (Q : Error -> Fields -> Prop)
    (U : Fields -> Prop) (c : Sync X) (s : Fields) :
  (forall x, Ra c x -> P x s) ->
  sat I R Ra G P Q U (ask c s).
Proof. intros H. simpl. exact H. Qed.

Lemma sat_for_of (X : Type) (J : Fields -> Prop) (Q : Error -> Fields -> Prop)
    (U : Fields -> Prop) (body : X -> Task unit) (l : list X) :
  (forall x s, In x l -> J s -> sat I R Ra G (fun _ s' => J s') Q U (body x s)) ->
  forall s, J s -> sat I R Ra G (fun _ s' => J s') Q U (for_of l body s).
Proof.
  induction l as [| x rest IH]; intros Hbody s Hs; simpl.
  - exact Hs.
  - unfold bind. apply sat_bind with (P1 := fun _ s' => J s').
    + apply Hbody; simpl; auto.
    + intros _ s' Hs'. apply IH; auto. intros y s0 Hy. apply Hbody. simpl; auto.
Qed.

End SatRules.

(** ** Rules of execution *)

Lemma run_bind (A B : Type) (w : World) (r : Res A) (f : A -> Task B) (h : Trace) :
  run w (bindR r f) h = continue w (run w r h) f.
Proof.
  revert h.
  induction r as [a s | e s | s | X s c k IH | X c k IH]; intros h; simpl; auto.
Qed.

Lemma run_catch (A : Type) (w : World) (r : Res A) (f : Error -> Task A) (h : Trace) :
  run w (catchR r f) h = handle w (run w r h) f.
Proof.
  revert h.
  induction r as [a s | e s | s | X s c k IH | X c k IH]; intros h; simpl; auto.
Qed.

Lemma run_finally (A : Type) (w : World) (r : Res A) (fin : Fields -> Fields)
    (h : Trace) :
  run w (finallyR r fin) h = cleanup (run w r h) fin.
Proof.
  revert h.
  induction r as [a s | e s | s | X s c k IH | X c k IH]; intros h; simpl; auto.
Qed.

(** Soundness of the logic for the executions of [run]: nothing else
    touches the fields, so they are resumed as they were left. *)
Lemma sat_run (A : Type) (I : Fields -> Prop)
    (R : forall X : Type, Request X -> Result X -> Prop)
    (Ra : forall X : Type, Sync X -> X -> Prop)
    (G : forall X : Type, Request X -> Prop)
    (P : A -> Fields -> Prop) (Q : Error -> Fields -> Prop) (U : Fields -> Prop)
    (w : World) (r : Res A) (h : Trace) :
  obeys w R Ra ->
  sat I R Ra G P Q U r ->
  exists new : Trace,
    trace (run w r h) = (new ++ h)%list /\
    Forall (event_ok G) new /\
    match final (run w r h) with
    | returned a => P a (fields (run w r h))
    | thrown e => Q e (fields (run w r h))
    | unfinished => U (fields (run w r h))
    end.
Proof.
  intros [HR HRa]. revert h.
  induction r as [a s | e s | s | X s c k IH | X c k IH]; intros h Hsat; simpl in *.
  - exists []. auto.
  - exists []. auto.
  - exists []. auto.
  - destruct Hsat as (Hi & Hg & Hk).
    destruct (IH (respond w h c) s (called c (respond w h c) :: h)) as (new & Ht & Hf & Hp).
    + apply Hk; auto.
    + exists (new ++ [called c (respond w h c)])%list. split; [| split]; auto.
      * rewrite Ht, <- app_assoc. reflexivity.
      * apply Forall_app. split; auto.
  - destruct (IH (answer w h c) (asked c (answer w h c) :: h)) as (new & Ht & Hf & Hp).
    + apply Hsat; auto.
    + exists (new ++ [asked c (answer w h c)])%list. split; [| split]; auto.
      * rewrite Ht, <- app_assoc. reflexivity.
      * apply Forall_app. split; auto. constructor; simpl; auto.
Qed.

(* ================================================================== *)
(** ** Framing the scoring service

    Whatever holds of the fields and survives the assignments to the
    settings caches holds at every suspension of the scoring methods
    and when they end; they only issue the calls listed below, and
    they contain no loop that could run out of fuel. *)

Ltac sat_steps :=
  unfold ret, throw, this, assign, ask, await;
  repeat first
    [ progress simpl
    | progress intros
    | match goal with
      | |- _ /\ _ => split
      | |- context [match ?x with Ok _ => _ | Err _ => _ end] => destruct x
      | |- context [if ?b then _ else _] => destruct b
      end ];
  auto.

Section Frame.

Variable Date_getTime : string -> num.
Variable I : Fields -> Prop.
Variable R : forall X : Type, Request X -> Result X -> Prop.
Variable Ra : forall X : Type, Sync X -> X -> Prop.
Variable G : forall X : Type, Request X -> Prop.
Variable Q : Error -> Fields -> Prop.
Variable U : Fields -> Prop.

Hypothesis I_retentionScoresCache :
  forall o s, I s -> I (set_retentionScoresCache o s).
Hypothesis I_retentionScoresCacheTimestamp :
  forall t s, I s -> I (set_retentionScoresCacheTimestamp t s).
Hypothesis I_deviceCompletenessCache :
  forall o s, I s -> I (set_deviceCompletenessCache o s).
Hypothesis I_deviceCompletenessCacheTimestamp :
  forall t s, I s -> I (set_deviceCompletenessCacheTimestamp t s).
Hypothesis G_indices_exists : forall cl index, G (indices_exists cl index).
Hypothesis G_get_scores : forall cl index id, G (get_scores cl index id).

Lemma fetchRetentionSettings_framed (s : Fields) :
  I s -> framed I R Ra G Q U (fetchRetentionSettings s).
Proof.
  intros Hs. unfold framed; unfold fetchRetentionSettings, bind, try_catch.
  sat_steps.
Qed.

Lemma fetchDeviceCompletenessSettings_framed (s : Fields) :
  I s -> framed I R Ra G Q U (fetchDeviceCompletenessSettings s).
Proof.
  intros Hs. unfold framed; unfold fetchDeviceCompletenessSettings, bind, try_catch.
  sat_steps.
Qed.

Lemma getRetentionScoreForPlatform_framed (platform : option string) (s : Fields) :
  I s -> framed I R Ra G Q U (getRetentionScoreForPlatform platform s).
Proof.
  intros Hs. unfold framed; unfold getRetentionScoreForPlatform, bind.
  eapply sat_bind; [apply fetchRetentionSettings_framed; exact Hs |].
  sat_steps.
Qed.

Lemma getDeviceCompletenessScoreForPlatform_framed (platform : option string)
    (s : Fields) :
  I s -> framed I R Ra G Q U (getDeviceCompletenessScoreForPlatform platform s).
Proof.
  intros Hs. unfold framed; unfold getDeviceCompletenessScoreForPlatform, bind.
  eapply sat_bind; [apply fetchDeviceCompletenessSettings_framed; exact Hs |].
  sat_steps.
Qed.

Hypothesis calculateNextExecution_framed :
  forall s, I s -> framed I R Ra G Q U (calculateNextExecution s).

Lemma queryFieldExists_framed (nameField nameValue : string)
    (channelField channelValue : option string) (s : Fields) :
  (forall cl,
      G (search_logs cl LOGS_INDEX_PATTERN
           (mustClauses nameField nameValue channelField channelValue))) ->
  I s -> framed I R Ra G Q U (queryFieldExists nameField nameValue channelField channelValue s).
Proof.
  intros Hg Hs. unfold framed; unfold queryFieldExists, bind, try_catch.
  destruct (negb (Js.truthy nameField) || negb (Js.truthy nameValue))%bool.
  - simpl. exact Hs.
  - simpl. split; [exact Hs | split; [apply Hg |]].
    intros [[| hit rest] | e] s' _ Hs'; simpl; exact Hs'.
Qed.

Lemma calculateDataFieldCompletenessScore_framed (status confidence : string)
    (nameField nameValue : string) (channelField channelValue : option string)
    (s : Fields) :
  (forall cl,
      G (search_logs cl LOGS_INDEX_PATTERN
           (mustClauses nameField nameValue channelField channelValue))) ->
  I s ->
  framed I R Ra G Q U (calculateDataFieldCompletenessScore status confidence nameField nameValue
            channelField channelValue s).
Proof.
  intros Hg Hs. unfold framed; unfold calculateDataFieldCompletenessScore, bind.
  destruct (String.eqb status "unmapped").
  - simpl. exact Hs.
  - eapply sat_bind; [apply queryFieldExists_framed; assumption |].
    simpl. auto.
Qed.

Lemma calculateScoresForLogSource_framed (logSourceRef : LogSourceReference)
    (platform : option string) (s : Fields) :
  (forall cl, G (search_logs cl LOGS_INDEX_PATTERN (probeClauses logSourceRef))) ->
  I s -> framed I R Ra G Q U (calculateScoresForLogSource Date_getTime logSourceRef platform s).
Proof.
  intros Hg Hs. unfold framed; unfold calculateScoresForLogSource, bind.
  eapply sat_bind;
    [apply calculateDataFieldCompletenessScore_framed; [exact Hg | exact Hs] |].
  intros c s1 Hs1. cbv beta.
  eapply sat_bind; [apply getDeviceCompletenessScoreForPlatform_framed; exact Hs1 |].
  intros d s2 Hs2. cbv beta.
  eapply sat_bind; [apply getRetentionScoreForPlatform_framed; exact Hs2 |].
  intros r s3 Hs3. cbv beta.
  eapply sat_bind; [apply calculateNextExecution_framed; exact Hs3 |].
  intros n s4 Hs4. simpl. exact Hs4.
Qed.

Hypothesis G_search_logs : forall cl index must, G (search_logs cl index must).

Lemma scoreReferences_framed (refs : list LogSourceReference)
    (platform : option string) (s : Fields) :
  I s -> framed I R Ra G Q U (scoreReferences Date_getTime refs platform s).
Proof.
  revert s. induction refs as [| ref rest IH]; intros s Hs.
  - simpl. exact Hs.
  - unfold framed. simpl. unfold bind.
    eapply sat_bind;
      [apply calculateScoresForLogSource_framed; [intro; apply G_search_logs | exact Hs] |].
    intros sc s1 Hs1. cbv beta.
    eapply sat_bind; [apply IH; exact Hs1 |].
    intros more s2 Hs2. simpl. exact Hs2.
Qed.

Lemma processAnalytic_framed (analytic : AnalyticDocument) (platform : option string)
    (s : Fields) :
  (x_mitre_log_source_references analytic = None -> forall e, Q e s) ->
  I s ->
  sat I R Ra G (fun p s' => scored_id p = id analytic /\ I s') Q U
      (processAnalytic Date_getTime analytic platform s).
Proof.
  intros Hq Hs. unfold processAnalytic.
  destruct (x_mitre_log_source_references analytic) as [refs |].
  - unfold bind. eapply sat_bind; [apply scoreReferences_framed; exact Hs |].
    intros l s1 Hs1. simpl. split; [reflexivity | exact Hs1].
  - simpl. apply Hq. reflexivity.
Qed.

End Frame.

Lemma calculateNextExecution_throws (I : Fields -> Prop)
    (R : forall X : Type, Request X -> Result X -> Prop)
    (Ra : forall X : Type, Sync X -> X -> Prop)
    (G : forall X : Type, Request X -> Prop)
    (Q : Error -> Fields -> Prop) (U : Fields -> Prop) (s : Fields) :
  (forall e, Q e s) -> I s -> framed I R Ra G Q U (calculateNextExecution s).
Proof.
  intros Hq Hs. unfold framed, calculateNextExecution, bind. sat_steps.
Qed.

(* ================================================================== *)
(** ** Framing the passes *)

Section Hits.

Variable Date_getTime : string -> num.
Variable I : Fields -> Prop.
Variable R : forall X : Type, Request X -> Result X -> Prop.
Variable Ra : forall X : Type, Sync X -> X -> Prop.
Variable G : forall X : Type, Request X -> Prop.
Variable U : Fields -> Prop.

Hypothesis I_retentionScoresCache :
  forall o s, I s -> I (set_retentionScoresCache o s).
Hypothesis I_retentionScoresCacheTimestamp :
  forall t s, I s -> I (set_retentionScoresCacheTimestamp t s).
Hypothesis I_deviceCompletenessCache :
  forall o s, I s -> I (set_deviceCompletenessCache o s).
Hypothesis I_deviceCompletenessCacheTimestamp :
  forall t s, I s -> I (set_deviceCompletenessCacheTimestamp t s).
Hypothesis G_indices_exists : forall cl index, G (indices_exists cl index).
Hypothesis G_get_scores : forall cl index id, G (get_scores cl index id).
Hypothesis G_search_logs : forall cl index must, G (search_logs cl index must).
Hypothesis G_index_doc : forall cl index id doc, G (index_doc cl index id doc).

(** Recomputing an analytic, whether it returns or throws. *)
Lemma processAnalytic_ends (analytic : AnalyticDocument) (platform : option string)
    (s : Fields) :
  I s ->
  sat I R Ra G (fun p s' => scored_id p = id analytic /\ I s') (fun _ s' => I s') U
      (processAnalytic Date_getTime analytic platform s).
Proof.
  intros Hs. apply processAnalytic_framed; auto.
  intros s0 Hs0. apply calculateNextExecution_throws; auto.
Qed.

(** The turns of the loops of the two passes return. *)
Lemma processHit_framed (Q : Error -> Fields -> Prop)
    (hit : option AnalyticDocument) (s : Fields) :
  I s -> framed I R Ra G Q U (processHit Date_getTime hit s).
Proof.
  intros Hs. unfold framed, processHit.
  destruct hit as [analytic |]; [| exact Hs].
  destruct (x_mitre_log_source_references analytic) as [[| ref rest] |] eqn:Hrefs;
    try exact Hs.
  unfold try_catch, bind.
  eapply sat_catch with (Q1 := fun _ s' => I s').
  - eapply sat_bind; [apply processAnalytic_ends; exact Hs |].
    intros p s1 [_ Hs1]. sat_steps.
  - intros e s1 Hs1. exact Hs1.
Qed.

Lemma recalculate_framed (Q : Error -> Fields -> Prop)
    (analytic : AnalyticDocumentWithScores) (s : Fields) :
  I s -> framed I R Ra G Q U (recalculate Date_getTime analytic s).
Proof.
  intros Hs. unfold framed, recalculate, try_catch, bind.
  eapply sat_catch with (Q1 := fun _ s' => I s'); [| intros e s1 Hs1; exact Hs1].
  unfold withoutScores.
  destruct (scored_references analytic) as [refs |]; [| exact Hs].
  simpl.
  eapply sat_bind; [apply processAnalytic_ends; exact Hs |].
  intros p s1 [_ Hs1]. sat_steps.
Qed.

Lemma processHits_framed (Q : Error -> Fields -> Prop)
    (hits : list (option AnalyticDocument)) (s : Fields) :
  I s -> framed I R Ra G Q U (for_of hits (processHit Date_getTime) s).
Proof.
  intros Hs. apply sat_for_of with (J := I); [| exact Hs].
  intros x s0 _ Hs0. apply processHit_framed. exact Hs0.
Qed.

End Hits.

Section Passes.

Variable Date_getTime : string -> num.
Variable I : Fields -> Prop.

Hypothesis I_retentionScoresCache :
  forall o s, I s -> I (set_retentionScoresCache o s).
Hypothesis I_retentionScoresCacheTimestamp :
  forall t s, I s -> I (set_retentionScoresCacheTimestamp t s).
Hypothesis I_deviceCompletenessCache :
  forall o s, I s -> I (set_deviceCompletenessCache o s).
Hypothesis I_deviceCompletenessCacheTimestamp :
  forall t s, I s -> I (set_deviceCompletenessCacheTimestamp t s).
Hypothesis I_logsClient : forall c s, I s -> I (set_logsClient c s).

Lemma scrollLoop_stable (fuel : nat) :
  forall hits scrollId s,
    I s -> stable I (scrollLoop Date_getTime fuel hits scrollId s).
Proof.
  induction fuel as [| fuel IH]; intros hits scrollId s Hs;
    destruct hits as [| hit rest]; try exact Hs.
  unfold stable, framed. cbn [scrollLoop]. unfold bind.
  eapply sat_bind with (P1 := fun _ s' => I s').
  - apply processHits_framed; auto; intros; exact Logic.I.
  - intros ? s1 Hs1. cbv beta.
    destruct (Js.truthy_opt scrollId); [| exact Hs1].
    simpl. split; [exact Hs1 | split; [exact Logic.I |]].
    intros [page | e] s2 _ Hs2; simpl; [| exact Hs2].
    apply IH. exact Hs2.
Qed.

Lemma processAllAnalytics_stable (fuel : nat) (s : Fields) :
  I s -> stable I (processAllAnalytics Date_getTime fuel s).
Proof.
  intros Hs. unfold stable, framed; unfold processAllAnalytics, try_catch, bind.
  eapply sat_catch with (Q1 := fun _ s' => I s'); [| intros e s1 Hs1; exact Hs1].
  simpl. split; [exact Hs | split; [exact Logic.I |]].
  intros [indexExists | e] s1 _ Hs1; simpl; [| exact Hs1].
  destruct indexExists; simpl; [| exact Hs1].
  split; [exact Hs1 | split; [exact Logic.I |]].
  intros [page | e] s2 _ Hs2; simpl; [| exact Hs2].
  eapply sat_bind; [apply scrollLoop_stable; exact Hs2 |].
  intros scrollId s3 Hs3. cbv beta.
  destruct (Js.truthy_opt scrollId); sat_steps; try exact Logic.I.
Qed.

Lemma getAnalyticsNeedingRecalculation_stable (s : Fields) :
  I s -> stable I (getAnalyticsNeedingRecalculation s).
Proof.
  intros Hs. unfold stable, framed; unfold getAnalyticsNeedingRecalculation, try_catch, bind.
  sat_steps; try exact Logic.I.
Qed.

Arguments processAllAnalytics : simpl never.
Arguments getAnalyticsNeedingRecalculation : simpl never.
Arguments for_of : simpl never.

Lemma smartBody_stable (fuel : nat) (logsClient : Client) (s : Fields) :
  I s -> stable I (smartBody Date_getTime fuel logsClient s).
Proof.
  intros Hs. unfold stable, framed; unfold smartBody, setLogsClient, bind. cbn.
  split; [auto | split; [exact Logic.I |]].
  intros [resultsIndexExists | e] s1 _ Hs1; cbn; [| exact Hs1].
  destruct resultsIndexExists; cbn.
  - split; [exact Hs1 | split; [exact Logic.I |]].
    intros [countResult | e] s2 _ Hs2; cbn; [| exact Hs2].
    destruct (countResult =? 0).
    + eapply sat_bind; [apply processAllAnalytics_stable; exact Hs2 |].
      intros ? s3 Hs3. exact Hs3.
    + eapply sat_bind; [apply getAnalyticsNeedingRecalculation_stable; exact Hs2 |].
      intros due s3 Hs3. cbv beta.
      destruct (Nat.eqb (List.length due) 0); [exact Hs3 |].
      eapply sat_bind with (P1 := fun _ s' => I s').
      * apply sat_for_of with (J := I); [| exact Hs3].
        intros x s0 _ Hs0.
        apply recalculate_framed; auto; intros; exact Logic.I.
      * intros ? s4 Hs4. sat_steps; try exact Logic.I.
  - eapply sat_bind; [apply processAllAnalytics_stable; exact Hs1 |].
    intros ? s3 Hs3. exact Hs3.
Qed.

End Passes.

(* ================================================================== *)
(** ** The exclusive-run flag *)

Lemma guarded_pass (A : Type) (body : Task A) (fin : Fields -> Fields) (s : Fields) :
  (forall s', isRunning (fin s') = false) ->
  sat running any_reply any_answer any_call
      (fun _ s' => running s') (fun _ s' => running s') running
      (body (set_isRunning true s)) ->
  in_flight (finallyR (body (set_isRunning true s)) fin).
Proof.
  intros Hfin Hbody. unfold in_flight.
  eapply sat_finally; [exact Hbody | |]; intros; apply Hfin.
Qed.

(** C4. While a pass is in flight the exclusive-run flag is up, and a
    pass triggered while the flag is up returns at once, without a
    single store call and without touching the fields: [undefined]
    for the full passes, [{action: 'none', count: 0}] for the smart
    pass.  A pass that got hold of the flag clears it when it ends,
    whether it returns or throws. *)
Theorem exclusive_pass (Date_getTime : string -> num) (fuel : nat)
    (logsClient : Client) (s : Fields) :
  (isRunning s = true ->
   runFullCalculation Date_getTime fuel s = Done tt s /\
   runFullCalculationWithClient Date_getTime fuel logsClient s = Done tt s /\
   runSmartScoringWithClient Date_getTime fuel logsClient s
     = Done {| action := none; count := 0 |} s) /\
  (isRunning s = false ->
   in_flight (runFullCalculation Date_getTime fuel s) /\
   in_flight (runFullCalculationWithClient Date_getTime fuel logsClient s) /\
   in_flight (runSmartScoringWithClient Date_getTime fuel logsClient s)).
Proof.
  split; intros Hs.
  - unfold runFullCalculation, runFullCalculationWithClient,
      runSmartScoringWithClient, bind, this.
    cbn [bindR]. rewrite Hs. repeat split.
  - assert (Hup : running (set_isRunning true s)) by reflexivity.
    unfold runFullCalculation, runFullCalculationWithClient,
      runSmartScoringWithClient, bind, this, try_finally, try_catch.
    cbn [bindR]. rewrite Hs. cbn [bindR assign].
    split; [| split].
    + apply guarded_pass
        with (body := fun s0 =>
                        catchR (processAllAnalytics Date_getTime fuel s0)
                               (fun _ => ret tt));
        [reflexivity |].
      eapply sat_catch with (Q1 := fun _ s' => running s').
      * apply processAllAnalytics_stable; auto; intros; assumption.
      * intros e s1 Hs1. exact Hs1.
    + apply guarded_pass
        with (body := fun s0 =>
                        catchR (bindR (setLogsClient logsClient s0)
                                  (fun _ => processAllAnalytics Date_getTime fuel))
                               (fun _ => ret tt));
        [reflexivity |].
      eapply sat_catch with (Q1 := fun _ s' => running s').
      * cbn [setLogsClient assign bindR].
        apply processAllAnalytics_stable; auto; intros; assumption.
      * intros e s1 Hs1. exact Hs1.
    + apply guarded_pass
        with (body := fun s0 =>
                        catchR (smartBody Date_getTime fuel logsClient s0)
                               (fun error => throw error));
        [reflexivity |].
      eapply sat_catch with (Q1 := fun _ s' => running s').
      * apply smartBody_stable; auto; intros; assumption.
      * intros e s1 Hs1. exact Hs1.
Qed.

Lemma exclusive_pass_witness :
  isRunning (set_isRunning true fresh_runner) = true /\
  isRunning fresh_runner = false /\
  runSmartScoringWithClient no_date 3 (asCurrentUser "analyst")
      (set_isRunning true fresh_runner)
    = Done {| action := none; count := 0 |} (set_isRunning true fresh_runner) /\
  in_flight (runSmartScoringWithClient no_date 3 (asCurrentUser "analyst")
               fresh_runner).
Proof.
  split; [reflexivity |]. split; [reflexivity |]. split.
  - destruct (exclusive_pass no_date 3 (asCurrentUser "analyst")
                (set_isRunning true fresh_runner)) as [Hbusy _].
    destruct (Hbusy eq_refl) as (_ & _ & Hsmart). exact Hsmart.
  - destruct (exclusive_pass no_date 3 (asCurrentUser "analyst") fresh_runner)
      as [_ Hidle].
    destruct (Hidle eq_refl) as (_ & _ & Hsmart). exact Hsmart.
Defined.

(* ================================================================== *)
(** ** The next execution *)

Lemma jitter_bounds (u : Q) :
  (0 <= u)%Q -> (u < 1)%Q ->
  60 <= Qfloor (u * inject_Z (360 - 60 + 1)) + 60 <= 360.
Proof.
  intros H0 H1.
  assert (Hlo : (0 <= u * inject_Z (360 - 60 + 1))%Q).
  { apply Qmult_le_0_compat; [exact H0 | discriminate]. }
  assert (Hhi : (u * inject_Z (360 - 60 + 1) < inject_Z 301)%Q).
  { change (inject_Z (360 - 60 + 1)) with (inject_Z 301).
    setoid_replace (inject_Z 301) with (1 * inject_Z 301)%Q at 2 by ring.
    apply Qmult_lt_compat_r; [reflexivity | exact H1]. }
  apply Qfloor_resp_le in Hlo. change (Qfloor 0%Q) with 0%Z in Hlo.
  assert (Hfl : (inject_Z (Qfloor (u * inject_Z (360 - 60 + 1))) < inject_Z 301)%Q).
  { eapply Qle_lt_trans; [apply Qfloor_le | exact Hhi]. }
  rewrite <- Zlt_Qlt in Hfl. lia.
Qed.

(** C8. A next execution that [calculateNextExecution] computes from
    a draw [u] in [0, 1) and the clock reading [now] lies between
    [refreshDelayMs + 60 s] and [refreshDelayMs + 360 s] after [now],
    hence strictly after [now] for a refresh delay that is not
    negative; it is computed unless that instant is beyond the range
    of [Date]; and the refresh delay of a runner built without one is
    seven days. *)
Theorem next_execution_window (w : World) (h : Trace) (s : Fields) :
  let u := answer w h Math_random in
  let now := answer w (asked Math_random u :: h) Date_now in
  (0 <= u)%Q -> (u < 1)%Q -> 0 <= refreshDelayMs s ->
  match final (run w (calculateNextExecution s) h) with
  | returned next =>
      now < next /\
      refreshDelayMs s + 60 * 1000 <= next - now <= refreshDelayMs s + 360 * 1000
  | thrown _ => MAX_TIME < Z.abs now + refreshDelayMs s + 360 * 1000
  | unfinished => False
  end /\
  forall esClient,
    refreshDelayMs (new_DataQualityTaskRunner esClient None)
      = 7 * 24 * 60 * 60 * 1000.
Proof.
  intros u now Hu0 Hu1 Hr. split; [| reflexivity].
  pose proof (jitter_bounds Hu0 Hu1) as Hj.
  unfold calculateNextExecution, bind, ask, this. cbn [bindR run].
  fold u. fold now.
  set (j := Qfloor (u * inject_Z (360 - 60 + 1)) + 60) in *.
  destruct (Z.abs (now + refreshDelayMs s + j * 1000) <=? MAX_TIME) eqn:Hrange;
    cbn.
  - lia.
  - apply Z.leb_gt in Hrange. lia.
Qed.

Lemma next_execution_window_witness :
  let w := store_world found_store in
  let u := answer w [] Math_random in
  let now := answer w [asked Math_random u] Date_now in
  (0 <= u)%Q /\ (u < 1)%Q /\ 0 <= refreshDelayMs fresh_runner /\
  match final (run w (calculateNextExecution fresh_runner) []) with
  | returned next =>
      now < next /\
      refreshDelayMs fresh_runner + 60 * 1000 <= next - now
        <= refreshDelayMs fresh_runner + 360 * 1000
  | thrown _ => MAX_TIME < Z.abs now + refreshDelayMs fresh_runner + 360 * 1000
  | unfinished => False
  end.
Proof.
  assert (H0 : (0 <= answer (store_world found_store) [] Math_random)%Q)
    by (vm_compute; discriminate).
  assert (H1 : (answer (store_world found_store) [] Math_random < 1)%Q)
    by reflexivity.
  assert (Hr : 0 <= refreshDelayMs fresh_runner) by (vm_compute; discriminate).
  split; [exact H0 |]. split; [exact H1 |]. split; [exact Hr |].
  exact (proj1 (next_execution_window (store_world found_store) [] fresh_runner
                  H0 H1 Hr)).
Defined.

(* ================================================================== *)
(** ** The channel clause of the probe *)

Lemma truthy_true (s : string) : Js.truthy s = true <-> s <> "".
Proof.
  unfold Js.truthy. rewrite negb_true_iff. split.
  - intros H E. subst s. discriminate.
  - intros H. apply String.eqb_neq. exact H.
Qed.

Lemma probeClauses_channel (logSourceRef : LogSourceReference) :
  let m := mapping logSourceRef in
  hd_error (probeClauses logSourceRef)
    = Some (term (name_field (ecs m)) (name_value (ecs m))) /\
  (has_channel_clause (probeClauses logSourceRef) = true <->
   status m = "complete" /\ channel_field (ecs m) <> "" /\ channel_value (ecs m) <> "") /\
  (has_channel_clause (probeClauses logSourceRef) = false ->
   probeClauses logSourceRef = [term (name_field (ecs m)) (name_value (ecs m))]).
Proof.
  intros m. unfold probeClauses, mustClauses. fold m.
  split; [reflexivity |].
  destruct (String.eqb (status m) "complete") eqn:Hst.
  - apply String.eqb_eq in Hst. cbn [Js.truthy_opt the].
    destruct (Js.truthy (channel_field (ecs m))) eqn:Hcf;
      destruct (Js.truthy (channel_value (ecs m))) eqn:Hcv; cbn [andb].
    + apply truthy_true in Hcf. apply truthy_true in Hcv.
      destruct (Nat.eqb _ 1); cbn; split; try tauto; discriminate.
    + assert (channel_value (ecs m) = "").
      { destruct (String.eqb_spec (channel_value (ecs m)) ""); [assumption |].
        apply truthy_true in n. congruence. }
      cbn. split; [| reflexivity]. split; [discriminate | tauto].
    + assert (channel_field (ecs m) = "").
      { destruct (String.eqb_spec (channel_field (ecs m)) ""); [assumption |].
        apply truthy_true in n. congruence. }
      cbn. split; [| reflexivity]. split; [discriminate | tauto].
    + assert (channel_field (ecs m) = "").
      { destruct (String.eqb_spec (channel_field (ecs m)) ""); [assumption |].
        apply truthy_true in n. congruence. }
      cbn. split; [| reflexivity]. split; [discriminate | tauto].
  - apply String.eqb_neq in Hst. cbn. split; [| reflexivity].
    split; [discriminate | tauto].
Qed.

(** C9, as the claim states it, fails: a reference whose status is
    'complete' and whose channel field is empty is probed on the name
    field alone. *)
Lemma channel_iff_complete_fails :
  ~ channel_iff_complete no_date reference_without_channel.
Proof.
  intros H. specialize (H None fresh_runner).
  cbn in H. destruct H as (_ & Hprobe & _).
  destruct (Hprobe _ eq_refl) as [_ Hback].
  specialize (Hback eq_refl). discriminate.
Qed.

Lemma probeClauses_exact (logSourceRef : LogSourceReference) :
  let m := mapping logSourceRef in
  has_channel_clause (probeClauses logSourceRef) = true ->
  probeClauses logSourceRef
    = [term (name_field (ecs m)) (name_value (ecs m)); channelClause (ecs m)].
Proof.
  intros m. unfold probeClauses, mustClauses, channelClause. fold m.
  destruct (String.eqb (status m) "complete"); [| discriminate].
  cbn [Js.truthy_opt the].
  destruct (Js.truthy (channel_field (ecs m)) && Js.truthy (channel_value (ecs m)))%bool;
    [| discriminate].
  intros _.
  destruct (map trim (split "," (channel_value (ecs m)))) as [| v [| v' vs]];
    reflexivity.
Qed.

(** Scoring a reference that is unmapped, or whose name field or name
    value is empty, issues no probe. *)
Lemma not_probed (Date_getTime : string -> num) (logSourceRef : LogSourceReference) :
  let m := mapping logSourceRef in
  status m = "unmapped" \/ name_field (ecs m) = "" \/ name_value (ecs m) = "" ->
  probes Date_getTime logSourceRef (fun _ => False).
Proof.
  intros m Hskip platform s.
  assert (Hg1 : forall cl index must,
             probe_of (indices_exists cl index) = Some must -> False)
    by (intros; discriminate).
  assert (Hg2 : forall cl index id must,
             probe_of (get_scores cl index id) = Some must -> False)
    by (intros; discriminate).
  unfold calculateScoresForLogSource, bind. fold m.
  eapply sat_bind with (P1 := fun _ _ => True).
  - unfold calculateDataFieldCompletenessScore, bind.
    destruct (String.eqb (status m) "unmapped") eqn:Hst; [exact I |].
    apply String.eqb_neq in Hst.
    assert (Hempty : (negb (Js.truthy (name_field (ecs m)))
                      || negb (Js.truthy (name_value (ecs m))))%bool = true).
    { destruct Hskip as [H | [H | H]]; [contradiction | |]; rewrite H;
        [reflexivity | apply orb_true_r]. }
    unfold queryFieldExists. rewrite Hempty. exact I.
  - intros c s1 _. cbv beta.
    eapply sat_bind with (P1 := fun _ _ => True).
    { apply getDeviceCompletenessScoreForPlatform_framed
        with (I := fun _ => True); auto. }
    intros d s2 _. cbv beta.
    eapply sat_bind with (P1 := fun _ _ => True).
    { apply getRetentionScoreForPlatform_framed with (I := fun _ => True); auto. }
    intros r s3 _. cbv beta.
    eapply sat_bind with (P1 := fun _ _ => True).
    { apply calculateNextExecution_throws with (I := fun _ => True);
        intros; exact I. }
    intros next s4 _. exact I.
Qed.

(** C9, amended.  Every probe issued while a reference is scored has
    the name clause first.  It carries a second clause exactly when
    the status of the reference is 'complete' and its channel field
    and channel value are both non-empty, and then the probe is the
    name clause followed by the clause on the channel field and value
    and nothing else; any other reference is probed on the name
    clause alone.  A reference with a non-empty name field and value
    and a status other than 'unmapped' is probed, before anything
    else is asked of the stores; a reference whose status is
    'unmapped', or whose name field or name value is empty, is not
    probed at all. *)
Theorem channel_clause_rule (Date_getTime : string -> num)
    (logSourceRef : LogSourceReference) :
  let m := mapping logSourceRef in
  probes Date_getTime logSourceRef
    (fun must =>
       hd_error must = Some (term (name_field (ecs m)) (name_value (ecs m))) /\
       (has_channel_clause must = true <->
        status m = "complete" /\
        channel_field (ecs m) <> "" /\ channel_value (ecs m) <> "") /\
       (has_channel_clause must = false ->
        must = [term (name_field (ecs m)) (name_value (ecs m))]) /\
       (has_channel_clause must = true ->
        must = [term (name_field (ecs m)) (name_value (ecs m));
                channelClause (ecs m)])) /\
  (status m <> "unmapped" -> name_field (ecs m) <> "" -> name_value (ecs m) <> "" ->
   forall platform s,
   exists k,
     calculateScoresForLogSource Date_getTime logSourceRef platform s
       = Await s (search_logs (logsClient s) LOGS_INDEX_PATTERN
                    (probeClauses logSourceRef)) k) /\
  (status m = "unmapped" \/ name_field (ecs m) = "" \/ name_value (ecs m) = "" ->
   probes Date_getTime logSourceRef (fun _ => False)).
Proof.
  intros m. split; [| split].
  - intros platform s.
    apply calculateScoresForLogSource_framed; try (intros; exact Logic.I).
    + intros cl index must Hmust. discriminate.
    + intros cl index id must Hmust. discriminate.
    + intros s0 Hs0. apply calculateNextExecution_throws; intros; exact Logic.I.
    + intros cl must Hmust. injection Hmust as <-.
      destruct (probeClauses_channel logSourceRef) as (Hhead & Hiff & Halone).
      split; [exact Hhead |]. split; [exact Hiff |]. split; [exact Halone |].
      apply probeClauses_exact.
  - intros Hst Hnf Hnv platform s.
    unfold calculateScoresForLogSource, calculateDataFieldCompletenessScore,
      queryFieldExists, bind, try_catch.
    fold m.
    apply String.eqb_neq in Hst. rewrite Hst.
    apply truthy_true in Hnf. apply truthy_true in Hnv. rewrite Hnf, Hnv.
    cbn. eexists. reflexivity.
  - apply not_probed.
Qed.

Lemma channel_clause_rule_witness :
  let m := mapping reference_inherited_status in
  status m <> "unmapped" /\ name_field (ecs m) <> "" /\ name_value (ecs m) <> "" /\
  (exists k,
      calculateScoresForLogSource no_date reference_inherited_status None fresh_runner
        = Await fresh_runner
            (search_logs (logsClient fresh_runner) LOGS_INDEX_PATTERN
               (probeClauses reference_inherited_status)) k) /\
  status (mapping reference_unmapped) = "unmapped" /\
  probes no_date reference_unmapped (fun _ => False).
Proof.
  assert (Hs : status (mapping reference_inherited_status) <> "unmapped")
    by discriminate.
  assert (Hf : name_field (ecs (mapping reference_inherited_status)) <> "")
    by discriminate.
  assert (Hv : name_value (ecs (mapping reference_inherited_status)) <> "")
    by discriminate.
  split; [exact Hs |]. split; [exact Hf |]. split; [exact Hv |].
  split.
  - exact (proj1 (proj2 (channel_clause_rule no_date reference_inherited_status))
                 Hs Hf Hv None fresh_runner).
  - split; [reflexivity |].
    exact (proj2 (proj2 (channel_clause_rule no_date reference_unmapped))
                 (or_introl eq_refl)).
Defined.

(* ================================================================== *)
(** ** The completeness score *)

Lemma own_statusMultipliers (status : string) :
  status <> "unmapped" -> Js.inherited status = false ->
  Js.nullish (Js.get statusMultipliers status) (dec 0 1)
    = Js.VNumber (Num (statusMultiplier status)).
Proof.
  intros Hu Hin. unfold Js.get, statusMultipliers, statusMultiplier. cbn [Js.own].
  rewrite (String.eqb_sym "complete"), (String.eqb_sym "partial"),
    (String.eqb_sym "unmapped").
  destruct (String.eqb status "complete"); [reflexivity |].
  destruct (String.eqb status "partial"); [reflexivity |].
  apply String.eqb_neq in Hu. rewrite Hu, Hin. reflexivity.
Qed.

Lemma own_confidenceMultipliers (confidence : string) :
  Js.inherited confidence = false ->
  Js.same (Js.ToNumber (Js.nullish (Js.get confidenceMultipliers confidence) (dec 0 1)))
          (Num (confidenceMultiplier confidence)).
Proof.
  intros Hin. unfold Js.get, confidenceMultipliers, confidenceMultiplier. cbn [Js.own].
  rewrite (String.eqb_sym "high"), (String.eqb_sym "medium"),
    (String.eqb_sym "low"), (String.eqb_sym "").
  destruct (String.eqb confidence "high"); [reflexivity |].
  destruct (String.eqb confidence "medium"); [reflexivity |].
  destruct (String.eqb confidence "low"); [reflexivity |].
  destruct (String.eqb confidence ""); [reflexivity |].
  rewrite Hin. reflexivity.
Qed.

(** [queryFieldExists] always returns. *)
Lemma queryFieldExists_returns (w : World) (h : Trace) (s : Fields)
    (nameField nameValue : string) (channelField channelValue : option string) :
  exists q,
    final (run w (queryFieldExists nameField nameValue channelField channelValue s) h)
      = returned q.
Proof.
  unfold queryFieldExists, bind, try_catch.
  destruct (negb (Js.truthy nameField) || negb (Js.truthy nameValue))%bool.
  - eexists. reflexivity.
  - cbn. destruct (respond w h _) as [[| hit rest] | e]; eexists; reflexivity.
Qed.

(** The rule of the specification, for a status and a confidence that
    are no property names of [Object.prototype]: the method returns,
    with 0 for 'unmapped', and otherwise with base x status multiplier
    x confidence multiplier rounded to 2 decimals, where the base is 5
    if the probe found a record and 0 if not. *)
Lemma completeness_rule (w : World) (h : Trace) (s : Fields)
    (status confidence nameField nameValue : string)
    (channelField channelValue : option string) :
  Js.inherited status = false -> Js.inherited confidence = false ->
  exists r,
    final (run w (calculateDataFieldCompletenessScore status confidence
                    nameField nameValue channelField channelValue s) h)
      = returned r /\
    (status = "unmapped" -> completeness_score r = Num 0) /\
    (status <> "unmapped" ->
     exists q,
       final (run w (queryFieldExists nameField nameValue channelField channelValue s) h)
         = returned q /\
       base_score (completeness_details r) = (if exists_ q then dec 5 1 else dec 0 1)) /\
    Js.same (completeness_score r)
      (Num (completenessRule status confidence
              (Js.gt (base_score (completeness_details r)) (dec 0 1)))).
Proof.
  intros Hst Hcf.
  unfold calculateDataFieldCompletenessScore, completenessRule.
  destruct (String.eqb status "unmapped") eqn:Hu.
  - apply String.eqb_eq in Hu. cbn. eexists. split; [reflexivity |].
    split; [reflexivity |]. split; [contradiction | reflexivity].
  - apply String.eqb_neq in Hu.
    unfold bind. rewrite run_bind. unfold continue.
    destruct (queryFieldExists_returns w h s nameField nameValue
                channelField channelValue) as [q Hq].
    rewrite Hq. cbn [run final ret].
    eexists. split; [reflexivity |]. split; [contradiction |].
    split; [intros _; exists q; split; reflexivity |].
    cbn [completeness_score completeness_details base_score].
    rewrite (own_statusMultipliers Hu Hst).
    pose proof (own_confidenceMultipliers confidence Hcf) as Hc.
    destruct (Js.ToNumber (Js.nullish (Js.get confidenceMultipliers confidence) (dec 0 1)))
      as [c |]; [| contradiction].
    change (c == confidenceMultiplier confidence)%Q in Hc.
    unfold rounded.
    destruct (exists_ q);
      cbn -[Qfloor Qmult Qplus Qdiv inject_Z Qeq statusMultiplier confidenceMultiplier];
      rewrite Hc; reflexivity.
Qed.

(** C1. On a reference whose status is 'constructor', a property name
    every plain object inherits from [Object.prototype], the
    completeness score is NaN whatever the confidence is and whatever
    the probe finds: [statusMultipliers[status]] is the inherited
    function, not [undefined], so that [?? 0] does not replace it.
    The method still returns and does not throw. *)
Theorem completeness_inherited_status (w : World) (h : Trace) (s : Fields)
    (confidence : string) :
  exists r,
    final (run w (calculateDataFieldCompletenessScore "constructor" confidence
                    "event.code" "4688" None None s) h) = returned r /\
    status_multiplier (completeness_details r) = Js.VObject /\
    completeness_score r = NaN /\
    ~ Js.same (completeness_score r) (Num 0).
Proof.
  unfold calculateDataFieldCompletenessScore, queryFieldExists, bind, try_catch.
  cbn.
  destruct (respond w h _) as [[| hit rest] | e]; cbn;
    eexists; (split; [reflexivity |]); (split; [reflexivity |]);
    (split; [reflexivity |]); intros H; exact H.
Qed.

(* ================================================================== *)
(** ** The five dimension scores and their mean *)

Lemma round_between (a b : Z) (x : Q) :
  (inject_Z a <= x)%Q -> (x <= inject_Z b)%Q ->
  a <= Qfloor (x + (1 # 2)) <= b.
Proof.
  intros Ha Hb. split.
  - rewrite <- (Qfloor_Z a). apply Qfloor_resp_le. lra.
  - assert (H : (inject_Z (Qfloor (x + (1 # 2))) < inject_Z (b + 1))%Q).
    { eapply Qle_lt_trans; [apply Qfloor_le |].
      rewrite inject_Z_plus. change (inject_Z 1) with 1%Q. lra. }
    rewrite <- Zlt_Qlt in H. lia.
Qed.

(** Rounding a number of [0, 5] to [1/d] keeps it in [0, 5]. *)
Lemma rounded_between (d : positive) (x : Q) :
  (0 <= x)%Q -> (x <= 5)%Q ->
  Js.between 0 5
    (Js.div (Js.Math_round (Js.mul (Num x) (dec (Zpos d) 1))) (dec (Zpos d) 1)).
Proof.
  intros H0 H5. unfold Js.div, Js.Math_round, Js.mul, Js.lift2, dec.
  assert (Hd : (0 < Zpos d # 1)%Q) by reflexivity.
  assert (Hne : Qeq_bool (Zpos d # 1) 0 = false).
  { destruct (Qeq_bool (Zpos d # 1) 0) eqn:E; [| reflexivity].
    apply Qeq_bool_eq in E. rewrite E in Hd. discriminate. }
  rewrite Hne. unfold Js.between.
  destruct (@round_between 0 (5 * Zpos d) (x * (Zpos d # 1))) as [Hlo Hhi].
  - change (inject_Z 0) with 0%Q. apply Qmult_le_0_compat; [exact H0 | discriminate].
  - rewrite inject_Z_mult. change (inject_Z 5) with 5%Q.
    change (inject_Z (Zpos d)) with (Zpos d # 1).
    apply Qmult_le_compat_r; [exact H5 | discriminate].
  - split.
    + apply Qle_shift_div_l; [exact Hd |].
      rewrite Qmult_0_l. change 0%Q with (inject_Z 0). rewrite <- Zle_Qle. exact Hlo.
    + apply Qle_shift_div_r; [exact Hd |].
      change (5 * (Zpos d # 1))%Q with (inject_Z 5 * inject_Z (Zpos d))%Q.
      rewrite <- inject_Z_mult, <- Zle_Qle. exact Hhi.
Qed.

Lemma statusMultiplier_between (status : string) :
  (0 <= statusMultiplier status /\ statusMultiplier status <= 1)%Q.
Proof.
  unfold statusMultiplier.
  destruct (String.eqb status "complete"); [split; discriminate |].
  destruct (String.eqb status "partial"); split; discriminate.
Qed.

Lemma confidenceMultiplier_between (confidence : string) :
  (0 <= confidenceMultiplier confidence /\ confidenceMultiplier confidence <= 1)%Q.
Proof.
  unfold confidenceMultiplier.
  destruct (String.eqb confidence "high"); [split; discriminate |].
  destruct (String.eqb confidence "medium"); [split; discriminate |].
  destruct (String.eqb confidence "low"); split; discriminate.
Qed.

Lemma product_between (b sm cm : Q) :
  (0 <= b)%Q -> (b <= 5)%Q -> (0 <= sm)%Q -> (sm <= 1)%Q ->
  (0 <= cm)%Q -> (cm <= 1)%Q ->
  (0 <= b * sm * cm /\ b * sm * cm <= 5)%Q.
Proof.
  intros Hb0 Hb5 Hs0 Hs1 Hc0 Hc1.
  assert (H1 : (0 <= b * sm)%Q) by (apply Qmult_le_0_compat; assumption).
  assert (H2 : (b * sm <= 5)%Q).
  { apply Qle_trans with (b * 1)%Q; [| lra].
    rewrite (Qmult_comm b sm), (Qmult_comm b 1).
    apply Qmult_le_compat_r; assumption. }
  split.
  - apply Qmult_le_0_compat; assumption.
  - apply Qle_trans with (b * sm * 1)%Q; [| lra].
    rewrite (Qmult_comm (b * sm) cm), (Qmult_comm (b * sm) 1).
    apply Qmult_le_compat_r; assumption.
Qed.

Lemma timeliness_between (Date_getTime : string -> num) (lastDoc : option LogDoc) :
  Js.between 0 5 (score (calculateTimelinessScore Date_getTime lastDoc)).
Proof.
  unfold calculateTimelinessScore.
  destruct lastDoc as [doc |]; [| split; discriminate].
  destruct (negb (Js.truthy_opt (event_ingested doc))); [split; discriminate |].
  destruct (negb (Js.truthy_opt (at_timestamp doc))); [split; discriminate |].
  cbv zeta.
  repeat match goal with
         | |- context [if ?b then _ else _] => destruct b
         end; split; discriminate.
Qed.

Lemma consistency_between (fieldExists : bool) :
  Js.between 0 5 (score (calculateConsistencyScore fieldExists)).
Proof. destruct fieldExists; split; discriminate. Qed.

Lemma device_in_range (fieldExists : bool) (configuredScore : Js.value) :
  in_range configuredScore ->
  in_range (score (calculateDeviceCompletenessScore fieldExists configuredScore)).
Proof.
  intros H. destruct configuredScore; try contradiction.
  unfold calculateDeviceCompletenessScore.
  destruct fieldExists; cbn; [exact H | split; discriminate].
Qed.

Lemma retention_in_range (fieldExists : bool) (configuredScore : Js.value) :
  in_range configuredScore ->
  in_range (score (calculateRetentionScore fieldExists configuredScore)).
Proof.
  intros H. destruct configuredScore; try contradiction.
  unfold calculateRetentionScore.
  destruct fieldExists; cbn; [exact H | split; discriminate].
Qed.

Lemma sum_scores_bounds (l : list Q) :
  Forall (fun x => (0 <= x /\ x <= 5)%Q) l ->
  forall acc,
    (acc <= fold_left Qplus l acc /\
     fold_left Qplus l acc <= acc + 5 * inject_Z (Z.of_nat (List.length l)))%Q.
Proof.
  induction 1 as [| x l [Hx0 Hx5] Hl IH]; intros acc.
  - cbn [fold_left List.length]. change (inject_Z (Z.of_nat 0)) with 0%Q.
    split; lra.
  - cbn [fold_left List.length]. destruct (IH (acc + x)%Q) as [Hlo Hhi].
    rewrite Nat2Z.inj_succ, <- Z.add_1_r, inject_Z_plus.
    change (inject_Z 1) with 1%Q. split; lra.
Qed.

Lemma averageScore_between (l : list Q) :
  l <> [] ->
  Forall (fun x => (0 <= x /\ x <= 5)%Q) l ->
  Js.between 0 5 (averageScore l).
Proof.
  intros Hne Hl. unfold averageScore, Js.of_Z.
  set (n := inject_Z (Z.of_nat (List.length l))).
  assert (Hn : (0 < n)%Q).
  { unfold n. change 0%Q with (inject_Z 0). rewrite <- Zlt_Qlt.
    destruct l; [contradiction | cbn [List.length]; lia]. }
  assert (Hq : Qeq_bool n 0 = false).
  { destruct (Qeq_bool n 0) eqn:E; [| reflexivity].
    apply Qeq_bool_eq in E. rewrite E in Hn. discriminate. }
  destruct (sum_scores_bounds Hl 0) as [Hlo Hhi]. fold n in Hhi.
  unfold Js.div at 2. rewrite Hq. unfold sum_scores.
  apply (@rounded_between 10).
  - apply Qle_shift_div_l; [exact Hn | lra].
  - apply Qle_shift_div_r; [exact Hn | lra].
Qed.

Lemma own_settings_ok (o : Js.object) (key : string) (v : Q) :
  settings_ok o -> Js.own o key = Some v -> (0 <= v /\ v <= 5)%Q.
Proof.
  induction 1 as [| [k x] rest Hx Hrest IH]; cbn; [discriminate |].
  destruct (String.eqb k key); [| exact IH].
  intros E. injection E as <-. exact Hx.
Qed.

(** The configured score of a platform, or the mean of the configured
    scores, is a number of [0, 5] when the configured scores are.
    [d] is the default. *)
Lemma configured_in_range (settings : Js.object) (platform : option string) (d : num) :
  settings_ok settings -> plain_key platform -> Js.between 0 5 d ->
  in_range
    (if Js.truthy_opt platform then Js.nullish (Js.get settings (the platform)) d
     else if Nat.eqb (List.length (Js.Object_values settings)) 0 then Js.VNumber d
          else Js.VNumber (averageScore (Js.Object_values settings))).
Proof.
  intros Hs Hp Hd.
  destruct (Js.truthy_opt platform) eqn:Ht.
  - destruct platform as [p |]; [| discriminate]. cbn [the].
    unfold Js.get. destruct (Js.own settings p) as [v |] eqn:Hown.
    + cbn. eapply own_settings_ok; eassumption.
    + change (Js.inherited p = false) in Hp. rewrite Hp. exact Hd.
  - destruct (Nat.eqb (List.length (Js.Object_values settings)) 0) eqn:Hlen;
      [exact Hd |].
    apply averageScore_between.
    + intros E. rewrite E in Hlen. discriminate.
    + unfold Js.Object_values. apply Forall_map. exact Hs.
Qed.

(** The aggregate of five numbers of [0, 5] is a number of [0, 5]. *)
Lemma qualityScore_between (c t k : Q) (d r : Js.value) :
  (0 <= c /\ c <= 5)%Q -> (0 <= t /\ t <= 5)%Q -> (0 <= k /\ k <= 5)%Q ->
  in_range d -> in_range r ->
  Js.between 0 5 (qualityScore (Num c) (Num t) (Num k) d r).
Proof.
  intros Hc Ht Hk Hd Hr.
  destruct d as [| [d |] | |]; try contradiction.
  destruct r as [| [r |] | |]; try contradiction.
  cbn in Hd, Hr. unfold qualityScore.
  cbn [Js.plus Js.ToNumber Js.add Js.lift2].
  unfold Js.div at 2. unfold dec at 1.
  change (Qeq_bool (5 # 1) 0) with false. cbv iota.
  apply (@rounded_between 10).
  - apply Qle_shift_div_l; [reflexivity | lra].
  - apply Qle_shift_div_r; [reflexivity | lra].
Qed.

Section Ranges.

Variable Date_getTime : string -> num.

Lemma caches_ok_retention (o : Js.object) (s : Fields) :
  settings_ok o -> caches_ok s -> caches_ok (set_retentionScoresCache o s).
Proof. intros Ho [_ Hd]. split; assumption. Qed.

Lemma caches_ok_device (o : Js.object) (s : Fields) :
  settings_ok o -> caches_ok s -> caches_ok (set_deviceCompletenessCache o s).
Proof. intros Ho [Hr _]. split; assumption. Qed.

Lemma fetchRetentionSettings_ok (s : Fields) :
  caches_ok s ->
  sat caches_ok settings_replies_ok any_answer any_call
      (fun o s' => settings_ok o /\ caches_ok s')
      (fun _ _ => False) (fun _ => False)
      (fetchRetentionSettings s).
Proof.
  intros Hs. unfold fetchRetentionSettings, bind, try_catch, ask, this, assign, ret.
  cbn. intros now _.
  destruct (now - retentionScoresCacheTimestamp s <? CACHE_TTL_MS).
  - cbn. split; [apply Hs | exact Hs].
  - cbn. split; [exact Hs | split; [exact Logic.I |]].
    intros [indexExists | e] s1 _ Hs1; cbn.
    + destruct indexExists; cbn.
      * split; [exact Hs1 | split; [exact Logic.I |]].
        intros [[o |] | e] s2 Ho Hs2; cbn; intros t _; cbn.
        -- split; [exact Ho |]. apply caches_ok_retention; assumption.
        -- split; [constructor |]. apply caches_ok_retention; [constructor | assumption].
        -- split; [constructor |]. apply caches_ok_retention; [constructor | assumption].
      * intros t _. cbn.
        split; [constructor |]. apply caches_ok_retention; [constructor | assumption].
    + intros t _. cbn.
      split; [constructor |]. apply caches_ok_retention; [constructor | assumption].
Qed.

Lemma fetchDeviceCompletenessSettings_ok (s : Fields) :
  caches_ok s ->
  sat caches_ok settings_replies_ok any_answer any_call
      (fun o s' => settings_ok o /\ caches_ok s')
      (fun _ _ => False) (fun _ => False)
      (fetchDeviceCompletenessSettings s).
Proof.
  intros Hs.
  unfold fetchDeviceCompletenessSettings, bind, try_catch, ask, this, assign, ret.
  cbn. intros now _.
  destruct (now - deviceCompletenessCacheTimestamp s <? CACHE_TTL_MS).
  - cbn. split; [apply Hs | exact Hs].
  - cbn. split; [exact Hs | split; [exact Logic.I |]].
    intros [indexExists | e] s1 _ Hs1; cbn.
    + destruct indexExists; cbn.
      * split; [exact Hs1 | split; [exact Logic.I |]].
        intros [[o |] | e] s2 Ho Hs2; cbn; intros t _; cbn.
        -- split; [exact Ho |]. apply caches_ok_device; assumption.
        -- split; [constructor |]. apply caches_ok_device; [constructor | assumption].
        -- split; [constructor |]. apply caches_ok_device; [constructor | assumption].
      * intros t _. cbn.
        split; [constructor |]. apply caches_ok_device; [constructor | assumption].
    + intros t _. cbn.
      split; [constructor |]. apply caches_ok_device; [constructor | assumption].
Qed.

Lemma getRetentionScoreForPlatform_ok (platform : option string) (s : Fields) :
  plain_key platform -> caches_ok s ->
  sat caches_ok settings_replies_ok any_answer any_call
      (fun v s' => in_range v /\ caches_ok s')
      (fun _ _ => False) (fun _ => False)
      (getRetentionScoreForPlatform platform s).
Proof.
  intros Hp Hs. unfold getRetentionScoreForPlatform, bind.
  eapply sat_bind; [apply fetchRetentionSettings_ok; exact Hs |].
  intros settings s1 [Hset Hs1]. cbv beta.
  pose proof (@configured_in_range settings platform DEFAULT_RETENTION_SCORE Hset Hp)
    as H.
  destruct (Js.truthy_opt platform); [| destruct (Nat.eqb _ 0)];
    cbn; (split; [apply H; split; discriminate | exact Hs1]).
Qed.

Lemma getDeviceCompletenessScoreForPlatform_ok (platform : option string)
    (s : Fields) :
  plain_key platform -> caches_ok s ->
  sat caches_ok settings_replies_ok any_answer any_call
      (fun v s' => in_range v /\ caches_ok s')
      (fun _ _ => False) (fun _ => False)
      (getDeviceCompletenessScoreForPlatform platform s).
Proof.
  intros Hp Hs. unfold getDeviceCompletenessScoreForPlatform, bind.
  eapply sat_bind; [apply fetchDeviceCompletenessSettings_ok; exact Hs |].
  intros settings s1 [Hset Hs1]. cbv beta.
  pose proof (@configured_in_range settings platform
                DEFAULT_DEVICE_COMPLETENESS_SCORE Hset Hp) as H.
  destruct (Js.truthy_opt platform); [| destruct (Nat.eqb _ 0)];
    cbn; (split; [apply H; split; discriminate | exact Hs1]).
Qed.

Lemma completeness_between (status confidence nameField nameValue : string)
    (channelField channelValue : option string) (s : Fields) :
  Js.inherited status = false -> Js.inherited confidence = false ->
  caches_ok s ->
  sat caches_ok settings_replies_ok any_answer any_call
      (fun r s' => Js.between 0 5 (completeness_score r) /\ caches_ok s')
      (fun _ _ => False) (fun _ => False)
      (calculateDataFieldCompletenessScore status confidence nameField nameValue
         channelField channelValue s).
Proof.
  intros Hst Hcf Hs. unfold calculateDataFieldCompletenessScore.
  destruct (String.eqb status "unmapped") eqn:Hu.
  - cbn. split; [split; discriminate | exact Hs].
  - apply String.eqb_neq in Hu.
    rewrite (own_statusMultipliers Hu Hst).
    pose proof (own_confidenceMultipliers confidence Hcf) as Hc.
    destruct (Js.ToNumber (Js.nullish (Js.get confidenceMultipliers confidence) (dec 0 1)))
      as [c |]; [| contradiction].
    change (c == confidenceMultiplier confidence)%Q in Hc.
    pose proof (statusMultiplier_between status) as [Hm0 Hm1].
    pose proof (confidenceMultiplier_between confidence) as [Hc0 Hc1].
    rewrite <- Hc in Hc0, Hc1.
    assert (Hscore : forall b : Q, (0 <= b)%Q -> (b <= 5)%Q ->
              Js.between 0 5
                (Js.div
                   (Js.Math_round
                      (Js.mul
                         (Js.mul (Js.mul (Num b)
                                    (Js.ToNumber (Js.VNumber (Num (statusMultiplier status)))))
                                 (Num c))
                         (dec 100 1)))
                   (dec 100 1))).
    { intros b Hb0 Hb5. cbn [Js.ToNumber Js.mul Js.lift2].
      apply (@rounded_between 100); apply product_between; assumption. }
    unfold queryFieldExists, bind, try_catch.
    destruct (negb (Js.truthy nameField) || negb (Js.truthy nameValue))%bool.
    + cbn [bindR ret sat completeness_score exists_].
      split; [apply (Hscore (0 # 1)); discriminate | exact Hs].
    + cbn [bindR catchR this await sat].
      split; [exact Hs | split; [exact Logic.I |]].
      intros [[| hit rest] | e] s1 _ Hs1;
        cbn [bindR catchR ret sat completeness_score exists_];
        (split; [| exact Hs1]);
        [apply (Hscore (0 # 1)) | apply (Hscore (5 # 1)) | apply (Hscore (0 # 1))];
        discriminate.
Qed.

(** For a status and a confidence that are no property names of
    [Object.prototype], a platform that is none either, and
    configured scores between 0 and 5, in the caches and in the
    settings documents: each of the five dimension scores of a scored
    reference is a number between 0 and 5, and so is the quality
    score, which is their mean rounded to one decimal. *)
Lemma scores_in_range (logSourceRef : LogSourceReference) (platform : option string)
    (s : Fields) :
  Js.inherited (status (mapping logSourceRef)) = false ->
  Js.inherited (confidence (mapping logSourceRef)) = false ->
  plain_key platform -> caches_ok s ->
  sat caches_ok settings_replies_ok any_answer any_call
      (fun sc s' => scores_ok sc /\ caches_ok s')
      (fun _ s' => caches_ok s') (fun _ => False)
      (calculateScoresForLogSource Date_getTime logSourceRef platform s).
Proof.
  intros Hst Hcf Hp Hs. unfold calculateScoresForLogSource, bind.
  eapply sat_bind
    with (P1 := fun r s' => Js.between 0 5 (completeness_score r) /\ caches_ok s').
  { eapply sat_mono; [| | | apply completeness_between; eassumption];
      cbv beta; intros; try contradiction; assumption. }
  intros c s1 [Hc Hs1]. cbv beta.
  eapply sat_bind with (P1 := fun v s' => in_range v /\ caches_ok s').
  { eapply sat_mono;
      [| | | apply getDeviceCompletenessScoreForPlatform_ok; eassumption];
      cbv beta; intros; try contradiction; assumption. }
  intros d s2 [Hd Hs2]. cbv beta.
  eapply sat_bind with (P1 := fun v s' => in_range v /\ caches_ok s').
  { eapply sat_mono;
      [| | | apply getRetentionScoreForPlatform_ok; eassumption];
      cbv beta; intros; try contradiction; assumption. }
  intros r s3 [Hr Hs3]. cbv beta.
  eapply sat_bind with (P1 := fun _ s' => caches_ok s').
  { apply calculateNextExecution_throws; auto. }
  intros next s4 Hs4. cbn [ret sat].
  split; [| exact Hs4].
  set (fieldExists := Js.gt (base_score (completeness_details c)) (dec 0 1)).
  pose proof (timeliness_between Date_getTime (completeness_lastDoc c)) as Ht.
  pose proof (consistency_between fieldExists) as Hk.
  pose proof (@device_in_range fieldExists d Hd) as Hd'.
  pose proof (@retention_in_range fieldExists r Hr) as Hr'.
  unfold scores_ok, roundedMean.
  cbn [data_field_completeness timeliness consistency device_completeness
       retention quality_score score].
  repeat (split; [assumption |]).
  destruct (completeness_score c) as [cq |]; [| contradiction].
  destruct (score (calculateTimelinessScore Date_getTime (completeness_lastDoc c)))
    as [tq |]; [| contradiction].
  destruct (score (calculateConsistencyScore fieldExists)) as [kq |];
    [| contradiction].
  split; [| apply qualityScore_between; assumption].
  destruct (score (calculateDeviceCompletenessScore fieldExists d));
    try contradiction.
  destruct (score (calculateRetentionScore fieldExists r)); try contradiction.
  reflexivity.
Qed.

End Ranges.

(** C2. The scores of a reference whose status is 'constructor', in a
    log store where the probe finds a record: the completeness score
    and the quality score are NaN, which is no number of [0, 5]; the
    other four dimension scores are.  The NaN is the one of the
    completeness score on an inherited property name. *)
Theorem scores_inherited_status :
  match final (run (store_world found_store)
                 (calculateScoresForLogSource no_date reference_inherited_status
                    None fresh_runner) [])
  with
  | returned sc =>
      score (data_field_completeness sc) = NaN /\
      quality_score sc = NaN /\
      ~ Js.between 0 5 (score (data_field_completeness sc)) /\
      ~ Js.between 0 5 (quality_score sc) /\
      Js.between 0 5 (score (timeliness sc)) /\
      Js.between 0 5 (score (consistency sc)) /\
      in_range (score (device_completeness sc)) /\
      in_range (score (retention sc))
  | _ => False
  end.
Proof.
  vm_compute. repeat split; try discriminate; intros H; exact H.
Qed.

(* ================================================================== *)
(** ** The extraction of the bundle *)

Lemma extractAttackPatterns_sound (objects : list StixObject.t)
    (pattern : StixAttackPattern.t) :
  In pattern (extractAttackPatterns objects) ->
  exists obj,
    In obj objects /\
    StixObject.type obj = "attack-pattern" /\
    StixObject.id obj = StixAttackPattern.id pattern /\
    ~ excluded obj.
Proof.
  unfold extractAttackPatterns. rewrite in_flat_map.
  intros (obj & Hobj & Hin). exists obj. split; [exact Hobj |].
  destruct (StixObject.external_references obj) as [refs |] eqn:Hrefs;
    [| contradiction].
  destruct (String.eqb_spec (StixObject.type obj) "attack-pattern") as [Ht | Ht];
    [| contradiction].
  destruct (flag (StixObject.x_mitre_deprecated obj)) eqn:Hd; [contradiction |].
  destruct (flag (StixObject.revoked obj)) eqn:Hr; [contradiction |].
  destruct (Js.truthy_opt (StixObject.name obj)) eqn:Hn; [| contradiction].
  cbn in Hin. destruct Hin as [<- | []].
  split; [exact Ht |]. split; [reflexivity |].
  unfold excluded. rewrite Hd, Hr, Hn, Hrefs.
  intros [H | [H | [H | H]]]; discriminate.
Qed.

Lemma In_JsMap_set (V : Type) (m : JsMap.t V) (key : string) (v : V)
    (entry : string * V) :
  In entry (JsMap.set m key v) -> In entry m \/ snd entry = v.
Proof.
  induction m as [| [k w] rest IH]; cbn.
  - intros [<- | []]. right. reflexivity.
  - destruct (String.eqb k key); cbn.
    + intros [<- | H]; [right; reflexivity | left; right; exact H].
    + intros [<- | H]; [left; left; reflexivity |].
      destruct (IH H) as [H' | H']; [left; right; exact H' | right; exact H'].
Qed.

Lemma extractDetectionStrategies_sound (objects : list StixObject.t)
    (strategy : StixDetectionStrategy.t) :
  In strategy (JsMap.values (extractDetectionStrategies objects)) ->
  exists obj,
    In obj objects /\
    StixObject.id obj = StixDetectionStrategy.id strategy /\
    kept "x-mitre-detection-strategy" obj.
Proof.
  unfold extractDetectionStrategies, JsMap.values.
  assert (H : forall (l : list StixObject.t) acc,
             (forall obj, In obj l -> In obj objects) ->
             (forall entry, In entry acc ->
                exists obj, In obj objects /\
                  StixObject.id obj = StixDetectionStrategy.id (snd entry) /\
                  kept "x-mitre-detection-strategy" obj) ->
             forall entry,
               In entry
                 (fold_left
                    (fun strategies obj =>
                       match StixObject.external_references obj with
                       | Some refs =>
                           if (String.eqb (StixObject.type obj)
                                 "x-mitre-detection-strategy"
                               && negb (flag (StixObject.x_mitre_deprecated obj))
                               && Js.truthy_opt (StixObject.name obj))%bool
                           then
                             JsMap.set strategies (StixObject.id obj)
                               {| StixDetectionStrategy.id := StixObject.id obj;
                                  StixDetectionStrategy.name := the (StixObject.name obj);
                                  StixDetectionStrategy.external_references := refs;
                                  StixDetectionStrategy.x_mitre_analytic_refs :=
                                    StixObject.x_mitre_analytic_refs obj;
                                  StixDetectionStrategy.x_mitre_deprecated :=
                                    StixObject.x_mitre_deprecated obj |}
                           else strategies
                       | None => strategies
                       end) l acc) ->
               exists obj, In obj objects /\
                 StixObject.id obj = StixDetectionStrategy.id (snd entry) /\
                 kept "x-mitre-detection-strategy" obj).
  { induction l as [| obj rest IH]; intros acc Hl Hacc entry; cbn [fold_left].
    - apply Hacc.
    - apply IH; [intros o Ho; apply Hl; right; exact Ho |].
      intros e He.
      destruct (StixObject.external_references obj) as [refs |] eqn:Hrefs;
        [| apply Hacc; exact He].
      destruct (String.eqb_spec (StixObject.type obj) "x-mitre-detection-strategy")
        as [Ht | Ht]; [| apply Hacc; exact He].
      destruct (flag (StixObject.x_mitre_deprecated obj)) eqn:Hd;
        [apply Hacc; exact He |].
      destruct (Js.truthy_opt (StixObject.name obj)) eqn:Hn;
        [| apply Hacc; exact He].
      cbn [andb negb] in He.
      destruct (In_JsMap_set _ _ _ _ He) as [H | H]; [apply Hacc; exact H |].
      exists obj. split; [apply Hl; left; reflexivity |].
      rewrite H. split; [reflexivity |].
      repeat split; try assumption. rewrite Hrefs. discriminate. }
  rewrite in_map_iff. intros ([k v] & <- & Hin).
  eapply (H objects []); [auto | intros e [] | exact Hin].
Qed.

Lemma extractAnalytics_sound (objects : list StixObject.t)
    (analytic : StixAnalytic.t) :
  In analytic (JsMap.values (extractAnalytics objects)) ->
  exists obj,
    In obj objects /\
    StixObject.id obj = StixAnalytic.id analytic /\
    kept "x-mitre-analytic" obj.
Proof.
  unfold extractAnalytics, JsMap.values.
  assert (H : forall (l : list StixObject.t) acc,
             (forall obj, In obj l -> In obj objects) ->
             (forall entry, In entry acc ->
                exists obj, In obj objects /\
                  StixObject.id obj = StixAnalytic.id (snd entry) /\
                  kept "x-mitre-analytic" obj) ->
             forall entry,
               In entry
                 (fold_left
                    (fun analyticsMap obj =>
                       match StixObject.external_references obj with
                       | Some refs =>
                           if (String.eqb (StixObject.type obj) "x-mitre-analytic"
                               && negb (flag (StixObject.x_mitre_deprecated obj))
                               && Js.truthy_opt (StixObject.name obj))%bool
                           then
                             JsMap.set analyticsMap (StixObject.id obj)
                               {| StixAnalytic.id := StixObject.id obj;
                                  StixAnalytic.name := the (StixObject.name obj);
                                  StixAnalytic.external_references := refs;
                                  StixAnalytic.x_mitre_platforms :=
                                    StixObject.x_mitre_platforms obj;
                                  StixAnalytic.x_mitre_deprecated :=
                                    StixObject.x_mitre_deprecated obj |}
                           else analyticsMap
                       | None => analyticsMap
                       end) l acc) ->
               exists obj, In obj objects /\
                 StixObject.id obj = StixAnalytic.id (snd entry) /\
                 kept "x-mitre-analytic" obj).
  { induction l as [| obj rest IH]; intros acc Hl Hacc entry; cbn [fold_left].
    - apply Hacc.
    - apply IH; [intros o Ho; apply Hl; right; exact Ho |].
      intros e He.
      destruct (StixObject.external_references obj) as [refs |] eqn:Hrefs;
        [| apply Hacc; exact He].
      destruct (String.eqb_spec (StixObject.type obj) "x-mitre-analytic")
        as [Ht | Ht]; [| apply Hacc; exact He].
      destruct (flag (StixObject.x_mitre_deprecated obj)) eqn:Hd;
        [apply Hacc; exact He |].
      destruct (Js.truthy_opt (StixObject.name obj)) eqn:Hn;
        [| apply Hacc; exact He].
      cbn [andb negb] in He.
      destruct (In_JsMap_set _ _ _ _ He) as [H | H]; [apply Hacc; exact H |].
      exists obj. split; [apply Hl; left; reflexivity |].
      rewrite H. split; [reflexivity |].
      repeat split; try assumption. rewrite Hrefs. discriminate. }
  rewrite in_map_iff. intros ([k v] & <- & Hin).
  eapply (H objects []); [auto | intros e [] | exact Hin].
Qed.

(** C6. A detection strategy and an analytic that are marked revoked
    (and not deprecated) are kept by [extractDetectionStrategies] and
    [extractAnalytics], which test [x_mitre_deprecated] only; the
    attack pattern with the same marks is left out by
    [extractAttackPatterns], which tests [revoked] too. *)
Theorem revoked_objects_kept :
  excluded revoked_strategy /\ excluded revoked_analytic /\ excluded revoked_pattern /\
  map StixDetectionStrategy.id
      (JsMap.values (extractDetectionStrategies [revoked_strategy]))
    = ["x-mitre-detection-strategy--0001"] /\
  map StixAnalytic.id (JsMap.values (extractAnalytics [revoked_analytic]))
    = ["x-mitre-analytic--0001"] /\
  extractAttackPatterns [revoked_pattern] = [].
Proof.
  repeat split; try reflexivity; right; left; reflexivity.
Qed.

(* ================================================================== *)
(** ** The taxonomy of a failed build *)

(** The failures [loadStixData] catches.  When the source file is
    missing or unreadable, or when [JSON.parse] rejects its text,
    [parseMatrix] resolves (it does not reject) with the fourteen
    tactics of [MITRE_TACTICS_ORDER], in that order, each with an
    empty technique list, and with an empty platform list; so does
    [getMatrix] on an empty cache. *)
Theorem failed_build_is_empty (localeCompare : string -> string -> Z)
    (JSON_parse : string -> Parsed) (file : File) :
  load_fails JSON_parse file ->
  parseMatrix localeCompare JSON_parse file = Ok emptyMatrix /\
  fst (getMatrix localeCompare JSON_parse None file) = Ok emptyMatrix /\
  map TacticWithTechniques.tactic (MitreMatrixData.tactics emptyMatrix)
    = MITRE_TACTICS_ORDER /\
  List.length (MitreMatrixData.tactics emptyMatrix) = 14%nat /\
  Forall (fun t => TacticWithTechniques.techniques t = [])
         (MitreMatrixData.tactics emptyMatrix) /\
  MitreMatrixData.availablePlatforms emptyMatrix = [].
Proof.
  intros Hfail.
  assert (Hparse : parseMatrix localeCompare JSON_parse file = Ok emptyMatrix).
  { unfold parseMatrix, loadStixData.
    destruct file as [| e | rawData]; try reflexivity.
    destruct Hfail as [e He]. rewrite He. reflexivity. }
  split; [exact Hparse |].
  split; [unfold getMatrix; rewrite Hparse; reflexivity |].
  split; [reflexivity |]. split; [reflexivity |].
  split; [| reflexivity].
  unfold emptyMatrix, getEmptyTactics. cbn [MitreMatrixData.tactics].
  apply Forall_map. apply Forall_forall. intros t _. reflexivity.
Qed.

Lemma failed_build_is_empty_witness :
  load_fails rejecting_parser (content "{") /\
  parseMatrix byteCompare rejecting_parser (content "{") = Ok emptyMatrix.
Proof.
  assert (H : load_fails rejecting_parser (content "{")).
  { exists "SyntaxError: Unexpected token". reflexivity. }
  split; [exact H |].
  exact (proj1 (failed_build_is_empty byteCompare rejecting_parser (content "{") H)).
Defined.

(** C7. The failure of the build on a file that is JSON but no bundle
    reaches the caller.  On the text [{}], [JSON.parse] returns an
    object without [objects]; [loadStixData] returns it as the bundle,
    and [extractAttackPatterns] throws the TypeError of
    [stixData.objects.filter] outside of every [try]: [parseMatrix]
    rejects with it and so does [getMatrix], which caches nothing.
    The taxonomy of the fourteen tactics with empty technique lists,
    which a file that is no JSON yields, is not returned. *)
Theorem malformed_bundle_is_raised (localeCompare : string -> string -> Z) :
  let file := content "{}" in
  let error := "TypeError: Cannot read properties of undefined (reading 'filter')" in
  loadStixData empty_object_parser file = Some objects_undefined /\
  parseMatrix localeCompare empty_object_parser file = Err error /\
  getMatrix localeCompare empty_object_parser None file = (Err error, None) /\
  parseMatrix localeCompare rejecting_parser file = Ok emptyMatrix /\
  List.length (MitreMatrixData.tactics emptyMatrix) = 14%nat.
Proof. repeat split. Qed.

(* ================================================================== *)
(** ** Executions of the smart pass *)

Lemma write_ids_app (a b : Trace) :
  write_ids (a ++ b)%list = (write_ids a ++ write_ids b)%list.
Proof.
  induction a as [| [X c reply | X c x] a IH]; cbn; [reflexivity | | exact IH].
  destruct c; cbn; rewrite IH; reflexivity.
Qed.

Lemma due_searches_app (a b : Trace) :
  due_searches (a ++ b)%list = (due_searches a ++ due_searches b)%list.
Proof.
  induction a as [| [X c reply | X c x] a IH]; cbn; [reflexivity | | exact IH].
  destruct c; cbn; rewrite IH; reflexivity.
Qed.

Lemma quiet_events (new : Trace) :
  Forall (event_ok quiet) new ->
  write_ids new = [] /\ due_searches new = [] /\ filter is_paging new = [].
Proof.
  induction 1 as [| e new He Hnew (Hw & Hd & Hp)]; [repeat split |].
  destruct e as [X c reply | X c x]; cbn in *.
  - destruct c; try contradiction; repeat split; assumption.
  - repeat split; assumption.
Qed.

Lemma any_world (w : World) : obeys w any_reply any_answer.
Proof. split; intros; exact I. Qed.

Lemma store_obeys (st : Store) : obeys (store_world st) any_reply (store_answers st).
Proof. split; [intros; exact I |]. intros X h c. destruct c; reflexivity. Qed.

Lemma subseq_refl (X : Type) (l : list X) : subseq l l.
Proof. induction l; constructor; assumption. Qed.

Lemma subseq_incl (X : Type) (l m : list X) : subseq l m -> incl l m.
Proof.
  induction 1 as [| x l m H IH | x l m H IH]; intros y Hy.
  - exact Hy.
  - right. apply IH. exact Hy.
  - destruct Hy as [<- | Hy]; [left; reflexivity | right; apply IH; exact Hy].
Qed.

Lemma subseq_length (X : Type) (l m : list X) :
  subseq l m -> (List.length l <= List.length m)%nat.
Proof. induction 1; cbn; lia. Qed.

(** Recomputing an analytic that has references, on a store: it only
    reads the settings and probes the log store; it returns under the
    id of the analytic, or it throws, which it only does when the next
    execution is out of the range of [Date]. *)
Lemma processAnalytic_run (st : Store) (Date_getTime : string -> num)
    (analytic : AnalyticDocument) (s : Fields) (h : Trace) :
  x_mitre_log_source_references analytic <> None ->
  let o := run (store_world st) (processAnalytic Date_getTime analytic None s) h in
  exists new,
    trace o = (new ++ h)%list /\
    Forall (event_ok quiet) new /\
    same_instance s (fields o) /\
    match final o with
    | returned p => scored_id p = id analytic
    | thrown _ => ~ next_in_range st s
    | unfinished => False
    end.
Proof.
  intros Hrefs o.
  destruct (@sat_run _ (same_instance s) any_reply (store_answers st) quiet
              (fun p s' => scored_id p = id analytic /\ same_instance s s')
              (fun _ s' => same_instance s s' /\ ~ next_in_range st s)
              (fun _ => False)
              (store_world st) (processAnalytic Date_getTime analytic None s) h
              (store_obeys st))
    as (new & Ht & Hq & Hf).
  - apply processAnalytic_framed; auto; try (intros; exact I);
      try (intros ? ? H; exact H); try (split; reflexivity).
    + intros s0 Hs0. unfold framed, calculateNextExecution, bind, ask, this, ret, throw.
      cbn [bindR sat]. intros u Hu now Hnow. cbn [bindR sat].
      unfold store_answers in Hu, Hnow. cbn in Hu, Hnow. subst u now.
      destruct (Z.abs _ <=? MAX_TIME) eqn:Hrange; cbn [sat]; [exact Hs0 |].
      split; [exact Hs0 |]. apply Z.leb_gt in Hrange.
      unfold next_in_range. destruct Hs0 as [_ <-]. lia.
    + intros Hnone. contradiction.
  - exists new. fold o in Ht, Hf. split; [exact Ht |]. split; [exact Hq |].
    destruct (final o) as [p | e |]; [| | contradiction].
    + destruct Hf as [Hid Hsame]. split; assumption.
    + destruct Hf as [Hsame Hno]. split; assumption.
Qed.

(** One turn of the loop of the smart pass: it always completes,
    after at most one write, which carries the id of the result; the
    write is attempted when the result has references and the next
    execution is in range. *)
Lemma recalculate_run (st : Store) (Date_getTime : string -> num)
    (analytic : AnalyticDocumentWithScores) (s : Fields) (h : Trace) :
  let o := run (store_world st) (recalculate Date_getTime analytic s) h in
  final o = returned tt /\
  same_instance s (fields o) /\
  exists new,
    trace o = (new ++ h)%list /\
    due_searches new = [] /\ filter is_paging new = [] /\
    (write_ids new = [] \/ write_ids new = [scored_id analytic]) /\
    (next_in_range st s -> scored_references analytic <> None ->
     write_ids new = [scored_id analytic]).
Proof.
  unfold recalculate, try_catch, bind, withoutScores.
  destruct (scored_references analytic) as [refs |].
  - cbn [bindR ret]. rewrite run_catch, run_bind.
    set (copy := {| id := scored_id analytic; analytic_name := scored_name analytic;
                    x_mitre_log_source_references := Some (map reference refs) |}).
    destruct (@processAnalytic_run st Date_getTime copy s h)
      as (new & Ht & Hq & Hc & Hf); [discriminate |].
    destruct (quiet_events Hq) as (Hw & Hd & Hp).
    set (o1 := run (store_world st) (processAnalytic Date_getTime copy None s) h) in *.
    clearbody o1.
    unfold continue, handle.
    destruct (final o1) as [p | e |] eqn:Hfin; [| | contradiction].
    + cbn [bindR this await run].
      destruct (respond (store_world st) (trace o1) _) as [[] | e] eqn:Hreply; cbn.
      * split; [reflexivity |]. split; [exact Hc |].
        eexists ([_] ++ new)%list. rewrite Ht. split; [reflexivity |].
        rewrite due_searches_app, filter_app, write_ids_app, Hw, Hd, Hp.
        cbn. rewrite Hf. repeat split. right. reflexivity.
      * split; [reflexivity |]. split; [exact Hc |].
        eexists ([_] ++ new)%list. rewrite Ht. split; [reflexivity |].
        rewrite due_searches_app, filter_app, write_ids_app, Hw, Hd, Hp.
        cbn. rewrite Hf. repeat split. right. reflexivity.
    + cbn. split; [reflexivity |]. split; [exact Hc |].
      exists new. repeat split; auto. intros Hin _. contradiction.
  - cbn. repeat split. exists []. repeat split; [left; reflexivity |].
    intros _ H. contradiction.
Qed.

(** The loop of the smart pass over the scanned results: the ids it
    writes, in the order of the writes, are ids of scanned results in
    the order of the scan; none is missing when every scanned result
    has references and the next execution is in range. *)
Lemma recalculate_all_run (st : Store) (Date_getTime : string -> num)
    (scanned : list AnalyticDocumentWithScores) :
  forall (s : Fields) (h : Trace),
    let o := run (store_world st) (for_of scanned (recalculate Date_getTime) s) h in
    final o = returned tt /\
    same_instance s (fields o) /\
    exists new,
      trace o = (new ++ h)%list /\
      due_searches new = [] /\ filter is_paging new = [] /\
      subseq (rev (write_ids new)) (map scored_id scanned) /\
      (next_in_range st s ->
       Forall (fun doc => scored_references doc <> None) scanned ->
       rev (write_ids new) = map scored_id scanned).
Proof.
  induction scanned as [| analytic rest IH]; intros s h.
  - cbn. repeat split. exists []. repeat split; constructor.
  - cbn [for_of]. unfold bind. cbv zeta. rewrite run_bind.
    destruct (recalculate_run st Date_getTime analytic s h)
      as (Hf1 & [Hc1 Hr1] & new1 & Ht1 & Hd1 & Hp1 & Hw1 & Hb1).
    set (o1 := run (store_world st) (recalculate Date_getTime analytic s) h) in *.
    clearbody o1.
    unfold continue. rewrite Hf1.
    destruct (IH (fields o1) (trace o1))
      as (Hf2 & [Hc2 Hr2] & new2 & Ht2 & Hd2 & Hp2 & Hi2 & Hb2).
    split; [exact Hf2 |].
    split; [split; congruence |].
    exists (new2 ++ new1)%list.
    split; [rewrite Ht2, Ht1, app_assoc; reflexivity |].
    split; [rewrite due_searches_app, Hd1, Hd2; reflexivity |].
    split; [rewrite filter_app, Hp1, Hp2; reflexivity |].
    rewrite write_ids_app, rev_app_distr. cbn [map]. split.
    + destruct Hw1 as [Hw1 | Hw1]; rewrite Hw1; cbn [rev app].
      * apply subseq_skip. exact Hi2.
      * apply subseq_take. exact Hi2.
    + intros Hrange Hall. inversion Hall as [| doc docs Hdoc Hdocs]; subst.
      rewrite (Hb1 Hrange Hdoc). cbn [rev app]. f_equal.
      apply Hb2; [| exact Hdocs].
      unfold next_in_range in *. rewrite Hr1. exact Hrange.
Qed.

Lemma writes_app (a b : Trace) : writes (a ++ b)%list = (writes a ++ writes b)%list.
Proof.
  induction a as [| [X c reply | X c x] a IH]; cbn; [reflexivity | | exact IH].
  destruct c; cbn; rewrite IH; reflexivity.
Qed.

Lemma write_ids_writes (t : Trace) : write_ids t = map write_id (writes t).
Proof.
  induction t as [| [X c reply | X c x] t IH]; cbn; [reflexivity | | exact IH].
  destruct c; cbn; rewrite IH; reflexivity.
Qed.

Lemma quiet_writes (new : Trace) : Forall (event_ok quiet) new -> writes new = [].
Proof.
  induction 1 as [| e new He Hnew IH]; [reflexivity |].
  destruct e as [X c reply | X c x]; cbn in *; [| exact IH].
  destruct c; try contradiction; exact IH.
Qed.

(** On a store, a computation that only reads the settings and probes
    the logs does the same whatever happened before. *)
Lemma quiet_run_anywhere (st : Store) (A : Type) (r : Res A) :
  sat always any_reply any_answer quiet (@whatever A) (@whatever Error) always r ->
  forall h h' : Trace,
    final (run (store_world st) r h) = final (run (store_world st) r h') /\
    fields (run (store_world st) r h) = fields (run (store_world st) r h') /\
    exists new,
      trace (run (store_world st) r h) = (new ++ h)%list /\
      trace (run (store_world st) r h') = (new ++ h')%list.
Proof.
  induction r as [a s | e s | s | X s c k IH | X c k IH]; intros Hsat h h';
    cbn [run final fields trace].
  - repeat split. exists []. split; reflexivity.
  - repeat split. exists []. split; reflexivity.
  - repeat split. exists []. split; reflexivity.
  - destruct Hsat as (_ & Hq & Hk).
    assert (Hreply : respond (store_world st) h c = respond (store_world st) h' c).
    { destruct c; try contradiction; reflexivity. }
    cbv zeta. rewrite Hreply.
    destruct (IH (respond (store_world st) h' c) s (Hk _ _ I I)
                (called c (respond (store_world st) h' c) :: h)
                (called c (respond (store_world st) h' c) :: h'))
      as (Hf & Hs & new & Ht & Ht').
    split; [exact Hf |]. split; [exact Hs |].
    exists (new ++ [called c (respond (store_world st) h' c)])%list.
    rewrite <- !app_assoc. split; assumption.
  - assert (Hanswer : answer (store_world st) h c = answer (store_world st) h' c).
    { destruct c; reflexivity. }
    cbv zeta. rewrite Hanswer.
    destruct (IH (answer (store_world st) h' c) (Hsat _ I)
                (asked c (answer (store_world st) h' c) :: h)
                (asked c (answer (store_world st) h' c) :: h'))
      as (Hf & Hs & new & Ht & Ht').
    split; [exact Hf |]. split; [exact Hs |].
    exists (new ++ [asked c (answer (store_world st) h' c)])%list.
    rewrite <- !app_assoc. split; assumption.
Qed.

Lemma processAnalytic_quiet (Date_getTime : string -> num)
    (analytic : AnalyticDocument) (platform : option string) (s : Fields) :
  sat always any_reply any_answer quiet
      (@whatever AnalyticDocumentWithScores) (@whatever Error) always
      (processAnalytic Date_getTime analytic platform s).
Proof.
  eapply sat_mono;
    [| | | apply processAnalytic_framed
             with (I := always) (Q := @whatever Error) (U := always)];
    try (intros; exact I).
  intros s0 Hs0. apply calculateNextExecution_throws; intros; exact I.
Qed.

(** One turn of the loop of the smart pass sends what the
    recomputation of the result returns, if it returns. *)
Lemma recalculate_writes (st : Store) (Date_getTime : string -> num)
    (analytic : AnalyticDocumentWithScores)
    (rest : list AnalyticDocumentWithScores) (s : Fields) (h : Trace) :
  let o := run (store_world st) (recalculate Date_getTime analytic s) h in
  exists new,
    trace o = (new ++ h)%list /\
    recomputed Date_getTime st (analytic :: rest) s
      = (rev (writes new) ++ recomputed Date_getTime st rest (fields o))%list.
Proof.
  unfold recalculate, try_catch, bind, withoutScores. cbn [recomputed].
  destruct (scored_references analytic) as [refs |].
  - cbn [bindR ret]. rewrite run_catch, run_bind. cbv zeta.
    set (copy := {| id := scored_id analytic; analytic_name := scored_name analytic;
                    x_mitre_log_source_references := Some (map reference refs) |}).
    destruct (@quiet_run_anywhere st _ _
                (processAnalytic_quiet Date_getTime copy None s) h []) as (Hf & Hs & new & Ht & Ht0).
    destruct (@sat_run _ always any_reply any_answer quiet
                (@whatever AnalyticDocumentWithScores) (@whatever Error) always
                (store_world st) (processAnalytic Date_getTime copy None s) h
                (any_world _) (processAnalytic_quiet Date_getTime copy None s))
      as (new' & Ht' & Hq & _).
    assert (new' = new) by (rewrite Ht in Ht'; apply app_inv_tail in Ht'; congruence).
    subst new'. clear Ht'.
    rewrite <- Hf, <- Hs.
    set (o1 := run (store_world st) (processAnalytic Date_getTime copy None s) h) in *.
    clearbody o1.
    unfold continue, handle.
    destruct (final o1) as [p | e |].
    + cbn [bindR this await run].
      destruct (respond (store_world st) (trace o1) _) as [[] | e];
        cbn [bindR ret run final fields trace];
        (eexists ([_] ++ new)%list; rewrite Ht; split; [reflexivity |];
         rewrite writes_app, (quiet_writes Hq), app_nil_r; reflexivity).
    + cbn [run final fields trace]. exists new. split; [exact Ht |].
      rewrite (quiet_writes Hq). reflexivity.
    + cbn [run final fields trace]. exists new. split; [exact Ht |].
      rewrite (quiet_writes Hq). reflexivity.
  - cbn. exists []. split; reflexivity.
Qed.

(** The loop of the smart pass sends, in order, what the
    recomputations of the scanned results return. *)
Lemma recalculate_all_writes (st : Store) (Date_getTime : string -> num)
    (scanned : list AnalyticDocumentWithScores) :
  forall (s : Fields) (h : Trace),
    let o := run (store_world st) (for_of scanned (recalculate Date_getTime) s) h in
    exists new,
      trace o = (new ++ h)%list /\
      rev (writes new) = recomputed Date_getTime st scanned s.
Proof.
  induction scanned as [| analytic rest IH]; intros s h.
  - cbn. exists []. split; reflexivity.
  - cbn [for_of]. unfold bind. cbv zeta. rewrite run_bind.
    destruct (recalculate_writes st Date_getTime analytic rest s h)
      as (new1 & Ht1 & Hw1).
    destruct (recalculate_run st Date_getTime analytic s h) as (Hf1 & _).
    set (o1 := run (store_world st) (recalculate Date_getTime analytic s) h) in *.
    clearbody o1.
    unfold continue. rewrite Hf1.
    destruct (IH (fields o1) (trace o1)) as (new2 & Ht2 & Hw2).
    exists (new2 ++ new1)%list.
    split; [rewrite Ht2, Ht1, app_assoc; reflexivity |].
    rewrite writes_app, rev_app_distr, Hw1, Hw2. reflexivity.
Qed.

Lemma sources_map_Some (X : Type) (l : list X) : sources (map Some l) = l.
Proof. induction l as [| x l IH]; cbn; [| rewrite IH]; reflexivity. Qed.

Arguments processAllAnalytics : simpl never.
Arguments for_of : simpl never.

Lemma getAnalyticsNeedingRecalculation_run (st : Store) (s : Fields) (h : Trace) :
  let o := run (store_world st) (getAnalyticsNeedingRecalculation s) h in
  final o = returned match results st with
                     | Some docs => firstn 100 (due (clock st) docs)
                     | None => []
                     end /\
  fields o = s /\
  exists reply,
    trace o = called (search_due (internalClient s) RESULTS_INDEX_NAME 100 (clock st))
                     reply
              :: asked Date_now (clock st) :: h.
Proof.
  unfold getAnalyticsNeedingRecalculation, try_catch, bind.
  cbn. destruct (results st) as [docs |]; cbn.
  - rewrite sources_map_Some. repeat split. eexists. reflexivity.
  - repeat split. eexists. reflexivity.
Qed.

(** The smart pass on a store that holds results. *)
Lemma smart_update_run (Date_getTime : string -> num) (fuel : nat)
    (logsClient : Client) (st : Store) (s : Fields) (h : Trace)
    (docs : list AnalyticDocumentWithScores) :
  isRunning s = false -> results st = Some docs -> docs <> [] ->
  let o := run (store_world st)
             (runSmartScoringWithClient Date_getTime fuel logsClient s) h in
  let scanned := firstn 100 (due (clock st) docs) in
  due_searches (trace o) = 100 :: due_searches h /\
  filter is_paging (trace o) = filter is_paging h /\
  isRunning (fields o) = false /\
  exists ids,
    write_ids (trace o) = (ids ++ write_ids h)%list /\
    subseq (rev ids) (map scored_id scanned) /\
    (next_in_range st s ->
     Forall (fun doc => scored_references doc <> None) scanned ->
     rev ids = map scored_id scanned) /\
    final o =
      match scanned with
      | [] => returned {| action := none; count := 0 |}
      | _ :: _ =>
          match refresh_reply st with
          | Ok _ => returned {| action := update;
                                count := Z.of_nat (List.length scanned) |}
          | Err e => thrown e
          end
      end.
Proof.
  intros Hs Hres Hne o scanned. subst o.
  unfold runSmartScoringWithClient, bind, this, try_finally, try_catch.
  cbn [bindR]. rewrite Hs. cbn [bindR assign].
  rewrite run_finally, run_catch.
  unfold smartBody, setLogsClient, bind, this, assign.
  cbn [bindR await run respond store_world store_respond].
  change (String.eqb RESULTS_INDEX_NAME SETTINGS_INDEX_NAME) with false.
  change (String.eqb RESULTS_INDEX_NAME ECS_INDEX_NAME) with false.
  change (String.eqb RESULTS_INDEX_NAME RESULTS_INDEX_NAME) with true.
  cbv iota. rewrite Hres.
  cbn [is_some negb bindR run respond store_world store_respond].
  rewrite Hres.
  assert (Hcount : (Z.of_nat (List.length docs) =? 0) = false).
  { destruct docs; [contradiction | reflexivity]. }
  cbn [bindR run]. rewrite Hcount.
  rewrite run_bind.
  match goal with
  | |- context [run (store_world st) (getAnalyticsNeedingRecalculation ?s0) ?h0] =>
      destruct (getAnalyticsNeedingRecalculation_run st s0 h0)
        as (Hf & Hfs & reply & Ht);
      set (o1 := run (store_world st) (getAnalyticsNeedingRecalculation s0) h0) in *;
      clearbody o1
  end.
  rewrite Hres in Hf. fold scanned in Hf.
  unfold continue. rewrite Hf, Hfs, Ht.
  destruct scanned as [| first rest] eqn:Hscanned.
  - cbn [List.length Nat.eqb ret run handle cleanup final fields trace
         write_ids due_searches filter is_paging isRunning set_isRunning].
    repeat split. exists []. repeat split; constructor.
  - cbn [List.length Nat.eqb]. rewrite run_bind.
    match goal with
    | |- context [run (store_world st) (for_of ?l ?f ?s0) ?h0] =>
        destruct (recalculate_all_run st Date_getTime l s0 h0)
          as (Hf2 & Hc2 & new & Ht2 & Hd2 & Hp2 & Hi2 & Hl2);
        set (o2 := run (store_world st) (for_of l f s0) h0) in *;
        clearbody o2
    end.
    unfold continue. rewrite Hf2.
    cbn [bindR this await run respond store_world store_respond].
    assert (Htrace :
              due_searches (trace o2) = 100 :: due_searches h /\
              filter is_paging (trace o2) = filter is_paging h /\
              write_ids (trace o2) = (write_ids new ++ write_ids h)%list).
    { rewrite Ht2, due_searches_app, write_ids_app, filter_app, Hd2, Hp2.
      repeat split. }
    destruct Htrace as (H1 & H2 & H3).
    destruct (refresh_reply st) as [[] | err];
      cbn [bindR ret run handle cleanup final fields trace throw
           write_ids due_searches filter is_paging isRunning set_isRunning];
      rewrite H1, H2, H3;
      (split; [reflexivity |]; split; [reflexivity |]; split; [reflexivity |];
       exists (write_ids new); split; [reflexivity |];
       split; [exact Hi2 |]; split; [exact Hl2 | reflexivity]).
Qed.

(** The documents the smart pass sends on a store that holds results:
    what the recomputations of the scanned results return. *)
Lemma smart_update_writes (Date_getTime : string -> num) (fuel : nat)
    (logsClient : Client) (st : Store) (s : Fields) (h : Trace)
    (docs : list AnalyticDocumentWithScores) :
  isRunning s = false -> results st = Some docs -> docs <> [] ->
  let o := run (store_world st)
             (runSmartScoringWithClient Date_getTime fuel logsClient s) h in
  let scanned := firstn 100 (due (clock st) docs) in
  exists sent,
    writes (trace o) = (sent ++ writes h)%list /\
    rev sent = recomputed Date_getTime st scanned
                 (set_logsClient logsClient (set_isRunning true s)).
Proof.
  intros Hs Hres Hne o scanned. subst o.
  unfold runSmartScoringWithClient, bind, this, try_finally, try_catch.
  cbn [bindR]. rewrite Hs. cbn [bindR assign].
  rewrite run_finally, run_catch.
  unfold smartBody, setLogsClient, bind, this, assign.
  cbn [bindR await run respond store_world store_respond].
  change (String.eqb RESULTS_INDEX_NAME SETTINGS_INDEX_NAME) with false.
  change (String.eqb RESULTS_INDEX_NAME ECS_INDEX_NAME) with false.
  change (String.eqb RESULTS_INDEX_NAME RESULTS_INDEX_NAME) with true.
  cbv iota. rewrite Hres.
  cbn [is_some negb bindR run respond store_world store_respond].
  rewrite Hres.
  assert (Hcount : (Z.of_nat (List.length docs) =? 0) = false).
  { destruct docs; [contradiction | reflexivity]. }
  cbn [bindR run]. rewrite Hcount.
  rewrite run_bind.
  match goal with
  | |- context [run (store_world st) (getAnalyticsNeedingRecalculation ?s0) ?h0] =>
      destruct (getAnalyticsNeedingRecalculation_run st s0 h0)
        as (Hf & Hfs & reply & Ht);
      set (o1 := run (store_world st) (getAnalyticsNeedingRecalculation s0) h0) in *;
      clearbody o1
  end.
  rewrite Hres in Hf. fold scanned in Hf.
  unfold continue. rewrite Hf, Hfs, Ht.
  destruct scanned as [| first rest] eqn:Hscanned.
  - cbn [List.length Nat.eqb ret run handle cleanup final fields trace writes].
    exists []. split; reflexivity.
  - cbn [List.length Nat.eqb]. rewrite run_bind.
    match goal with
    | |- context [run (store_world st) (for_of ?l ?f ?s0) ?h0] =>
        destruct (recalculate_all_writes st Date_getTime l s0 h0)
          as (new & Ht2 & Hw2);
        destruct (recalculate_all_run st Date_getTime l s0 h0) as (Hf2 & _);
        set (o2 := run (store_world st) (for_of l f s0) h0) in *;
        clearbody o2
    end.
    unfold continue. rewrite Hf2.
    cbn [bindR this await run respond store_world store_respond].
    assert (Htrace : writes (trace o2) = (writes new ++ writes h)%list).
    { rewrite Ht2, writes_app. reflexivity. }
    destruct (refresh_reply st) as [[] | err];
      cbn [bindR ret run handle cleanup final fields trace throw writes];
      rewrite Htrace;
      (exists (writes new); split; [reflexivity | exact Hw2]).
Qed.

(** The smart pass on a store without results, or with an empty
    result index: the full pass. *)
Lemma smart_init_run (Date_getTime : string -> num) (fuel : nat)
    (logsClient : Client) (st : Store) (s : Fields) (h : Trace) :
  isRunning s = false ->
  let w := store_world st in
  let o := run w (runSmartScoringWithClient Date_getTime fuel logsClient s) h in
  let s1 := set_logsClient logsClient (set_isRunning true s) in
  let cl := internalClient s in
  (results st = None ->
   as_full_pass
     (run w (processAllAnalytics Date_getTime fuel s1)
        (called (indices_exists cl RESULTS_INDEX_NAME) (Ok false) :: h)) o) /\
  (results st = Some [] ->
   as_full_pass
     (run w (processAllAnalytics Date_getTime fuel s1)
        (called (count_docs cl RESULTS_INDEX_NAME) (Ok 0)
           :: called (indices_exists cl RESULTS_INDEX_NAME) (Ok true) :: h)) o).
Proof.
  intros Hs w o s1 cl. subst o w.
  unfold runSmartScoringWithClient, bind, this, try_finally, try_catch.
  cbn [bindR]. rewrite Hs. cbn [bindR assign].
  rewrite run_finally, run_catch.
  unfold smartBody, setLogsClient, bind, this, assign.
  cbn [bindR await run respond store_world store_respond].
  change (String.eqb RESULTS_INDEX_NAME SETTINGS_INDEX_NAME) with false.
  change (String.eqb RESULTS_INDEX_NAME ECS_INDEX_NAME) with false.
  change (String.eqb RESULTS_INDEX_NAME RESULTS_INDEX_NAME) with true.
  cbv iota.
  split; intros Hres; rewrite Hres;
    cbn [is_some negb bindR run respond store_world store_respond];
    try rewrite Hres;
    cbn [bindR run List.length Z.of_nat Z.eqb];
    rewrite run_bind; fold s1; change (internalClient s1) with cl;
    match goal with
    | |- context [run ?w0 (processAllAnalytics Date_getTime fuel s1) ?h0] =>
        set (full := run w0 (processAllAnalytics Date_getTime fuel s1) h0)
    end;
    unfold as_full_pass, continue, handle, cleanup;
    destruct (final full) as [[] | e |] eqn:Hfull;
    cbn [ret run final fields trace throw isRunning set_isRunning];
    rewrite ?Hfull; repeat split; reflexivity.
Qed.

(** C3, as the claim states it, fails on a store in which a hundred
    and one results are due: the pass recomputes a hundred of them and
    reports a hundred. *)
Lemma recomputes_all_due_fails :
  ~ recomputes_all_due no_date 3 crowded_store fresh_runner.
Proof.
  intros H.
  specialize (H (asCurrentUser "analyst") _ eq_refl).
  assert (Hne : map (stale_result 1767139200000) (seq 0 101) <> []) by discriminate.
  specialize (H Hne). vm_compute in H. destruct H as [H _]. discriminate.
Qed.

(** What the pass does on that store: it writes the first hundred of
    the due results, in their order, and reports a hundred. *)
Lemma crowded_store_run :
  let o := run (store_world crowded_store)
             (runSmartScoringWithClient no_date 3 (asCurrentUser "analyst")
                fresh_runner) [] in
  final o = returned {| action := update; count := 100 |} /\
  rev (write_ids (trace o))
    = map scored_id (firstn 100 (due (clock crowded_store)
                                   (map (stale_result 1767139200000) (seq 0 101)))) /\
  List.length (due (clock crowded_store)
                 (map (stale_result 1767139200000) (seq 0 101))) = 101%nat.
Proof. vm_compute. repeat split. Qed.

(** C3, amended.  On a store, when no pass is running:
    - if the result index is absent or empty, the smart pass performs
      the full pass and returns [{action: 'init', count: -1}] when the
      full pass returns (it throws what the full pass throws);
    - otherwise it scans for due results once, with a search capped at
      100 hits, so that it sees the first hundred of the due results
      when more are due; if the scan returns nothing it writes nothing
      and returns [{action: 'none', count: 0}]; if not, it recomputes
      the scanned results and writes back only those: what it sends
      to the result index is, in the order of the scan, the document
      that [processAnalytic] returns for each scanned result, under
      the id of the result, at most once each (all of them when each
      has references and the next execution is an instant a [Date]
      can hold; a result whose recomputation throws is skipped); and
      it returns [{action: 'update', count: N}] with N the number of
      scanned results, unless the refresh that ends the pass fails,
      which it throws.
    In each case the exclusive-run flag is down when the pass ends. *)
Theorem smart_pass_rule (Date_getTime : string -> num) (fuel : nat)
    (logsClient : Client) (st : Store) (s : Fields) (h : Trace) :
  isRunning s = false ->
  let w := store_world st in
  let o := run w (runSmartScoringWithClient Date_getTime fuel logsClient s) h in
  let s1 := set_logsClient logsClient (set_isRunning true s) in
  let cl := internalClient s in
  match results st with
  | None =>
      as_full_pass
        (run w (processAllAnalytics Date_getTime fuel s1)
           (called (indices_exists cl RESULTS_INDEX_NAME) (Ok false) :: h)) o
  | Some [] =>
      as_full_pass
        (run w (processAllAnalytics Date_getTime fuel s1)
           (called (count_docs cl RESULTS_INDEX_NAME) (Ok 0)
              :: called (indices_exists cl RESULTS_INDEX_NAME) (Ok true) :: h)) o
  | Some docs =>
      let scanned := firstn 100 (due (clock st) docs) in
      due_searches (trace o) = 100 :: due_searches h /\
      isRunning (fields o) = false /\
      exists sent,
        writes (trace o) = (sent ++ writes h)%list /\
        rev sent = recomputed Date_getTime st scanned s1 /\
        let ids := map write_id sent in
        write_ids (trace o) = (ids ++ write_ids h)%list /\
        subseq (rev ids) (map scored_id scanned) /\
        (next_in_range st s ->
         Forall (fun doc => scored_references doc <> None) scanned ->
         rev ids = map scored_id scanned) /\
        match scanned with
        | [] => ids = [] /\ final o = returned {| action := none; count := 0 |}
        | _ :: _ =>
            final o =
              match refresh_reply st with
              | Ok _ => returned {| action := update;
                                    count := Z.of_nat (List.length scanned) |}
              | Err e => thrown e
              end
        end
  end.
Proof.
  intros Hs w o s1 cl.
  destruct (@smart_init_run Date_getTime fuel logsClient st s h Hs) as [Hnone Hempty].
  destruct (results st) as [[| doc docs] |] eqn:Hres.
  - apply Hempty. reflexivity.
  - assert (Hne : doc :: docs <> []) by discriminate.
    destruct (@smart_update_run Date_getTime fuel logsClient st s h _ Hs Hres Hne)
      as (Hd & _ & Hr & ids & Hw & Hi & Hl & Hf).
    destruct (@smart_update_writes Date_getTime fuel logsClient st s h _ Hs Hres Hne)
      as (sent & Hsent & Hdocs).
    assert (Hids : ids = map write_id sent).
    { rewrite !write_ids_writes, Hsent, map_app in Hw.
      apply app_inv_tail in Hw. symmetry. exact Hw. }
    subst ids.
    cbv zeta. split; [exact Hd |]. split; [exact Hr |].
    exists sent. split; [exact Hsent |]. split; [exact Hdocs |].
    split; [exact Hw |]. split; [exact Hi |]. split; [exact Hl |].
    destruct (firstn 100 (due (clock st) (doc :: docs))); [| exact Hf].
    split; [| exact Hf].
    inversion Hi as [Hnil | |].
    destruct (map write_id sent) as [| i ids]; [reflexivity |].
    cbn in Hnil. destruct (rev ids); discriminate.
  - apply Hnone. reflexivity.
Qed.

Lemma smart_pass_rule_witness :
  isRunning fresh_runner = false /\
  let o := run (store_world crowded_store)
             (runSmartScoringWithClient no_date 3 (asCurrentUser "analyst")
                fresh_runner) [] in
  due_searches (trace o) = [100] /\ isRunning (fields o) = false.
Proof.
  split; [reflexivity |].
  pose proof (@smart_pass_rule no_date 3 (asCurrentUser "analyst") crowded_store
                fresh_runner [] eq_refl) as H.
  cbv zeta in H.
  change (results crowded_store)
    with (Some (stale_result 1767139200000 0
                  :: map (stale_result 1767139200000) (seq 1 100))) in H.
  cbv iota in H. destruct H as (Hd & Hr & _).
  split; [exact Hd | exact Hr].
Defined.

(** C10. The scan for due results is one search of size 100, without
    a scroll; so, on a store that holds results, the smart pass never
    asks for a further page, writes at most a hundred results, and the
    count of an update is the smaller of 100 and the number of due
    results. *)
Theorem smart_pass_capped (Date_getTime : string -> num) (fuel : nat)
    (logsClient : Client) (st : Store) (s : Fields) (h : Trace)
    (docs : list AnalyticDocumentWithScores) :
  isRunning s = false -> results st = Some docs -> docs <> [] ->
  let o := run (store_world st)
             (runSmartScoringWithClient Date_getTime fuel logsClient s) h in
  due_searches (trace o) = 100 :: due_searches h /\
  filter is_paging (trace o) = filter is_paging h /\
  (List.length (write_ids (trace o)) <= List.length (write_ids h) + 100)%nat /\
  forall n,
    final o = returned {| action := update; count := n |} ->
    n = Z.of_nat (Nat.min 100 (List.length (due (clock st) docs))) /\ n <= 100.
Proof.
  intros Hs Hres Hne o.
  destruct (@smart_update_run Date_getTime fuel logsClient st s h _ Hs Hres Hne)
    as (Hd & Hp & _ & ids & Hw & Hi & _ & Hf).
  fold o in Hd, Hp, Hw, Hf.
  apply subseq_length in Hi. rewrite length_rev, length_map in Hi.
  pose proof (length_firstn 100 (due (clock st) docs)) as Hlen.
  split; [exact Hd |]. split; [exact Hp |]. split.
  - rewrite Hw, length_app. lia.
  - intros n Hn. rewrite Hf in Hn.
    destruct (firstn 100 (due (clock st) docs)) as [| first rest] eqn:Hscan;
      [discriminate |].
    destruct (refresh_reply st); [| discriminate].
    injection Hn as <-.
    change (Z.pos (Pos.of_succ_nat (List.length rest)))
      with (Z.of_nat (List.length (first :: rest))).
    rewrite Hlen. lia.
Qed.

Lemma smart_pass_capped_witness :
  isRunning fresh_runner = false /\
  results crowded_store = Some (map (stale_result 1767139200000) (seq 0 101)) /\
  map (stale_result 1767139200000) (seq 0 101) <> [] /\
  let o := run (store_world crowded_store)
             (runSmartScoringWithClient no_date 3 (asCurrentUser "analyst")
                fresh_runner) [] in
  due_searches (trace o) = [100] /\
  filter is_paging (trace o) = [] /\
  (List.length (write_ids (trace o)) <= 100)%nat.
Proof.
  assert (Hne : map (stale_result 1767139200000) (seq 0 101) <> []) by discriminate.
  split; [reflexivity |]. split; [reflexivity |]. split; [exact Hne |].
  destruct (@smart_pass_capped no_date 3 (asCurrentUser "analyst") crowded_store
              fresh_runner [] _ eq_refl eq_refl Hne) as (Hd & Hp & Hw & _).
  split; [exact Hd |]. split; [exact Hp | exact Hw].
Defined.

(* ================================================================== *)
(** ** The scroll of the full pass *)

(** C5. The continuation of the scroll fails after the first page:
    [processAllAnalytics] rethrows, and the scroll the first search
    opened is never closed -- [clearScroll] is only reached when the
    loop ends normally. *)
Theorem scroll_left_open :
  let o := run (store_world
                  (catalog_store (Some "search_phase_execution_exception") (Ok tt)))
             (processAllAnalytics no_date 3 fresh_runner) [] in
  final o = thrown "search_phase_execution_exception" /\
  rev (trace o)
    = [ called (indices_exists asInternalUser ECS_INDEX_NAME) (Ok true);
        called (search_scroll asInternalUser ECS_INDEX_NAME 100) (Ok first_page);
        called (scroll asInternalUser "scroll-1")
               (Err "search_phase_execution_exception") ] /\
  scrolls_opened (trace o) = ["scroll-1"] /\
  scrolls_closed (trace o) = [].
Proof. vm_compute. repeat split. Qed.

(** When the scan ends normally the scroll is closed, before the
    results are refreshed: a failing refresh leaves no scroll open. *)
Lemma scroll_closed_on_normal_end :
  let healthy := run (store_world (catalog_store None (Ok tt)))
                   (processAllAnalytics no_date 3 fresh_runner) [] in
  let stale := run (store_world (catalog_store None (Err "unavailable_shards_exception")))
                 (processAllAnalytics no_date 3 fresh_runner) [] in
  final healthy = returned tt /\
  scrolls_opened (trace healthy) = ["scroll-1"] /\
  scrolls_closed (trace healthy) = ["scroll-1"] /\
  final stale = thrown "unavailable_shards_exception" /\
  scrolls_closed (trace stale) = ["scroll-1"].
Proof. vm_compute. repeat split. Qed.

(** On a store the full pass ends, by [return] or by [throw], when it
    is granted as many turns of its loop as the catalog has pages. *)
Lemma processHits_run (w : World) (Date_getTime : string -> num)
    (hits : list (option AnalyticDocument)) (s : Fields) (h : Trace) :
  let o := run w (for_of hits (processHit Date_getTime) s) h in
  exists x, final o = returned x /\ continuations (trace o) = continuations h.
Proof.
  intros o.
  destruct (@sat_run _ always any_reply any_answer no_scroll
              (fun _ _ => True) (fun _ _ => False) (fun _ => False)
              w (for_of hits (processHit Date_getTime) s) h (any_world w))
    as (new & Ht & Hq & Hf).
  - apply processHits_framed; auto; intros; exact I.
  - fold o in Ht, Hf. destruct (final o) as [x | e |]; try contradiction.
    exists x. split; [reflexivity |].
    unfold continuations. rewrite Ht, filter_app, length_app.
    assert (Hnone : filter is_scroll new = []).
    { clear Ht. induction Hq as [| e new He Hnew IH]; [reflexivity |].
      destruct e as [X c reply | X c x0]; cbn; [| exact IH].
      destruct c; cbn in *; try exact IH. contradiction. }
    rewrite Hnone. reflexivity.
Qed.

Lemma scrollLoop_ends (st : Store) (Date_getTime : string -> num)
    (pages : list ScrollPage) (fuel : nat) :
  catalog st = Some pages ->
  forall hits scrollId s h,
    (hits <> [] -> (1 <= fuel /\ List.length pages <= fuel + continuations h)%nat) ->
    final (run (store_world st) (scrollLoop Date_getTime fuel hits scrollId s) h)
      <> unfinished.
Proof.
  intros Hcat. induction fuel as [| fuel IH]; intros hits scrollId s h Hfuel.
  - destruct hits as [| hit rest]; [discriminate |].
    destruct Hfuel as [H _]; [discriminate | lia].
  - destruct hits as [| hit rest]; [discriminate |].
    destruct Hfuel as [_ Hlen]; [discriminate |].
    cbn [scrollLoop]. unfold bind. rewrite run_bind.
    destruct (processHits_run (store_world st) Date_getTime (hit :: rest) s h)
      as (x & Hf & Hc).
    set (o1 := run (store_world st) (for_of (hit :: rest) (processHit Date_getTime) s) h)
      in *.
    clearbody o1. unfold continue. rewrite Hf.
    destruct (Js.truthy_opt scrollId); [| discriminate].
    cbn [bindR this await run respond store_world store_respond].
    rewrite Hcat.
    destruct (scroll_reply st) as [e |]; [discriminate |].
    cbn [bindR]. apply IH.
    cbn [filter is_scroll List.length continuations].
    fold (continuations (trace o1)). rewrite Hc.
    intros Hhits.
    destruct (Nat.lt_ge_cases (S (continuations h)) (List.length pages)) as [Hlt | Hge].
    + unfold continuations in *. cbn [filter is_scroll List.length]. lia.
    + exfalso. apply Hhits. unfold continuations in Hge.
      rewrite nth_overflow; [reflexivity | exact Hge].
Qed.

Lemma full_pass_ends (st : Store) (Date_getTime : string -> num)
    (pages : list ScrollPage) (fuel : nat) (s : Fields) (h : Trace) :
  catalog st = Some pages -> (List.length pages <= fuel)%nat ->
  final (run (store_world st) (processAllAnalytics Date_getTime fuel s) h)
    <> unfinished.
Proof.
  intros Hcat Hfuel.
  unfold processAllAnalytics, try_catch, bind. rewrite run_catch.
  cbn [bindR this await run respond store_world store_respond].
  change (String.eqb ECS_INDEX_NAME SETTINGS_INDEX_NAME) with false.
  change (String.eqb ECS_INDEX_NAME ECS_INDEX_NAME) with true.
  cbv iota. rewrite Hcat.
  cbn [is_some negb bindR run respond store_world store_respond].
  rewrite Hcat. cbn [bindR]. rewrite run_bind.
  match goal with
  | |- context [run ?w (scrollLoop Date_getTime fuel ?hits ?sid ?s0) ?h0] =>
      pose proof (@scrollLoop_ends st Date_getTime pages fuel Hcat hits sid s0 h0) as Hloop;
      set (o1 := run w (scrollLoop Date_getTime fuel hits sid s0) h0) in *
  end.
  assert (Hends : final o1 <> unfinished).
  { apply Hloop. intros Hhits.
    destruct pages as [| page pages']; [exfalso; apply Hhits; reflexivity |].
    cbn [List.length] in *. lia. }
  clearbody o1. unfold continue, handle.
  destruct (final o1) as [scrollId | e |] eqn:Hfin; [| | contradiction].
  - destruct (Js.truthy_opt scrollId);
      cbn [bindR this await ret run respond store_world store_respond];
      destruct (refresh_reply st); cbn; discriminate.
  - cbn. discriminate.
Qed.

(* ================================================================== *)
(** ** The examples of the specification *)

Example unmapped_scores_zero :
  forall w confidence nameField nameValue channelField channelValue s h,
    final (run w (calculateDataFieldCompletenessScore "unmapped" confidence
                    nameField nameValue channelField channelValue s) h)
      = returned {| completeness_score := dec 0 1;
                    completeness_details :=
                      {| base_score := dec 0 1;
                         status_multiplier := Js.VNumber (dec 0 1);
                         confidence_multiplier := Js.VNumber (dec 0 1);
                         reason := "Status is unmapped" |};
                    completeness_lastDoc := None |}.
Proof. reflexivity. Qed.

Example complete_high_found_scores_five :
  match final (run (store_world found_store)
                 (calculateDataFieldCompletenessScore "complete" "high"
                    "event.code" "4688" (Some "winlog.channel") (Some "Security")
                    fresh_runner) [])
  with
  | returned r => Js.same (completeness_score r) (dec 5 1)
  | _ => False
  end.
Proof. reflexivity. Qed.

Example partial_medium_found_scores_two :
  match final (run (store_world found_store)
                 (calculateDataFieldCompletenessScore "partial" "medium"
                    "event.code" "4688" None None fresh_runner) [])
  with
  | returned r => Js.same (completeness_score r) (dec 2 1)
  | _ => False
  end.
Proof. reflexivity. Qed.

Example timeliness_steps :
  map (fun text => score (calculateTimelinessScore minutes_after (ingested_at text)))
      ["T+4m"; "T+10m"; "T+40m"; "T+90m"; "yesterday"]
    = [dec 5 1; dec 3 1; dec 1 1; dec 0 1; dec 0 1].
Proof. reflexivity. Qed.

Example empty_results_init :
  final (run (store_world empty_store)
           (runSmartScoringWithClient no_date 1 (asCurrentUser "analyst")
              fresh_runner) [])
    = returned {| action := init; count := -1 |}.
Proof. reflexivity. Qed.

Example nothing_due_none :
  let o := run (store_world settled_store)
             (runSmartScoringWithClient no_date 1 (asCurrentUser "analyst")
                fresh_runner) [] in
  final o = returned {| action := none; count := 0 |} /\ write_ids (trace o) = [].
Proof. split; reflexivity. Qed.

(** [trim] strips the white space of Unicode: here a no-break space
    (U+00A0) and an ideographic space (U+3000). *)
Example trim_strips_unicode_space :
  let nbsp := String (ascii_of_N 194) (String (ascii_of_N 160) EmptyString) in
  let wide := String (ascii_of_N 227) (String (ascii_of_N 128)
                (String (ascii_of_N 128) EmptyString)) in
  trim (nbsp ++ " Security" ++ wide) = "Security" /\
  trim "Sécurité " = "Sécurité".
Proof. repeat split. Qed.

Example probe_of_several_channels :
  mustClauses "event.code" "4688" (Some "winlog.channel") (Some "Security, System")
    = [term "event.code" "4688"; terms "winlog.channel" ["Security"; "System"]].
Proof. reflexivity. Qed.

(* ================================================================== *)
(** ** Maps and sorted arrays *)

Lemma JsMap_get_set_same (V : Type) (m : JsMap.t V) (key : string) (v : V) :
  JsMap.get (JsMap.set m key v) key = Some v.
Proof.
  induction m as [| [k w] rest IH]; cbn.
  - rewrite String.eqb_refl. reflexivity.
  - destruct (String.eqb k key) eqn:E; cbn; rewrite E; [reflexivity | exact IH].
Qed.

Lemma JsMap_get_set_other (V : Type) (m : JsMap.t V) (key key' : string) (v : V) :
  key <> key' -> JsMap.get (JsMap.set m key v) key' = JsMap.get m key'.
Proof.
  intros Hne. induction m as [| [k w] rest IH]; cbn.
  - apply String.eqb_neq in Hne. rewrite Hne. reflexivity.
  - destruct (String.eqb k key) eqn:E; cbn.
    + apply String.eqb_eq in E. subst k.
      apply String.eqb_neq in Hne. rewrite Hne. reflexivity.
    + destruct (String.eqb k key'); [reflexivity | exact IH].
Qed.

Lemma JsMap_set_entry (V : Type) (m : JsMap.t V) (key : string) (v : V)
    (entry : string * V) :
  In entry (JsMap.set m key v) -> In entry m \/ entry = (key, v).
Proof.
  induction m as [| [k w] rest IH]; cbn.
  - intros [<- | []]. right. reflexivity.
  - destruct (String.eqb k key) eqn:E; cbn.
    + apply String.eqb_eq in E. subst k.
      intros [<- | H]; [right; reflexivity | left; right; exact H].
    + intros [<- | H]; [left; left; reflexivity |].
      destruct (IH H) as [H' | H']; [left; right; exact H' | right; exact H'].
Qed.

Lemma JsMap_get_In (V : Type) (m : JsMap.t V) (key : string) (v : V) :
  JsMap.get m key = Some v -> In (key, v) m.
Proof.
  induction m as [| [k w] rest IH]; cbn; [discriminate |].
  destruct (String.eqb k key) eqn:E.
  - apply String.eqb_eq in E. subst k. intros H. injection H as <-. left. reflexivity.
  - intros H. right. apply IH. exact H.
Qed.

Lemma JsMap_keys_set (V : Type) (m : JsMap.t V) (key : string) (v : V) :
  map fst (JsMap.set m key v)
    = if existsb (fun k => String.eqb k key) (map fst m) then map fst m
      else (map fst m ++ [key])%list.
Proof.
  induction m as [| [k w] rest IH]; cbn; [reflexivity |].
  destruct (String.eqb k key) eqn:E; cbn; [reflexivity |].
  rewrite IH. destruct (existsb _ (map fst rest)); reflexivity.
Qed.

Lemma JsMap_set_NoDup (V : Type) (m : JsMap.t V) (key : string) (v : V) :
  NoDup (map fst m) -> NoDup (map fst (JsMap.set m key v)).
Proof.
  intros Hm. rewrite JsMap_keys_set.
  destruct (existsb (fun k => String.eqb k key) (map fst m)) eqn:E; [exact Hm |].
  apply NoDup_app; [exact Hm | constructor; [intros [] | constructor] |].
  intros k Hk [Hkey | []]. subst k.
  assert (H : existsb (fun k0 => String.eqb k0 key) (map fst m) = true).
  { apply existsb_exists. exists key. split; [exact Hk | apply String.eqb_refl]. }
  congruence.
Qed.

Lemma JsMap_In_get (V : Type) (m : JsMap.t V) (key : string) (v : V) :
  NoDup (map fst m) -> In (key, v) m -> JsMap.get m key = Some v.
Proof.
  induction m as [| [k w] rest IH]; cbn; [intros _ [] |].
  intros Hnd [H | H].
  - injection H as -> ->. rewrite String.eqb_refl. reflexivity.
  - inversion Hnd as [| ? ? Hk Hrest]; subst.
    destruct (String.eqb k key) eqn:E.
    + apply String.eqb_eq in E. subst k. exfalso. apply Hk.
      apply in_map_iff. exists (key, v). split; [reflexivity | exact H].
    + apply IH; assumption.
Qed.

Lemma insert_sorted_perm (X : Type) (compare : X -> X -> Z) (x : X) (l : list X) :
  Permutation (insert_sorted compare x l) (x :: l).
Proof.
  induction l as [| y rest IH]; cbn; [reflexivity |].
  destruct (compare x y <=? 0); [reflexivity |].
  rewrite IH. apply perm_swap.
Qed.

(** [sort] rearranges, and neither drops nor repeats an element. *)
Lemma sort_perm (X : Type) (compare : X -> X -> Z) (l : list X) :
  Permutation (sort compare l) l.
Proof.
  induction l as [| x rest IH]; cbn; [reflexivity |].
  rewrite insert_sorted_perm. constructor. exact IH.
Qed.

Lemma insert_sorted_sorted (X : Type) (compare : X -> X -> Z) (x : X) (l : list X) :
  (forall a b, compare a b <= 0 \/ compare b a <= 0) ->
  (forall a b c, compare a b <= 0 -> compare b c <= 0 -> compare a c <= 0) ->
  StronglySorted (fun a b => compare a b <= 0) l ->
  StronglySorted (fun a b => compare a b <= 0) (insert_sorted compare x l).
Proof.
  intros Htotal Htrans. induction 1 as [| y rest Hrest IH Hy]; cbn.
  - constructor; constructor.
  - destruct (compare x y <=? 0) eqn:E.
    + apply Z.leb_le in E. constructor; [constructor; assumption |].
      constructor; [exact E |].
      eapply Forall_impl; [| exact Hy]. intros z Hz. eapply Htrans; eassumption.
    + apply Z.leb_gt in E. constructor; [exact IH |].
      eapply Permutation_Forall; [symmetry; apply insert_sorted_perm |].
      constructor; [| exact Hy].
      destruct (Htotal x y) as [H | H]; [lia | exact H].
Qed.

Lemma sort_sorted (X : Type) (compare : X -> X -> Z) (l : list X) :
  (forall a b, compare a b <= 0 \/ compare b a <= 0) ->
  (forall a b c, compare a b <= 0 -> compare b c <= 0 -> compare a c <= 0) ->
  StronglySorted (fun a b => compare a b <= 0) (sort compare l).
Proof.
  intros Htotal Htrans. induction l as [| x rest IH]; cbn; [constructor |].
  apply insert_sorted_sorted; assumption.
Qed.

Lemma sort_In (X : Type) (compare : X -> X -> Z) (l : list X) (x : X) :
  In x (sort compare l) <-> In x l.
Proof.
  split; apply Permutation_in; [apply sort_perm | symmetry; apply sort_perm].
Qed.

Lemma byName_collation (localeCompare : string -> string -> Z) :
  collation localeCompare ->
  (forall a b, byName localeCompare a b <= 0 \/ byName localeCompare b a <= 0) /\
  (forall a b c, byName localeCompare a b <= 0 -> byName localeCompare b c <= 0 ->
                 byName localeCompare a c <= 0).
Proof.
  intros [Htotal Htrans]. unfold byName. split.
  - intros a b. apply Htotal.
  - intros a b c. apply Htrans.
Qed.

Lemma compareUnits_antisym (a b : list N) :
  compareUnits b a = CompOpp (compareUnits a b).
Proof.
  revert b. induction a as [| x a IH]; intros [| y b]; cbn; try reflexivity.
  rewrite (N.compare_antisym x y).
  destruct (x ?= y)%N; cbn; [apply IH | reflexivity | reflexivity].
Qed.

Lemma compareUnits_trans (a b c : list N) :
  compareUnits a b <> Gt -> compareUnits b c <> Gt -> compareUnits a c <> Gt.
Proof.
  revert b c. induction a as [| x a IH]; intros [| y b] [| z c]; cbn;
    try congruence.
  destruct (N.compare_spec x y) as [Exy | Lxy | Gxy]; [| | congruence].
  - subst y. destruct (x ?= z)%N; [apply IH | congruence | congruence].
  - intros _. destruct (N.compare_spec y z) as [Eyz | Lyz | Gyz]; [| | congruence].
    + subst z. intros _. apply N.compare_lt_iff in Lxy. rewrite Lxy. discriminate.
    + intros _. assert (H : (x ?= z)%N = Lt) by (apply N.compare_lt_iff; lia).
      rewrite H. discriminate.
Qed.

Lemma defaultCompare_collation : collation defaultCompare.
Proof.
  unfold defaultCompare. split.
  - intros a b. rewrite (compareUnits_antisym (codeUnits a) (codeUnits b)).
    destruct (compareUnits (codeUnits a) (codeUnits b)); cbn; lia.
  - intros a b c Hab Hbc.
    pose proof (@compareUnits_trans (codeUnits a) (codeUnits b) (codeUnits c)) as H.
    destruct (compareUnits (codeUnits a) (codeUnits b));
      destruct (compareUnits (codeUnits b) (codeUnits c)); try lia;
      destruct (compareUnits (codeUnits a) (codeUnits c)); try lia;
      exfalso; apply H; congruence.
Qed.

(** Code units, not code points: U+FF21 comes after U+1F600, whose
    first code unit is a surrogate. *)
Example sort_by_code_units :
  codeUnits "Ａ" = [65313%N] /\ codeUnits "😀" = [55357%N; 56832%N] /\
  sort defaultCompare ["Ａ"; "😀"; "Windows"] = ["Windows"; "😀"; "Ａ"] /\
  collectAvailablePlatforms
    [("x-mitre-analytic--0001",
      {| StixAnalytic.id := "x-mitre-analytic--0001";
         StixAnalytic.name := "Analytic";
         StixAnalytic.external_references := [];
         StixAnalytic.x_mitre_platforms := Some ["Ａ"; "😀"];
         StixAnalytic.x_mitre_deprecated := None |})]
    = ["😀"; "Ａ"].
Proof. repeat split. Qed.

(* ================================================================== *)
(** ** The matrix *)

Lemma buildMatrix_steps (localeCompare : string -> string -> Z)
    (techniques : list MitreTechnique.t) (availablePlatforms : list string) :
  buildMatrix localeCompare techniques availablePlatforms
    = {| MitreMatrixData.tactics :=
           map (fun tactic =>
                  {| TacticWithTechniques.tactic := tactic;
                     TacticWithTechniques.techniques :=
                       under localeCompare tactic
                         (JsMap.values (techniqueMapOf localeCompare techniques)) |})
               MITRE_TACTICS_ORDER;
         MitreMatrixData.availablePlatforms := availablePlatforms |}.
Proof. reflexivity. Qed.

Lemma with_subtechniques_twice (a b : option (list MitreTechnique.t))
    (t : MitreTechnique.t) :
  MitreTechnique.with_subtechniques a (MitreTechnique.with_subtechniques b t)
    = MitreTechnique.with_subtechniques a t.
Proof. reflexivity. Qed.

Lemma child_of_spec (key : string) (sub : MitreTechnique.t) :
  child_of key sub = true <->
  MitreTechnique.isSubtechnique sub = true /\
  key <> "" /\
  MitreTechnique.parentTechniqueId sub = Some key.
Proof.
  unfold child_of, Js.truthy_opt, Js.truthy.
  destruct (MitreTechnique.isSubtechnique sub); cbn [andb];
    [| split; [discriminate | intros [H _]; discriminate]].
  destruct (MitreTechnique.parentTechniqueId sub) as [p |]; cbn [the andb];
    [| split; [discriminate | intros (_ & _ & H); discriminate]].
  destruct (String.eqb_spec p ""), (String.eqb_spec p key); cbn; split;
    try discriminate; try (intros (_ & H1 & H2); congruence).
  intros _. subst. repeat split; congruence.
Qed.

Lemma addParent_ok (techniques : list MitreTechnique.t) (l : list MitreTechnique.t) :
  forall m,
    (forall t, In t l -> In t techniques /\ MitreTechnique.isSubtechnique t = false) ->
    entries_ok techniques m ->
    entries_ok techniques (fold_left addParent l m).
Proof.
  induction l as [| t0 rest IH]; intros m Hl Hm; cbn [fold_left]; [exact Hm |].
  apply IH; [intros t Ht; apply Hl; right; exact Ht |].
  intros key t Hin. unfold addParent in Hin.
  destruct (JsMap_set_entry _ _ _ _ Hin) as [H | H]; [apply Hm; exact H |].
  injection H as -> ->. destruct (Hl t0) as [H1 H2]; [left; reflexivity |].
  exists t0, []. repeat split; auto.
Qed.

Lemma addChild_ok (techniques : list MitreTechnique.t) (l : list MitreTechnique.t) :
  forall m,
    (forall t, In t l -> In t techniques /\ MitreTechnique.isSubtechnique t = true) ->
    entries_ok techniques m ->
    entries_ok techniques (fold_left addChild l m).
Proof.
  induction l as [| sub rest IH]; intros m Hl Hm; cbn [fold_left]; [exact Hm |].
  apply IH; [intros t Ht; apply Hl; right; exact Ht |].
  unfold addChild.
  destruct (Js.truthy_opt (MitreTechnique.parentTechniqueId sub)) eqn:Htruthy;
    [| exact Hm].
  cbv zeta.
  destruct (JsMap.get m (the (MitreTechnique.parentTechniqueId sub)))
    as [parent |] eqn:Hget; [| exact Hm].
  destruct (MitreTechnique.subtechniques parent) as [subs |] eqn:Hsubs; [| exact Hm].
  intros key t Hin.
  destruct (JsMap_set_entry _ _ _ _ Hin) as [H | H]; [apply Hm; exact H |].
  injection H as -> ->.
  destruct (Hm _ _ (JsMap_get_In _ _ Hget)) as (t0 & subs0 & H1 & H2 & H3 & H4 & H5).
  exists t0, (subs ++ [sub])%list. split; [exact H1 |]. split; [exact H2 |].
  split; [exact H3 |]. rewrite H4 in *. cbn in Hsubs. injection Hsubs as ->.
  split; [reflexivity |].
  apply Forall_app. split; [exact H5 |]. constructor; [| constructor].
  destruct (Hl sub) as [Hs1 Hs2]; [left; reflexivity |].
  split; [exact Hs1 |]. unfold child_of. rewrite Hs2, Htruthy, String.eqb_refl.
  reflexivity.
Qed.

Lemma sortChildren_ok (localeCompare : string -> string -> Z)
    (techniques : list MitreTechnique.t) (m : JsMap.t MitreTechnique.t) :
  entries_ok techniques m ->
  entries_ok techniques (map (sortChildren localeCompare) m).
Proof.
  intros Hm key t Hin. apply in_map_iff in Hin. destruct Hin as ([k v] & E & Hkv).
  unfold sortChildren in E. cbn [fst snd] in E. injection E as <- <-.
  destruct (Hm _ _ Hkv) as (t0 & subs & H1 & H2 & H3 & H4 & H5).
  exists t0, (sort (byName localeCompare) subs).
  split; [exact H1 |]. split; [exact H2 |]. split; [exact H3 |].
  rewrite H4. cbn. split; [reflexivity |].
  eapply Permutation_Forall; [symmetry; apply sort_perm | exact H5].
Qed.

Lemma techniqueMapOf_ok (localeCompare : string -> string -> Z)
    (techniques : list MitreTechnique.t) :
  entries_ok techniques (techniqueMapOf localeCompare techniques).
Proof.
  unfold techniqueMapOf. apply sortChildren_ok. apply addChild_ok.
  - intros t Ht. apply filter_In in Ht. exact Ht.
  - apply addParent_ok; [| intros key t []].
    unfold parents. intros t Ht. apply filter_In in Ht. destruct Ht as [H1 H2].
    split; [exact H1 |]. destruct (MitreTechnique.isSubtechnique t); [discriminate | reflexivity].
Qed.

Lemma fold_addParent_keys (l : list MitreTechnique.t) :
  forall m, NoDup (map fst m) -> NoDup (map fst (fold_left addParent l m)).
Proof.
  induction l as [| t rest IH]; intros m Hm; cbn [fold_left]; [exact Hm |].
  apply IH. apply JsMap_set_NoDup. exact Hm.
Qed.

Lemma fold_addChild_keys (l : list MitreTechnique.t) :
  forall m, NoDup (map fst m) -> NoDup (map fst (fold_left addChild l m)).
Proof.
  induction l as [| t rest IH]; intros m Hm; cbn [fold_left]; [exact Hm |].
  apply IH. unfold addChild.
  destruct (Js.truthy_opt _); [| exact Hm]. cbv zeta.
  destruct (JsMap.get m _) as [parent |]; [| exact Hm].
  destruct (MitreTechnique.subtechniques parent); [| exact Hm].
  apply JsMap_set_NoDup. exact Hm.
Qed.

Lemma techniqueMapOf_keys (localeCompare : string -> string -> Z)
    (techniques : list MitreTechnique.t) :
  NoDup (map fst (techniqueMapOf localeCompare techniques)).
Proof.
  unfold techniqueMapOf. rewrite map_map. cbn [sortChildren fst].
  apply fold_addChild_keys, fold_addParent_keys. constructor.
Qed.

Lemma NoDup_map_filter (X Y : Type) (f : X -> Y) (p : X -> bool) (l : list X) :
  NoDup (map f l) -> NoDup (map f (filter p l)).
Proof.
  induction l as [| x rest IH]; cbn; [auto |].
  intros H. inversion H as [| ? ? Hx Hrest]; subst.
  destruct (p x); cbn; [| apply IH; exact Hrest].
  constructor; [| apply IH; exact Hrest].
  intros Hin. apply Hx. apply in_map_iff in Hin. destruct Hin as (y & E & Hy).
  apply in_map_iff. exists y. split; [exact E |]. apply filter_In in Hy. apply Hy.
Qed.

Lemma buildMatrix_sound (localeCompare : string -> string -> Z)
    (techniques : list MitreTechnique.t) (availablePlatforms : list string) :
  let matrix := buildMatrix localeCompare techniques availablePlatforms in
  map TacticWithTechniques.tactic (MitreMatrixData.tactics matrix)
    = MITRE_TACTICS_ORDER /\
  MitreMatrixData.availablePlatforms matrix = availablePlatforms /\
  Forall (fun column =>
            Forall (listed_ok techniques (TacticWithTechniques.tactic column))
                   (TacticWithTechniques.techniques column) /\
            NoDup (map MitreTechnique.externalId
                       (TacticWithTechniques.techniques column)))
         (MitreMatrixData.tactics matrix).
Proof.
  intros matrix. subst matrix. rewrite buildMatrix_steps.
  cbn [MitreMatrixData.tactics MitreMatrixData.availablePlatforms].
  split; [rewrite map_map; cbn [TacticWithTechniques.tactic]; apply map_id |].
  split; [reflexivity |].
  apply Forall_map. apply Forall_forall. intros tactic _.
  cbn [TacticWithTechniques.tactic TacticWithTechniques.techniques].
  pose proof (techniqueMapOf_ok localeCompare techniques) as Hok.
  pose proof (techniqueMapOf_keys localeCompare techniques) as Hkeys.
  set (m := techniqueMapOf localeCompare techniques) in *. clearbody m.
  unfold under. split.
  - apply Forall_forall. intros t Ht. apply sort_In in Ht.
    apply filter_In in Ht. destruct Ht as [Hin Htactic].
    unfold JsMap.values in Hin. apply in_map_iff in Hin.
    destruct Hin as ([key v] & E & Hkv). cbn in E. subst v.
    destruct (Hok _ _ Hkv) as (t0 & subs & H1 & H2 & H3 & H4 & H5).
    split.
    + apply existsb_exists in Htactic. destruct Htactic as (x & Hx & E).
      apply String.eqb_eq in E. subst x. exact Hx.
    + subst t. cbn. split; [exact H2 |]. split.
      * exists t0. split; [exact H1 |]. exists subs. reflexivity.
      * exists subs. split; [reflexivity |].
        eapply Forall_impl; [| exact H5]. intros sub [Hs1 Hs2].
        apply child_of_spec in Hs2. destruct Hs2 as (Hs2 & _ & Hs3).
        repeat split; congruence.
  - eapply Permutation_NoDup;
      [apply Permutation_map; symmetry; apply sort_perm |].
    apply NoDup_map_filter.
    assert (E : map MitreTechnique.externalId (JsMap.values m) = map fst m).
    { unfold JsMap.values. rewrite map_map. apply map_ext_in. intros [key v] Hkv.
      destruct (Hok _ _ Hkv) as (t0 & subs & H1 & H2 & H3 & H4 & H5).
      subst. reflexivity. }
    rewrite E. exact Hkeys.
Qed.

(** X1. Whatever techniques and platforms [buildMatrix] is given, the
    matrix has one column for each tactic of the taxonomy, in the
    order of the taxonomy, and carries the platforms as given.  Every
    technique a column lists carries the short name of the column's
    tactic, is no subtechnique, copies a technique of the input and
    holds only subtechniques of the input that name its external id as
    their parent; no column lists two techniques under one external
    id. *)
Theorem matrix_of_any_input (localeCompare : string -> string -> Z)
    (techniques : list MitreTechnique.t) (availablePlatforms : list string) :
  let matrix := buildMatrix localeCompare techniques availablePlatforms in
  map TacticWithTechniques.tactic (MitreMatrixData.tactics matrix)
    = MITRE_TACTICS_ORDER /\
  MitreMatrixData.availablePlatforms matrix = availablePlatforms /\
  Forall (fun column =>
            Forall (listed_ok techniques (TacticWithTechniques.tactic column))
                   (TacticWithTechniques.techniques column) /\
            NoDup (map MitreTechnique.externalId
                       (TacticWithTechniques.techniques column)))
         (MitreMatrixData.tactics matrix).
Proof. apply buildMatrix_sound. Qed.

Lemma JsMap_set_fresh (V : Type) (m : JsMap.t V) (key : string) (v : V) :
  ~ In key (map fst m) -> JsMap.set m key v = (m ++ [(key, v)])%list.
Proof.
  induction m as [| [k w] rest IH]; cbn; [reflexivity |].
  intros Hfresh. destruct (String.eqb_spec k key) as [E | E].
  - exfalso. apply Hfresh. left. exact E.
  - rewrite IH; [reflexivity |]. intros H. apply Hfresh. right. exact H.
Qed.

Lemma fold_addParent_distinct (l : list MitreTechnique.t) :
  forall l0,
    NoDup (map MitreTechnique.externalId (l0 ++ l)) ->
    fold_left addParent l (map (entryWith []) l0) = map (entryWith []) (l0 ++ l).
Proof.
  induction l as [| t rest IH]; intros l0 Hnd; cbn [fold_left].
  - rewrite app_nil_r. reflexivity.
  - replace (l0 ++ t :: rest)%list with ((l0 ++ [t]) ++ rest)%list in *
      by (rewrite <- app_assoc; reflexivity).
    rewrite <- IH; [| exact Hnd]. f_equal.
    unfold addParent. rewrite JsMap_set_fresh.
    + rewrite map_app. reflexivity.
    + rewrite map_map. cbn [entryWith fst].
      rewrite map_app, map_app in Hnd. apply NoDup_app_remove_r in Hnd.
      apply NoDup_remove_2 in Hnd. rewrite app_nil_r in Hnd. exact Hnd.
Qed.

Lemma child_of_other (key : string) (sub : MitreTechnique.t) :
  (Js.truthy_opt (MitreTechnique.parentTechniqueId sub) = true ->
   the (MitreTechnique.parentTechniqueId sub) <> key) ->
  child_of key sub = false.
Proof.
  intros H. unfold child_of.
  destruct (MitreTechnique.isSubtechnique sub); [| reflexivity].
  destruct (Js.truthy_opt (MitreTechnique.parentTechniqueId sub)); [| reflexivity].
  cbn [andb]. apply String.eqb_neq. apply H. reflexivity.
Qed.

Lemma entryWith_other (done : list MitreTechnique.t) (sub t0 : MitreTechnique.t) :
  child_of (MitreTechnique.externalId t0) sub = false ->
  entryWith (done ++ [sub]) t0 = entryWith done t0.
Proof.
  intros H. unfold entryWith. rewrite filter_app. cbn [filter]. rewrite H.
  rewrite app_nil_r. reflexivity.
Qed.

Lemma addChild_distinct (done ps : list MitreTechnique.t) (sub : MitreTechnique.t) :
  MitreTechnique.isSubtechnique sub = true ->
  NoDup (map MitreTechnique.externalId ps) ->
  addChild (map (entryWith done) ps) sub = map (entryWith (done ++ [sub])) ps.
Proof.
  intros Hsub Hnd. unfold addChild.
  destruct (Js.truthy_opt (MitreTechnique.parentTechniqueId sub)) eqn:Htruthy.
  - cbv zeta. set (key := the (MitreTechnique.parentTechniqueId sub)).
    induction ps as [| t0 rest IH]; [reflexivity |].
    inversion Hnd as [| ? ? Hfresh Hrest]; subst.
    specialize (IH Hrest).
    cbn [map]. unfold entryWith at 1 3. cbn [JsMap.get].
    destruct (String.eqb (MitreTechnique.externalId t0) key) eqn:Eb.
    + cbn [MitreTechnique.with_subtechniques MitreTechnique.subtechniques JsMap.set].
      rewrite Eb. apply String.eqb_eq in Eb.
      unfold entryWith at 2. rewrite filter_app. cbn [filter].
      assert (Hchild : child_of (MitreTechnique.externalId t0) sub = true).
      { unfold child_of. rewrite Hsub, Htruthy. fold key. rewrite Eb.
        apply String.eqb_refl. }
      rewrite Hchild. f_equal.
      apply map_ext_in. intros t Ht. symmetry. apply entryWith_other.
      apply child_of_other. intros _ Hkey. apply Hfresh.
      apply in_map_iff. exists t. split; [| exact Ht]. fold key in Hkey. congruence.
    + assert (Hhead : entryWith (done ++ [sub]) t0
                      = (MitreTechnique.externalId t0,
                         MitreTechnique.with_subtechniques
                           (Some (filter (child_of (MitreTechnique.externalId t0)) done))
                           t0)).
      { apply entryWith_other. apply child_of_other. intros _ H.
        apply String.eqb_neq in Eb. apply Eb. symmetry. exact H. }
      rewrite Hhead.
      destruct (JsMap.get (map (entryWith done) rest) key) as [parent |];
        [destruct (MitreTechnique.subtechniques parent) as [subs |] |].
      * cbn [JsMap.set]. rewrite Eb. f_equal. exact IH.
      * f_equal. exact IH.
      * f_equal. exact IH.
  - apply map_ext_in. intros t Ht. symmetry. apply entryWith_other.
    apply child_of_other. intros H. congruence.
Qed.

Lemma fold_addChild_distinct (ps : list MitreTechnique.t) (l : list MitreTechnique.t) :
  NoDup (map MitreTechnique.externalId ps) ->
  Forall (fun sub => MitreTechnique.isSubtechnique sub = true) l ->
  forall done,
    fold_left addChild l (map (entryWith done) ps) = map (entryWith (done ++ l)) ps.
Proof.
  intros Hnd. induction 1 as [| sub rest Hsub Hrest IH]; intros done; cbn [fold_left].
  - rewrite app_nil_r. reflexivity.
  - rewrite addChild_distinct by assumption. rewrite IH, <- app_assoc. reflexivity.
Qed.

Lemma filter_child_of (key : string) (techniques : list MitreTechnique.t) :
  filter (child_of key) (filter MitreTechnique.isSubtechnique techniques)
    = filter (child_of key) techniques.
Proof.
  induction techniques as [| t rest IH]; cbn; [reflexivity |].
  destruct (MitreTechnique.isSubtechnique t) eqn:E; cbn; rewrite IH.
  - reflexivity.
  - unfold child_of. rewrite E. reflexivity.
Qed.

(** X2. When the parent techniques have distinct external ids,
    [buildMatrix] returns the table: under each tactic, by name, the
    parent techniques that carry its short name, each with the
    subtechniques that name its external id as their parent, by name
    and otherwise in the order of the input.  A subtechnique whose
    parent is not among the techniques appears nowhere. *)
Theorem matrix_of_distinct_ids (localeCompare : string -> string -> Z)
    (techniques : list MitreTechnique.t) (availablePlatforms : list string) :
  NoDup (map MitreTechnique.externalId (parents techniques)) ->
  buildMatrix localeCompare techniques availablePlatforms
    = matrixTable localeCompare techniques availablePlatforms.
Proof.
  intros Hnd. rewrite buildMatrix_steps. unfold matrixTable. f_equal.
  apply map_ext. intros tactic. f_equal. f_equal.
  unfold techniqueMapOf, JsMap.values.
  change (fold_left addParent (parents techniques) [])
    with (fold_left addParent (parents techniques) (map (entryWith []) [])).
  rewrite (fold_addParent_distinct (parents techniques) []) by exact Hnd.
  cbn [app].
  rewrite fold_addChild_distinct; [| exact Hnd |].
  - rewrite !map_map. apply map_ext. intros t0.
    cbn. rewrite filter_child_of. reflexivity.
  - apply Forall_forall. intros sub Hsub. apply filter_In in Hsub. apply Hsub.
Qed.

Lemma matrix_of_distinct_ids_witness :
  NoDup (map MitreTechnique.externalId (parents sample_techniques)) /\
  buildMatrix byteCompare sample_techniques ["Windows"]
    = matrixTable byteCompare sample_techniques ["Windows"].
Proof.
  assert (H : NoDup (map MitreTechnique.externalId (parents sample_techniques))).
  { vm_compute. constructor; [intros [] | constructor]. }
  split; [exact H |].
  apply (matrix_of_distinct_ids byteCompare sample_techniques ["Windows"] H).
Defined.

Lemma sortChildren_sorted (localeCompare : string -> string -> Z)
    (m : JsMap.t MitreTechnique.t) (key : string) (t : MitreTechnique.t) :
  collation localeCompare ->
  (forall k v, In (k, v) m -> exists t0 subs,
      v = MitreTechnique.with_subtechniques (Some subs) t0) ->
  In (key, t) (map (sortChildren localeCompare) m) ->
  exists subs,
    MitreTechnique.subtechniques t = Some subs /\ listed_by_name localeCompare subs.
Proof.
  intros Hc Hm Hin. apply in_map_iff in Hin. destruct Hin as ([k v] & E & Hkv).
  destruct (Hm _ _ Hkv) as (t0 & subs & ->).
  unfold sortChildren in E. cbn in E. injection E as <- <-.
  eexists. split; [reflexivity |].
  destruct (byName_collation Hc) as [Htotal Htrans].
  apply sort_sorted; assumption.
Qed.

(** X3. With a [localeCompare] that orders any two names and is
    transitive, the techniques of every column of the matrix are in
    the order of their names, and so are the subtechniques of each of
    them. *)
Theorem matrix_listed_by_name (localeCompare : string -> string -> Z)
    (techniques : list MitreTechnique.t) (availablePlatforms : list string) :
  collation localeCompare ->
  Forall (fun column =>
            listed_by_name localeCompare (TacticWithTechniques.techniques column) /\
            Forall (fun t => exists subs,
                        MitreTechnique.subtechniques t = Some subs /\
                        listed_by_name localeCompare subs)
                   (TacticWithTechniques.techniques column))
         (MitreMatrixData.tactics
            (buildMatrix localeCompare techniques availablePlatforms)).
Proof.
  intros Hc. rewrite buildMatrix_steps. cbn [MitreMatrixData.tactics].
  apply Forall_map. apply Forall_forall. intros tactic _.
  cbn [TacticWithTechniques.techniques]. unfold under.
  destruct (byName_collation Hc) as [Htotal Htrans]. split.
  - apply sort_sorted; assumption.
  - apply Forall_forall. intros t Ht. apply sort_In in Ht.
    apply filter_In in Ht. destruct Ht as [Hin _].
    unfold JsMap.values in Hin. apply in_map_iff in Hin.
    destruct Hin as ([key v] & E & Hkv). cbn in E. subst v.
    unfold techniqueMapOf in Hkv.
    eapply sortChildren_sorted; [exact Hc | | exact Hkv].
    intros k v Hv.
    assert (Hok : entries_ok techniques
                    (fold_left addChild
                       (filter MitreTechnique.isSubtechnique techniques)
                       (fold_left addParent (parents techniques) []))).
    { apply addChild_ok.
      - intros t1 Ht1. apply filter_In in Ht1. exact Ht1.
      - apply addParent_ok; [| intros ? ? []].
        unfold parents. intros t1 Ht1. apply filter_In in Ht1.
        destruct Ht1 as [H1 H2]. split; [exact H1 |].
        destruct (MitreTechnique.isSubtechnique t1); [discriminate | reflexivity]. }
    destruct (Hok _ _ Hv) as (t0 & subs & _ & _ & _ & H4 & _).
    exists t0, subs. exact H4.
Qed.

Lemma matrix_listed_by_name_witness :
  collation byteCompare /\
  Forall (fun column =>
            listed_by_name byteCompare (TacticWithTechniques.techniques column) /\
            Forall (fun t => exists subs,
                        MitreTechnique.subtechniques t = Some subs /\
                        listed_by_name byteCompare subs)
                   (TacticWithTechniques.techniques column))
         (MitreMatrixData.tactics
            (buildMatrix byteCompare sample_techniques ["Windows"])).
Proof.
  split; [exact defaultCompare_collation |].
  apply (matrix_listed_by_name sample_techniques ["Windows"] defaultCompare_collation).
Defined.

(* ================================================================== *)
(** ** From attack patterns to techniques *)

Lemma split_cons (sep : ascii) (s : string) : split sep s <> [].
Proof.
  destruct s as [| c rest]; cbn; [discriminate |].
  destruct (Ascii.eqb c sep); [discriminate |].
  destruct (split sep rest); discriminate.
Qed.

Lemma before_String (c a : ascii) (s : string) :
  before c (String a s) = if Ascii.eqb a c then EmptyString else String a (before c s).
Proof.
  unfold before. cbn [split]. destruct (Ascii.eqb a c); [reflexivity |].
  pose proof (split_cons c s) as H.
  destruct (split c s); [contradiction | reflexivity].
Qed.

(** The part of [s] before the first [c]. *)
Lemma before_spec (c : ascii) (s : string) :
  includes c s = true ->
  includes c (before c s) = false /\
  exists rest, s = before c s ++ String c rest.
Proof.
  induction s as [| a s IH]; cbn [includes]; [discriminate |].
  rewrite before_String. destruct (Ascii.eqb a c) eqn:E; cbn [orb].
  - intros _. apply Ascii.eqb_eq in E. subst a.
    split; [reflexivity |]. exists s. reflexivity.
  - intros H. destruct (IH H) as [H1 [rest H2]]. split.
    + cbn [includes]. rewrite E, H1. reflexivity.
    + exists rest. cbn. rewrite <- H2. reflexivity.
Qed.

(** X4. [convertToTechniques] makes one technique for each attack
    pattern, in the order of the patterns, with the id and the name of
    the pattern.  The parent id of a technique is the part of its
    external id before the first dot, and only a subtechnique whose
    external id has a dot gets one.  No technique has subtechniques or
    detection strategies yet. *)
Theorem techniques_of_patterns (attackPatterns : list StixAttackPattern.t) :
  let techniques := convertToTechniques attackPatterns in
  map MitreTechnique.id techniques = map StixAttackPattern.id attackPatterns /\
  map MitreTechnique.name techniques = map StixAttackPattern.name attackPatterns /\
  Forall parent_id_ok techniques /\
  Forall (fun t => MitreTechnique.subtechniques t = None /\
                   MitreTechnique.detectionStrategies t = None) techniques.
Proof.
  cbv zeta. unfold convertToTechniques. rewrite !map_map. cbn.
  split; [reflexivity |]. split; [reflexivity |]. split.
  - apply Forall_map. apply Forall_forall. intros pattern _.
    unfold parent_id_ok. cbn.
    destruct (flag (StixAttackPattern.x_mitre_is_subtechnique pattern));
      cbn [andb]; [| left; reflexivity].
    destruct (includes "." (externalIdOf _)) eqn:E; [| right; reflexivity].
    split; [reflexivity |]. apply before_spec. exact E.
  - apply Forall_map. apply Forall_forall. intros pattern _. cbn. split; reflexivity.
Qed.

(* ================================================================== *)
(** ** Linking detection strategies *)

Lemma findLastIndex_None (X : Type) (p : X -> bool) (l : list X) :
  findLastIndex p l = None -> forall x, In x l -> p x = false.
Proof.
  induction l as [| y rest IH]; cbn; [intros _ x [] |].
  destruct (findLastIndex p rest); [discriminate |].
  destruct (p y) eqn:E; [discriminate |].
  intros _ x [<- | Hx]; [exact E | apply IH; [reflexivity | exact Hx]].
Qed.

Lemma findLastIndex_Some (X : Type) (p : X -> bool) (l : list X) (i : nat) :
  findLastIndex p l = Some i -> exists x, In x l /\ p x = true.
Proof.
  revert i. induction l as [| y rest IH]; cbn; [discriminate |].
  intros i. destruct (findLastIndex p rest) as [j |].
  - intros _. destruct (IH j eq_refl) as (x & Hx & Hp).
    exists x. split; [right; exact Hx | exact Hp].
  - destruct (p y) eqn:E; [| discriminate].
    intros _. exists y. split; [left; reflexivity | exact E].
Qed.

Lemma withStrategies_snoc (ds : list MitreDetectionStrategy.t)
    (linked : MitreDetectionStrategy.t) (t : MitreTechnique.t) :
  MitreTechnique.with_detectionStrategies
    (Some (match MitreTechnique.detectionStrategies (withStrategies ds t) with
           | Some ds0 => (ds0 ++ [linked])%list
           | None => [linked]
           end))
    (withStrategies ds t)
  = withStrategies (ds ++ [linked])%list t.
Proof.
  unfold withStrategies. destruct ds as [| d ds]; reflexivity.
Qed.

(** One relationship, on techniques with distinct ids. *)
Lemma link_one (detectionStrategies : JsMap.t StixDetectionStrategy.t)
    (analyticsMap : JsMap.t StixAnalytic.t)
    (done : list StixRelationship.t) (relationship : StixRelationship.t)
    (techniques : list MitreTechnique.t) :
  NoDup (map MitreTechnique.id techniques) ->
  linkDetectionStrategiesToTechniques
    (map (fun t => withStrategies
                     (strategiesFor detectionStrategies analyticsMap done
                        (MitreTechnique.id t)) t)
         techniques)
    detectionStrategies analyticsMap [relationship]
  = map (fun t => withStrategies
                    (strategiesFor detectionStrategies analyticsMap
                       (done ++ [relationship])%list (MitreTechnique.id t)) t)
        techniques.
Proof.
  intros Hnd. unfold linkDetectionStrategiesToTechniques. cbn [fold_left].
  set (F := fun rels t =>
              withStrategies
                (strategiesFor detectionStrategies analyticsMap rels
                   (MitreTechnique.id t)) t).
  change (match
             findLastIndex
               (fun technique =>
                  String.eqb (MitreTechnique.id technique)
                    (StixRelationship.target_ref relationship))
               (map (F done) techniques),
             JsMap.get detectionStrategies (StixRelationship.source_ref relationship)
           with
           | Some i, Some strategy =>
               update_at i
                 (fun technique =>
                    MitreTechnique.with_detectionStrategies
                      (Some (match MitreTechnique.detectionStrategies technique with
                             | Some ds => (ds ++ [linkedStrategy analyticsMap strategy])%list
                             | None => [linkedStrategy analyticsMap strategy]
                             end))
                      technique)
                 (map (F done) techniques)
           | _, _ => map (F done) techniques
           end = map (F (done ++ [relationship])%list) techniques).
  assert (Hstep : forall t,
             F (done ++ [relationship])%list t
             = if String.eqb (MitreTechnique.id t)
                             (StixRelationship.target_ref relationship)
               then match JsMap.get detectionStrategies
                            (StixRelationship.source_ref relationship) with
                    | Some strategy =>
                        withStrategies
                          (strategiesFor detectionStrategies analyticsMap done
                             (MitreTechnique.id t)
                           ++ [linkedStrategy analyticsMap strategy])%list t
                    | None => F done t
                    end
               else F done t).
  { intros t. unfold F, strategiesFor. rewrite flat_map_app. cbn [flat_map].
    destruct (String.eqb (MitreTechnique.id t) (StixRelationship.target_ref relationship));
      [| rewrite !app_nil_r; reflexivity].
    destruct (JsMap.get detectionStrategies (StixRelationship.source_ref relationship));
      rewrite !app_nil_r; reflexivity. }
  destruct (JsMap.get detectionStrategies (StixRelationship.source_ref relationship))
    as [strategy |] eqn:Hget.
  - induction techniques as [| t rest IH]; [reflexivity |].
    inversion Hnd as [| ? ? Hfresh Hrest]; subst. specialize (IH Hrest).
    cbn [map findLastIndex].
    destruct (findLastIndex _ (map (F done) rest)) as [i |] eqn:Hfind.
    + cbn [update_at]. rewrite IH. f_equal.
      rewrite Hstep.
      destruct (findLastIndex_Some _ _ Hfind) as (x & Hx & Hp).
      apply in_map_iff in Hx. destruct Hx as (t1 & <- & Ht1).
      apply String.eqb_eq in Hp.
      destruct (String.eqb_spec (MitreTechnique.id t)
                  (StixRelationship.target_ref relationship)) as [E | E];
        [| reflexivity].
      exfalso. apply Hfresh. apply in_map_iff. exists t1. split; [| exact Ht1].
      rewrite E. unfold F in Hp. destruct (strategiesFor _ _ _ _) in Hp; exact Hp.
    + assert (Hrest' : map (F (done ++ [relationship])%list) rest = map (F done) rest).
      { apply map_ext_in. intros t1 Ht1. rewrite Hstep.
        pose proof (findLastIndex_None _ _ Hfind (F done t1)) as Hp.
        assert (Hid : MitreTechnique.id (F done t1) = MitreTechnique.id t1).
        { unfold F. destruct (strategiesFor _ _ _ _); reflexivity. }
        cbv beta in Hp. rewrite Hid in Hp. rewrite Hp; [reflexivity |].
        apply in_map_iff. exists t1. split; [reflexivity | exact Ht1]. }
      assert (Hid : MitreTechnique.id (F done t) = MitreTechnique.id t).
      { unfold F. destruct (strategiesFor _ _ _ _); reflexivity. }
      rewrite Hid, Hstep.
      destruct (String.eqb (MitreTechnique.id t)
                  (StixRelationship.target_ref relationship)).
      * cbn [update_at]. rewrite Hrest'. f_equal. apply withStrategies_snoc.
      * rewrite Hrest'. reflexivity.
  - assert (E : map (F (done ++ [relationship])%list) techniques = map (F done) techniques).
    { apply map_ext. intros t. rewrite Hstep.
      destruct (String.eqb _ _); reflexivity. }
    rewrite E. destruct (findLastIndex _ _); reflexivity.
Qed.

Lemma link_app (detectionStrategies : JsMap.t StixDetectionStrategy.t)
    (analyticsMap : JsMap.t StixAnalytic.t) (a b : list StixRelationship.t)
    (techniques : list MitreTechnique.t) :
  linkDetectionStrategiesToTechniques techniques detectionStrategies analyticsMap
    (a ++ b)%list
  = linkDetectionStrategiesToTechniques
      (linkDetectionStrategiesToTechniques techniques detectionStrategies
         analyticsMap a)
      detectionStrategies analyticsMap b.
Proof. unfold linkDetectionStrategiesToTechniques. apply fold_left_app. Qed.

(** X5. On techniques with distinct ids and no detection strategies
    yet, [linkDetectionStrategiesToTechniques] gives each technique
    one strategy for each relationship that points at it from a
    strategy of the map, in the order of the relationships, and leaves
    the field undefined on a technique that no such relationship
    points at.  A relationship from a strategy or to a technique that
    is not there adds nothing; the techniques keep their order and
    their other fields. *)
Theorem strategies_of_relationships
    (detectionStrategies : JsMap.t StixDetectionStrategy.t)
    (analyticsMap : JsMap.t StixAnalytic.t)
    (detectsRelationships : list StixRelationship.t)
    (techniques : list MitreTechnique.t) :
  NoDup (map MitreTechnique.id techniques) ->
  Forall (fun t => MitreTechnique.detectionStrategies t = None) techniques ->
  linkDetectionStrategiesToTechniques techniques detectionStrategies analyticsMap
    detectsRelationships
  = map (fun t =>
           withStrategies
             (strategiesFor detectionStrategies analyticsMap detectsRelationships
                (MitreTechnique.id t)) t)
        techniques.
Proof.
  intros Hnd Hnone.
  assert (Hstart : techniques
                   = map (fun t => withStrategies
                                     (strategiesFor detectionStrategies analyticsMap []
                                        (MitreTechnique.id t)) t)
                         techniques).
  { symmetry. rewrite <- (map_id techniques) at 2. apply map_ext_in. intros t Ht.
    rewrite Forall_forall in Hnone. specialize (Hnone t Ht).
    destruct t. cbn in *. subst. reflexivity. }
  rewrite Hstart at 1. clear Hstart.
  change detectsRelationships with ([] ++ detectsRelationships)%list at 2.
  generalize (@nil StixRelationship.t) as done.
  induction detectsRelationships as [| r rest IH]; intros done.
  - rewrite app_nil_r. reflexivity.
  - change (r :: rest) with ([r] ++ rest)%list.
    rewrite link_app, link_one by exact Hnd.
    rewrite IH, <- app_assoc. reflexivity.
Qed.

Lemma strategies_of_relationships_witness :
  NoDup (map MitreTechnique.id sample_techniques) /\
  Forall (fun t => MitreTechnique.detectionStrategies t = None) sample_techniques /\
  map (fun t => option_map (map MitreDetectionStrategy.externalId)
                  (MitreTechnique.detectionStrategies t))
      (linkDetectionStrategiesToTechniques sample_techniques
         (extractDetectionStrategies sample_bundle) (extractAnalytics sample_bundle)
         (extractDetectsRelationships sample_bundle))
    = [None; Some ["DET0455"]].
Proof.
  assert (Hids : NoDup (map MitreTechnique.id sample_techniques)).
  { vm_compute. constructor; [intros [H | []]; discriminate H |].
    constructor; [intros [] | constructor]. }
  assert (Hnone : Forall (fun t => MitreTechnique.detectionStrategies t = None)
                         sample_techniques).
  { vm_compute. repeat constructor. }
  split; [exact Hids |]. split; [exact Hnone |].
  rewrite (strategies_of_relationships (extractDetectionStrategies sample_bundle)
             (extractAnalytics sample_bundle)
             (extractDetectsRelationships sample_bundle) Hids Hnone).
  reflexivity.
Defined.

(* ================================================================== *)
(** ** The platforms *)

Lemma set_add_In (platformsSet : list string) (platform p : string) :
  In p (set_add platformsSet platform) <-> In p platformsSet \/ p = platform.
Proof.
  unfold set_add. destruct (existsb (String.eqb platform) platformsSet) eqn:E.
  - split; [auto |]. intros [H | ->]; [exact H |].
    apply existsb_exists in E. destruct E as (x & Hx & Hp).
    apply String.eqb_eq in Hp. subst x. exact Hx.
  - rewrite in_app_iff. cbn. intuition.
Qed.

Lemma set_add_NoDup (platformsSet : list string) (platform : string) :
  NoDup platformsSet -> NoDup (set_add platformsSet platform).
Proof.
  intros Hnd. unfold set_add.
  destruct (existsb (String.eqb platform) platformsSet) eqn:E; [exact Hnd |].
  apply NoDup_app; [exact Hnd | constructor; [intros [] | constructor] |].
  intros p Hp [Hq | []]. subst p.
  assert (H : existsb (String.eqb platform) platformsSet = true).
  { apply existsb_exists. exists platform. split; [exact Hp | apply String.eqb_refl]. }
  congruence.
Qed.

Lemma fold_set_add_In (platforms : list string) :
  forall platformsSet p,
    In p (fold_left set_add platforms platformsSet) <->
    In p platformsSet \/ In p platforms.
Proof.
  induction platforms as [| q rest IH]; intros platformsSet p; cbn [fold_left].
  - cbn. intuition.
  - rewrite IH, set_add_In. cbn. intuition.
Qed.

Lemma fold_set_add_NoDup (platforms : list string) :
  forall platformsSet,
    NoDup platformsSet -> NoDup (fold_left set_add platforms platformsSet).
Proof.
  induction platforms as [| q rest IH]; intros platformsSet Hnd; cbn [fold_left];
    [exact Hnd |].
  apply IH. apply set_add_NoDup. exact Hnd.
Qed.

(** X6. [collectAvailablePlatforms] returns every platform of the
    analytics once, in the default order of [Array.prototype.sort],
    the one of the UTF-16 code units of the strings:
    the list has no duplicates, is sorted, holds platforms of the
    analytics only and misses none of them. *)
Theorem platforms_of_analytics (analyticsMap : JsMap.t StixAnalytic.t) :
  let availablePlatforms := collectAvailablePlatforms analyticsMap in
  NoDup availablePlatforms /\
  StronglySorted (fun a b => defaultCompare a b <= 0) availablePlatforms /\
  Forall (platform_of analyticsMap) availablePlatforms /\
  Forall (fun analytic =>
            Forall (fun platform => In platform availablePlatforms)
                   (match StixAnalytic.x_mitre_platforms analytic with
                    | Some platforms => platforms
                    | None => []
                    end))
         (JsMap.values analyticsMap).
Proof.
  cbv zeta. unfold collectAvailablePlatforms.
  set (collected := fold_left _ (JsMap.values analyticsMap) []).
  assert (Hin : forall p, In p collected <-> platform_of analyticsMap p).
  { intros p. unfold collected, platform_of.
    generalize (JsMap.values analyticsMap) as l. intros l.
    assert (H : forall acc,
               In p (fold_left
                       (fun platformsSet analytic =>
                          match StixAnalytic.x_mitre_platforms analytic with
                          | Some platforms => fold_left set_add platforms platformsSet
                          | None => platformsSet
                          end) l acc) <->
               In p acc \/
               exists analytic platforms,
                 In analytic l /\
                 StixAnalytic.x_mitre_platforms analytic = Some platforms /\
                 In p platforms).
    { induction l as [| a rest IH]; intros acc; cbn [fold_left].
      - split; [auto |]. intros [H | (x & ps & [] & _)]. exact H.
      - rewrite IH. destruct (StixAnalytic.x_mitre_platforms a) as [ps |] eqn:E.
        + rewrite fold_set_add_In. split.
          * intros [[H | H] | (x & ps' & H1 & H2 & H3)]; [left; exact H | |].
            -- right. exists a, ps. split; [left; reflexivity | split; assumption].
            -- right. exists x, ps'. split; [right; exact H1 | split; assumption].
          * intros [H | (x & ps' & [<- | H1] & H2 & H3)].
            -- left. left. exact H.
            -- left. right. congruence.
            -- right. exists x, ps'. repeat split; assumption.
        + split.
          * intros [H | (x & ps' & H1 & H2 & H3)]; [left; exact H |].
            right. exists x, ps'. split; [right; exact H1 | split; assumption].
          * intros [H | (x & ps' & [<- | H1] & H2 & H3)]; [left; exact H | congruence |].
            right. exists x, ps'. repeat split; assumption. }
    rewrite H. cbn. intuition. }
  assert (Hnd : NoDup collected).
  { unfold collected. generalize (JsMap.values analyticsMap) as l.
    assert (H : forall (l : list StixAnalytic.t) acc, NoDup acc ->
               NoDup (fold_left
                        (fun platformsSet analytic =>
                           match StixAnalytic.x_mitre_platforms analytic with
                           | Some platforms => fold_left set_add platforms platformsSet
                           | None => platformsSet
                           end) l acc)).
    { induction l as [| a rest IH]; intros acc Hacc; cbn [fold_left]; [exact Hacc |].
      apply IH. destruct (StixAnalytic.x_mitre_platforms a); [| exact Hacc].
      apply fold_set_add_NoDup. exact Hacc. }
    intros l. apply H. constructor. }
  clearbody collected.
  split; [eapply Permutation_NoDup; [symmetry; apply sort_perm | exact Hnd] |].
  split; [apply sort_sorted; apply defaultCompare_collation |].
  split.
  - apply Forall_forall. intros p Hp. apply Hin. apply sort_In in Hp. exact Hp.
  - apply Forall_forall. intros analytic Ha.
    destruct (StixAnalytic.x_mitre_platforms analytic) as [ps |] eqn:E; [| constructor].
    apply Forall_forall. intros p Hp. apply sort_In. apply Hin.
    exists analytic, ps. repeat split; assumption.
Qed.

(* ================================================================== *)
(** ** The cache of the parser *)

(** X7. [getMatrix] parses on the first call only.  When the parse
    returns a matrix, that matrix is cached and a later call returns
    it with the cache as it is, whatever the file has become; after
    [clearCache] a call behaves as the first one.  When the parse
    throws, nothing is cached. *)
Theorem matrix_is_parsed_once (localeCompare : string -> string -> Z)
    (JSON_parse : string -> Parsed) (file later : File) :
  let first := getMatrix localeCompare JSON_parse None file in
  match fst first with
  | Ok matrix =>
      parseMatrix localeCompare JSON_parse file = Ok matrix /\
      getMatrix localeCompare JSON_parse (snd first) later = (Ok matrix, snd first) /\
      getMatrix localeCompare JSON_parse (clearCache (snd first)) later
        = getMatrix localeCompare JSON_parse None later
  | Err e =>
      parseMatrix localeCompare JSON_parse file = Err e /\ snd first = None
  end.
Proof.
  cbv zeta. unfold getMatrix.
  destruct (parseMatrix localeCompare JSON_parse file) as [matrix | e];
    cbn; repeat split.
Qed.

(** X8. When the bundle cannot be loaded (the file is missing or
    unreadable, or its text is no JSON), the first [getMatrix] returns
    the empty matrix and caches it: a later call returns the empty
    matrix as well, whatever the file has become. *)
Theorem failed_load_is_cached (localeCompare : string -> string -> Z)
    (JSON_parse : string -> Parsed) (file later : File) :
  load_fails JSON_parse file ->
  let first := getMatrix localeCompare JSON_parse None file in
  first = (Ok emptyMatrix, Some emptyMatrix) /\
  getMatrix localeCompare JSON_parse (snd first) later
    = (Ok emptyMatrix, Some emptyMatrix).
Proof.
  intros Hfail. cbv zeta.
  assert (Hparse : parseMatrix localeCompare JSON_parse file = Ok emptyMatrix).
  { unfold parseMatrix, loadStixData.
    destruct file as [| e | rawData]; try reflexivity.
    destruct Hfail as [e He]. rewrite He. reflexivity. }
  assert (Hfirst : getMatrix localeCompare JSON_parse None file
                   = (Ok emptyMatrix, Some emptyMatrix)).
  { unfold getMatrix. rewrite Hparse. reflexivity. }
  rewrite Hfirst. split; reflexivity.
Qed.

Lemma failed_load_is_cached_witness :
  load_fails rejecting_parser (content "{") /\
  getMatrix byteCompare rejecting_parser None (content "{")
    = (Ok emptyMatrix, Some emptyMatrix) /\
  getMatrix byteCompare rejecting_parser (Some emptyMatrix) (content "{}")
    = (Ok emptyMatrix, Some emptyMatrix).
Proof.
  assert (H : load_fails rejecting_parser (content "{")).
  { exists "SyntaxError: Unexpected token". reflexivity. }
  split; [exact H |].
  destruct (failed_load_is_cached byteCompare rejecting_parser (content "{")
              (content "{}") H) as [Hfirst Hlater].
  split; [exact Hfirst |]. rewrite Hfirst in Hlater. exact Hlater.
Defined.

(* ================================================================== *)
(** ** From the bundle to the matrix *)

Lemma update_at_map (X Y : Type) (f : X -> Y) (g : X -> X) (i : nat) (l : list X) :
  (forall x, f (g x) = f x) -> map f (update_at i g l) = map f l.
Proof.
  intros Hg. revert i. induction l as [| x rest IH]; intros i; [destruct i; reflexivity |].
  destruct i as [| j]; cbn; [rewrite Hg | rewrite IH]; reflexivity.
Qed.

(** Linking changes nothing but the detection strategies. *)
Lemma link_frame (detectionStrategies : JsMap.t StixDetectionStrategy.t)
    (analyticsMap : JsMap.t StixAnalytic.t)
    (detectsRelationships : list StixRelationship.t) :
  forall techniques,
    map (MitreTechnique.with_detectionStrategies None)
        (linkDetectionStrategiesToTechniques techniques detectionStrategies
           analyticsMap detectsRelationships)
    = map (MitreTechnique.with_detectionStrategies None) techniques.
Proof.
  unfold linkDetectionStrategiesToTechniques.
  induction detectsRelationships as [| r rest IH]; intros techniques; cbn [fold_left];
    [reflexivity |].
  rewrite IH.
  destruct (findLastIndex _ techniques) as [i |]; [| reflexivity].
  destruct (JsMap.get detectionStrategies _) as [strategy |]; [| reflexivity].
  apply update_at_map. intros x. reflexivity.
Qed.

Lemma link_ids (detectionStrategies : JsMap.t StixDetectionStrategy.t)
    (analyticsMap : JsMap.t StixAnalytic.t)
    (detectsRelationships : list StixRelationship.t)
    (techniques : list MitreTechnique.t) :
  map MitreTechnique.id
      (linkDetectionStrategiesToTechniques techniques detectionStrategies
         analyticsMap detectsRelationships)
  = map MitreTechnique.id techniques.
Proof.
  pose proof (link_frame detectionStrategies analyticsMap detectsRelationships
                techniques) as H.
  apply (f_equal (map MitreTechnique.id)) in H. rewrite !map_map in H. exact H.
Qed.

Lemma convert_ids (attackPatterns : list StixAttackPattern.t) :
  map MitreTechnique.id (convertToTechniques attackPatterns)
    = map StixAttackPattern.id attackPatterns.
Proof. unfold convertToTechniques. rewrite map_map. reflexivity. Qed.

(** X9. When the bundle loads, [parseMatrix] returns a matrix with
    the columns of the taxonomy, in which every technique and every
    subtechnique under it has the id of an attack pattern of the
    bundle that is neither deprecated nor revoked and has a name and
    external references. *)
Theorem parsed_matrix_techniques (localeCompare : string -> string -> Z)
    (JSON_parse : string -> Parsed) (file : File) (objects : list StixObject.t) :
  loadStixData JSON_parse file = Some (bundle objects) ->
  exists matrix,
    parseMatrix localeCompare JSON_parse file = Ok matrix /\
    map TacticWithTechniques.tactic (MitreMatrixData.tactics matrix)
      = MITRE_TACTICS_ORDER /\
    Forall (fun column =>
              Forall (fun t =>
                        from_pattern objects t /\
                        exists subs,
                          MitreTechnique.subtechniques t = Some subs /\
                          Forall (from_pattern objects) subs)
                     (TacticWithTechniques.techniques column))
           (MitreMatrixData.tactics matrix).
Proof.
  intros Hload. unfold parseMatrix. rewrite Hload. cbv zeta.
  eexists. split; [reflexivity |].
  set (techniques := linkDetectionStrategiesToTechniques _ _ _ _).
  assert (Hfrom : forall t, In t techniques -> from_pattern objects t).
  { intros t Ht. apply (in_map MitreTechnique.id) in Ht.
    unfold techniques in Ht. rewrite link_ids, convert_ids in Ht.
    apply in_map_iff in Ht. destruct Ht as (pattern & Hid & Hp).
    destruct (extractAttackPatterns_sound _ _ Hp) as (obj & H1 & H2 & H3 & H4).
    exists obj. repeat split; try assumption. congruence. }
  destruct (buildMatrix_sound localeCompare techniques
              (collectAvailablePlatforms (extractAnalytics objects)))
    as (Htactics & _ & Hcolumns).
  split; [exact Htactics |].
  eapply Forall_impl; [| exact Hcolumns]. intros column [Hlisted _].
  eapply Forall_impl; [| exact Hlisted].
  intros t (_ & _ & (t0 & Ht0 & subs0 & ->) & subs & Hsubs & Hall).
  split.
  - destruct (Hfrom t0 Ht0) as (obj & H1 & H2 & H3 & H4).
    exists obj. repeat split; assumption.
  - exists subs. split; [exact Hsubs |].
    eapply Forall_impl; [| exact Hall]. intros sub (Hs & _). apply Hfrom. exact Hs.
Qed.

Lemma parsed_matrix_techniques_witness :
  loadStixData sample_parser (content "{}") = Some (bundle sample_bundle) /\
  exists matrix,
    parseMatrix byteCompare sample_parser (content "{}") = Ok matrix /\
    map TacticWithTechniques.tactic (MitreMatrixData.tactics matrix)
      = MITRE_TACTICS_ORDER.
Proof.
  split; [reflexivity |].
  destruct (parsed_matrix_techniques byteCompare sample_parser (content "{}")
              (objects := sample_bundle) eq_refl)
    as (matrix & Hparse & Htactics & _).
  exists matrix. split; [exact Hparse | exact Htactics].
Defined.

(* ================================================================== *)
(** ** The timeliness score *)

Lemma Js_lt_minutes (delay : Q) (minutes : Z) :
  Js.lt (Js.div (Js.div (Num delay) (dec 1000 1)) (dec 60 1)) (dec minutes 1) = true
  <-> (delay < inject_Z (minutes * 60000))%Q.
Proof.
  unfold Js.div, dec.
  change (Qeq_bool (1000 # 1) 0) with false.
  change (Qeq_bool (60 # 1) 0) with false. cbv iota.
  unfold Js.lt. rewrite negb_true_iff.
  rewrite inject_Z_mult. change (inject_Z 60000) with 60000%Q.
  change (minutes # 1) with (inject_Z minutes).
  assert (E : (delay / (1000 # 1) / (60 # 1) == delay * (1 # 60000))%Q) by field.
  split.
  - intros H. apply Qnot_le_lt. intros Hle.
    assert (Hb : Qle_bool (inject_Z minutes) (delay / (1000 # 1) / (60 # 1)) = true).
    { apply Qle_bool_iff. rewrite E. lra. }
    congruence.
  - intros H. destruct (Qle_bool _ _) eqn:Eb; [| reflexivity].
    apply Qle_bool_iff in Eb. rewrite E in Eb. lra.
Qed.

Lemma Js_lt_minutes_false (delay : Q) (minutes : Z) :
  Js.lt (Js.div (Js.div (Num delay) (dec 1000 1)) (dec 60 1)) (dec minutes 1) = false
  <-> (inject_Z (minutes * 60000) <= delay)%Q.
Proof.
  rewrite <- not_true_iff_false, Js_lt_minutes. split.
  - apply Qnot_lt_le.
  - intros H1 H2. apply (Qlt_irrefl delay). eapply Qlt_le_trans; eassumption.
Qed.

(** X10. For a last record that carries both timestamps, read as the
    dates [t] and [i], the timeliness score depends on the delay
    [i - t] of the ingestion alone: 5 below 5 minutes (a negative
    delay included), 3 from 5 to below 15 minutes, 1 from 15 to below
    60 minutes, 0 from an hour on. *)
Theorem timeliness_thresholds (Date_getTime : string -> num) (doc : LogDoc)
    (t i : Q) :
  dated Date_getTime doc t i ->
  score (calculateTimelinessScore Date_getTime (Some doc)) = timelinessByDelay (i - t).
Proof.
  intros (ts & ing & Hts & Hts' & Hing & Hing' & Ht & Hi).
  unfold calculateTimelinessScore. rewrite Hts, Hing. cbn [Js.truthy_opt the].
  unfold Js.truthy.
  apply String.eqb_neq in Hts', Hing'. rewrite Hts', Hing'. cbn [negb].
  cbv zeta. rewrite Ht, Hi. cbn [Js.sub Js.lift2].
  unfold timelinessByDelay.
  destruct (Qlt_le_dec (i - t) 300000) as [H5 | H5].
  { apply (Js_lt_minutes (i - t) 5) in H5. rewrite H5. reflexivity. }
  apply (Js_lt_minutes_false (i - t) 5) in H5. rewrite H5.
  destruct (Qlt_le_dec (i - t) 900000) as [H15 | H15].
  { apply (Js_lt_minutes (i - t) 15) in H15. rewrite H15. reflexivity. }
  apply (Js_lt_minutes_false (i - t) 15) in H15. rewrite H15.
  destruct (Qlt_le_dec (i - t) 3600000) as [H60 | H60].
  { apply (Js_lt_minutes (i - t) 60) in H60. rewrite H60. reflexivity. }
  apply (Js_lt_minutes_false (i - t) 60) in H60. rewrite H60. reflexivity.
Qed.

Lemma timeliness_thresholds_witness :
  dated minutes_after
    {| at_timestamp := Some "T"; event_ingested := Some "T+4m" |}
    (inject_Z 0) (inject_Z (4 * 60 * 1000)) /\
  score (calculateTimelinessScore minutes_after (ingested_at "T+4m")) = dec 5 1.
Proof.
  assert (H : dated minutes_after
                {| at_timestamp := Some "T"; event_ingested := Some "T+4m" |}
                (inject_Z 0) (inject_Z (4 * 60 * 1000))).
  { exists "T", "T+4m". repeat split; discriminate. }
  split; [exact H |].
  exact (timeliness_thresholds H).
Defined.

(** X11. The timeliness score is 0 when there is no last record,
    when the record misses one of the two timestamps or has it empty,
    and when one of the timestamps is no date. *)
Theorem timeliness_undated (Date_getTime : string -> num) (lastDoc : option LogDoc) :
  undated Date_getTime lastDoc ->
  score (calculateTimelinessScore Date_getTime lastDoc) = dec 0 1.
Proof.
  unfold undated, calculateTimelinessScore.
  destruct lastDoc as [doc |]; [| reflexivity].
  destruct (Js.truthy_opt (event_ingested doc)); cbn [negb]; [| reflexivity].
  destruct (Js.truthy_opt (at_timestamp doc)); cbn [negb]; [| reflexivity].
  cbv zeta. intros [H | [H | [H | H]]]; try discriminate; rewrite H.
  - reflexivity.
  - destruct (Date_getTime (the (event_ingested doc))); reflexivity.
Qed.

Lemma timeliness_undated_witness :
  undated no_date (ingested_at "T") /\
  score (calculateTimelinessScore no_date (ingested_at "T")) = dec 0 1.
Proof.
  assert (H : undated no_date (ingested_at "T")).
  { right. right. left. reflexivity. }
  split; [exact H | exact (timeliness_undated no_date (ingested_at "T") H)].
Defined.

(* ================================================================== *)
(** ** A reference the log store does not know *)

Lemma calculateNextExecution_range (I : Fields -> Prop)
    (R : forall X : Type, Request X -> Result X -> Prop)
    (Ra : forall X : Type, Sync X -> X -> Prop)
    (G : forall X : Type, Request X -> Prop) (U : Fields -> Prop) (s : Fields) :
  I s ->
  sat I R Ra G (fun _ s' => I s') (fun e s' => e = invalid_time /\ I s') U
      (calculateNextExecution s).
Proof.
  intros Hs. unfold calculateNextExecution, bind, ask, this, ret, throw.
  cbn. intros u _ now _.
  destruct (Z.abs _ <=? MAX_TIME); cbn; [exact Hs | split; [reflexivity | exact Hs]].
Qed.

Lemma zero_rounded (x : Q) (d : positive) :
  (x == 0)%Q ->
  Js.same (Js.div (Js.Math_round (Js.mul (Num x) (dec (Zpos d) 1))) (dec (Zpos d) 1))
          (Num 0).
Proof.
  intros Hx. unfold Js.div, Js.Math_round, Js.mul, Js.lift2, dec.
  assert (Hne : Qeq_bool (Zpos d # 1) 0 = false).
  { destruct (Qeq_bool (Zpos d # 1) 0) eqn:E; [| reflexivity].
    apply Qeq_bool_eq in E. discriminate. }
  rewrite Hne. unfold Js.same.
  assert (E : (x * (Zpos d # 1) + (1 # 2) == 1 # 2)%Q) by (rewrite Hx; ring).
  rewrite (Qfloor_comp _ _ E). change (Qfloor (1 # 2)) with 0%Z.
  unfold Qdiv. change (inject_Z 0) with 0%Q. ring.
Qed.

Lemma completeness_not_found (status confidence nameField nameValue : string)
    (channelField channelValue : option string) (s : Fields) :
  status = "unmapped" \/ (Js.inherited status = false /\ Js.inherited confidence = false) ->
  sat always finds_nothing any_answer any_call
      (fun r _ => Js.same (completeness_score r) (Num 0) /\
                  base_score (completeness_details r) = dec 0 1 /\
                  completeness_lastDoc r = None)
      (fun _ _ => False) (fun _ => False)
      (calculateDataFieldCompletenessScore status confidence nameField nameValue
         channelField channelValue s).
Proof.
  intros Hplain. unfold calculateDataFieldCompletenessScore.
  destruct (String.eqb_spec status "unmapped") as [Hu | Hu].
  - cbn. repeat split; reflexivity.
  - destruct Hplain as [H | [Hst Hcf]]; [contradiction |].
    rewrite (own_statusMultipliers Hu Hst).
    pose proof (own_confidenceMultipliers confidence Hcf) as Hc.
    destruct (Js.ToNumber (Js.nullish (Js.get confidenceMultipliers confidence) (dec 0 1)))
      as [c |]; [| contradiction].
    assert (Hzero : Js.same
                      (Js.div
                         (Js.Math_round
                            (Js.mul
                               (Js.mul
                                  (Js.mul (dec 0 1)
                                     (Js.ToNumber
                                        (Js.VNumber (Num (statusMultiplier status)))))
                                  (Num c))
                               (dec 100 1)))
                         (dec 100 1))
                      (Num 0)).
    { cbn [Js.ToNumber Js.mul Js.lift2 dec]. apply (@zero_rounded _ 100). ring. }
    unfold queryFieldExists, bind, try_catch.
    destruct (negb (Js.truthy nameField) || negb (Js.truthy nameValue))%bool.
    + cbn [bindR ret sat completeness_score completeness_details base_score
           completeness_lastDoc exists_ lastDoc].
      split; [exact Hzero |]. split; reflexivity.
    + cbn [bindR catchR this await sat].
      split; [exact I | split; [exact I |]].
      intros [[| hit rest] | e] s1 Hreply _;
        cbn [bindR catchR ret sat completeness_score completeness_details base_score
             completeness_lastDoc exists_ lastDoc];
        try contradiction; (split; [exact Hzero |]); split; reflexivity.
Qed.

Lemma quality_of_zero (c : num) :
  Js.same c (Num 0) ->
  Js.same (qualityScore c (dec 0 1) (dec 0 1) (Js.VNumber (dec 0 1))
             (Js.VNumber (dec 0 1)))
          (Num 0).
Proof.
  destruct c as [q |]; [| contradiction]. intros Hq. change (q == 0)%Q in Hq.
  unfold qualityScore. cbn [Js.plus Js.ToNumber Js.add Js.lift2 dec].
  unfold Js.div at 2. change (Qeq_bool (5 # 1) 0) with false. cbv iota.
  apply (@zero_rounded _ 10). rewrite Hq. reflexivity.
Qed.

Lemma scores_not_found (Date_getTime : string -> num)
    (logSourceRef : LogSourceReference) (platform : option string) (s : Fields) :
  plain_mapping (mapping logSourceRef) ->
  sat always finds_nothing any_answer any_call
      (fun sc _ => all_zero sc) (fun e _ => e = invalid_time) (fun _ => False)
      (calculateScoresForLogSource Date_getTime logSourceRef platform s).
Proof.
  intros Hplain. unfold calculateScoresForLogSource, bind.
  eapply sat_bind
    with (P1 := fun r _ => Js.same (completeness_score r) (Num 0) /\
                           base_score (completeness_details r) = dec 0 1 /\
                           completeness_lastDoc r = None).
  { eapply sat_mono; [| | | apply completeness_not_found; exact Hplain];
      cbv beta; intros; try contradiction; assumption. }
  intros c s1 (Hc & Hbase & Hdoc). cbv beta.
  eapply sat_bind with (P1 := fun _ _ => True).
  { eapply sat_mono;
      [| | | apply (@getDeviceCompletenessScoreForPlatform_framed always finds_nothing
                      any_answer any_call (fun _ _ => False) (fun _ => False))];
      cbv beta; intros; try contradiction; try exact I. }
  intros d s2 _. cbv beta.
  eapply sat_bind with (P1 := fun _ _ => True).
  { eapply sat_mono;
      [| | | apply (@getRetentionScoreForPlatform_framed always finds_nothing
                      any_answer any_call (fun _ _ => False) (fun _ => False))];
      cbv beta; intros; try contradiction; try exact I. }
  intros r s3 _. cbv beta.
  eapply sat_bind with (P1 := fun _ _ => True).
  { eapply sat_mono;
      [| | | apply calculateNextExecution_range
               with (I := always) (U := fun _ => False); exact I].
    - intros; exact I.
    - intros e s0 [He _]. exact He.
    - intros s0 H. exact H. }
  intros next s4 _. cbn [ret sat].
  rewrite Hbase, Hdoc.
  change (Js.gt (dec 0 1) (dec 0 1)) with false.
  unfold all_zero.
  cbn [data_field_completeness timeliness consistency device_completeness
       retention quality_score score calculateTimelinessScore
       calculateConsistencyScore].
  split; [exact Hc |]. split; [reflexivity |]. split; [reflexivity |].
  unfold calculateDeviceCompletenessScore, calculateRetentionScore.
  cbn [negb score]. split; [reflexivity |]. split; [reflexivity |].
  apply quality_of_zero. exact Hc.
Qed.

Lemma empty_store_finds_nothing :
  obeys (store_world empty_store) finds_nothing any_answer.
Proof.
  split; [| intros; exact I]. intros X h c. destruct c; exact I.
Qed.

Lemma empty_store_no_settings :
  obeys (store_world empty_store) no_settings any_answer.
Proof.
  split; [| intros; exact I]. intros X h c. destruct c; exact I.
Qed.

(** X12. In a log store where the probe of a reference finds no
    record (no hit, or a failing search), the five dimension scores
    and the quality score of the reference are all 0, whatever scores
    are configured, for a reference that is unmapped or whose status
    and confidence are no inherited property names.  All the scoring
    can throw is the [RangeError] of a next execution beyond the range
    of [Date]. *)
Theorem nothing_found_scores_zero (Date_getTime : string -> num) (w : World)
    (logSourceRef : LogSourceReference) (platform : option string)
    (s : Fields) (h : Trace) :
  obeys w finds_nothing any_answer ->
  plain_mapping (mapping logSourceRef) ->
  match final (run w (calculateScoresForLogSource Date_getTime logSourceRef
                        platform s) h)
  with
  | returned sc => all_zero sc
  | thrown e => e = invalid_time
  | unfinished => False
  end.
Proof.
  intros Hw Hplain.
  destruct (@sat_run _ always finds_nothing any_answer any_call
              (fun sc _ => all_zero sc) (fun e _ => e = invalid_time)
              (fun _ => False) w
              (calculateScoresForLogSource Date_getTime logSourceRef platform s) h Hw)
    as (new & _ & _ & Hf).
  - apply scores_not_found. exact Hplain.
  - exact Hf.
Qed.

Lemma nothing_found_scores_zero_witness :
  obeys (store_world empty_store) finds_nothing any_answer /\
  plain_mapping (mapping reference_without_channel) /\
  match final (run (store_world empty_store)
                 (calculateScoresForLogSource no_date reference_without_channel
                    (Some "Windows") fresh_runner) [])
  with
  | returned sc => all_zero sc
  | thrown e => e = invalid_time
  | unfinished => False
  end.
Proof.
  assert (H : plain_mapping (mapping reference_without_channel)).
  { right. split; reflexivity. }
  split; [exact empty_store_finds_nothing |]. split; [exact H |].
  exact (nothing_found_scores_zero no_date reference_without_channel (Some "Windows")
           fresh_runner [] empty_store_finds_nothing H).
Defined.

(* ================================================================== *)
(** ** The settings and their caches *)

Lemma fetchRetentionSettings_hit (w : World) (s : Fields) (h : Trace) :
  answer w h Date_now - retentionScoresCacheTimestamp s < CACHE_TTL_MS ->
  run w (fetchRetentionSettings s) h
    = {| final := returned (retentionScoresCache s); fields := s;
         trace := asked Date_now (answer w h Date_now) :: h |}.
Proof.
  intros Hfresh. apply Z.ltb_lt in Hfresh.
  unfold fetchRetentionSettings, bind, ask, this. cbn. rewrite Hfresh. reflexivity.
Qed.

Lemma fetchDeviceCompletenessSettings_hit (w : World) (s : Fields) (h : Trace) :
  answer w h Date_now - deviceCompletenessCacheTimestamp s < CACHE_TTL_MS ->
  run w (fetchDeviceCompletenessSettings s) h
    = {| final := returned (deviceCompletenessCache s); fields := s;
         trace := asked Date_now (answer w h Date_now) :: h |}.
Proof.
  intros Hfresh. apply Z.ltb_lt in Hfresh.
  unfold fetchDeviceCompletenessSettings, bind, ask, this. cbn. rewrite Hfresh.
  reflexivity.
Qed.

(** What a fetch returns is what it leaves in the cache; it does not
    throw. *)
Lemma fetchRetentionSettings_cached (w : World) (s : Fields) (h : Trace) :
  final (run w (fetchRetentionSettings s) h)
    = returned (retentionScoresCache (fields (run w (fetchRetentionSettings s) h))).
Proof.
  unfold fetchRetentionSettings, bind, try_catch, ask, this, assign, ret, await.
  cbn. destruct (_ <? CACHE_TTL_MS); cbn; [reflexivity |].
  destruct (respond w _ (indices_exists _ _)) as [[|] | e]; cbn; try reflexivity.
  destruct (respond w _ (get_scores _ _ _)) as [[o |] | e]; cbn; reflexivity.
Qed.

Lemma fetchDeviceCompletenessSettings_cached (w : World) (s : Fields) (h : Trace) :
  final (run w (fetchDeviceCompletenessSettings s) h)
    = returned (deviceCompletenessCache
                  (fields (run w (fetchDeviceCompletenessSettings s) h))).
Proof.
  unfold fetchDeviceCompletenessSettings, bind, try_catch, ask, this, assign, ret, await.
  cbn. destruct (_ <? CACHE_TTL_MS); cbn; [reflexivity |].
  destruct (respond w _ (indices_exists _ _)) as [[|] | e]; cbn; try reflexivity.
  destruct (respond w _ (get_scores _ _ _)) as [[o |] | e]; cbn; reflexivity.
Qed.

Lemma fetchRetentionSettings_miss (st : Store) (s : Fields) (h : Trace) :
  CACHE_TTL_MS <= clock st - retentionScoresCacheTimestamp s ->
  let o := run (store_world st) (fetchRetentionSettings s) h in
  final o = returned (stored_scores st "retention_scores") /\
  fields o = set_retentionScoresCacheTimestamp (clock st)
               (set_retentionScoresCache (stored_scores st "retention_scores") s) /\
  calls (trace o) <> calls h.
Proof.
  intros Hstale. apply Z.ltb_ge in Hstale.
  unfold fetchRetentionSettings, bind, try_catch, ask, this, assign, ret, await,
    stored_scores.
  cbn. rewrite Hstale. cbn.
  destruct (settings_index st) as [[|] | e]; cbn;
    [destruct (settings_doc st "retention_scores") as [[o |] | e]; cbn | |];
    (split; [reflexivity |]); (split; [reflexivity |]);
    intros H; apply (f_equal (@List.length Event)) in H; unfold calls in H; cbn in H; lia.
Qed.

Lemma fetchDeviceCompletenessSettings_miss (st : Store) (s : Fields) (h : Trace) :
  CACHE_TTL_MS <= clock st - deviceCompletenessCacheTimestamp s ->
  let o := run (store_world st) (fetchDeviceCompletenessSettings s) h in
  final o = returned (stored_scores st "device_completeness_scores") /\
  fields o = set_deviceCompletenessCacheTimestamp (clock st)
               (set_deviceCompletenessCache
                  (stored_scores st "device_completeness_scores") s) /\
  calls (trace o) <> calls h.
Proof.
  intros Hstale. apply Z.ltb_ge in Hstale.
  unfold fetchDeviceCompletenessSettings, bind, try_catch, ask, this, assign, ret,
    await, stored_scores.
  cbn. rewrite Hstale. cbn.
  destruct (settings_index st) as [[|] | e]; cbn;
    [destruct (settings_doc st "device_completeness_scores") as [[o |] | e]; cbn | |];
    (split; [reflexivity |]); (split; [reflexivity |]);
    intros H; apply (f_equal (@List.length Event)) in H; unfold calls in H; cbn in H; lia.
Qed.

Lemma getRetentionScoreForPlatform_run (w : World) (platform : option string)
    (s : Fields) (h : Trace) :
  run w (getRetentionScoreForPlatform platform s) h
    = continue w (run w (fetchRetentionSettings s) h)
        (fun settings =>
           if Js.truthy_opt platform then
             ret (Js.nullish (Js.get settings (the platform)) DEFAULT_RETENTION_SCORE)
           else if Nat.eqb (List.length (Js.Object_values settings)) 0 then
                  ret (Js.VNumber DEFAULT_RETENTION_SCORE)
                else ret (Js.VNumber (averageScore (Js.Object_values settings)))).
Proof. unfold getRetentionScoreForPlatform, bind. apply run_bind. Qed.

Lemma getDeviceCompletenessScoreForPlatform_run (w : World) (platform : option string)
    (s : Fields) (h : Trace) :
  run w (getDeviceCompletenessScoreForPlatform platform s) h
    = continue w (run w (fetchDeviceCompletenessSettings s) h)
        (fun settings =>
           if Js.truthy_opt platform then
             ret (Js.nullish (Js.get settings (the platform))
                    DEFAULT_DEVICE_COMPLETENESS_SCORE)
           else if Nat.eqb (List.length (Js.Object_values settings)) 0 then
                  ret (Js.VNumber DEFAULT_DEVICE_COMPLETENESS_SCORE)
                else ret (Js.VNumber (averageScore (Js.Object_values settings)))).
Proof. unfold getDeviceCompletenessScoreForPlatform, bind. apply run_bind. Qed.

Lemma fetchRetentionSettings_none (w : World) (s : Fields) (h : Trace) :
  obeys w no_settings any_answer ->
  CACHE_TTL_MS <= answer w h Date_now - retentionScoresCacheTimestamp s ->
  final (run w (fetchRetentionSettings s) h) = returned [].
Proof.
  intros [Hw _] Hr. apply Z.ltb_ge in Hr.
  unfold fetchRetentionSettings, bind, try_catch, ask, this, assign, ret, await.
  cbn. rewrite Hr. cbn.
  destruct (respond w _ (indices_exists _ _)) as [[|] | e]; cbn; try reflexivity.
  match goal with
  | |- context [respond w ?h0 (get_scores ?cl ?index ?id)] =>
      pose proof (Hw _ h0 (get_scores cl index id)) as Hreply;
      destruct (respond w h0 (get_scores cl index id)) as [[o |] | e]
  end; cbn in Hreply |- *; [contradiction | reflexivity | reflexivity].
Qed.

Lemma fetchDeviceCompletenessSettings_none (w : World) (s : Fields) (h : Trace) :
  obeys w no_settings any_answer ->
  CACHE_TTL_MS <= answer w h Date_now - deviceCompletenessCacheTimestamp s ->
  final (run w (fetchDeviceCompletenessSettings s) h) = returned [].
Proof.
  intros [Hw _] Hr. apply Z.ltb_ge in Hr.
  unfold fetchDeviceCompletenessSettings, bind, try_catch, ask, this, assign, ret,
    await.
  cbn. rewrite Hr. cbn.
  destruct (respond w _ (indices_exists _ _)) as [[|] | e]; cbn; try reflexivity.
  match goal with
  | |- context [respond w ?h0 (get_scores ?cl ?index ?id)] =>
      pose proof (Hw _ h0 (get_scores cl index id)) as Hreply;
      destruct (respond w h0 (get_scores cl index id)) as [[o |] | e]
  end; cbn in Hreply |- *; [contradiction | reflexivity | reflexivity].
Qed.

(** X13. Without a stored document of configured scores (the index is
    missing, the document is, or the read fails) and once the cache
    has expired, the retention score is the default 5 and the
    device-completeness score is the default 2, for every platform
    whose name is no inherited property name and for no platform at
    all. *)
Theorem defaults_without_settings (w : World) (s : Fields) (h : Trace)
    (platform : option string) :
  obeys w no_settings any_answer ->
  plain_key platform ->
  CACHE_TTL_MS <= answer w h Date_now - retentionScoresCacheTimestamp s ->
  CACHE_TTL_MS <= answer w h Date_now - deviceCompletenessCacheTimestamp s ->
  final (run w (getRetentionScoreForPlatform platform s) h)
    = returned (Js.VNumber DEFAULT_RETENTION_SCORE) /\
  final (run w (getDeviceCompletenessScoreForPlatform platform s) h)
    = returned (Js.VNumber DEFAULT_DEVICE_COMPLETENESS_SCORE).
Proof.
  intros Hw Hplain Hr Hd.
  assert (Hdefault : forall d : num,
             Js.truthy_opt platform = true ->
             Js.nullish (Js.get [] (the platform)) d = Js.VNumber d).
  { intros d Ht. destruct platform as [p |]; [| discriminate].
    change (Js.inherited p = false) in Hplain.
    unfold Js.get. cbn [Js.own the]. rewrite Hplain. reflexivity. }
  split.
  - rewrite getRetentionScoreForPlatform_run. unfold continue.
    rewrite (fetchRetentionSettings_none s h Hw Hr).
    destruct (Js.truthy_opt platform) eqn:Ht; cbn [ret run final];
      [rewrite Hdefault by reflexivity |]; reflexivity.
  - rewrite getDeviceCompletenessScoreForPlatform_run. unfold continue.
    rewrite (fetchDeviceCompletenessSettings_none s h Hw Hd).
    destruct (Js.truthy_opt platform) eqn:Ht; cbn [ret run final];
      [rewrite Hdefault by reflexivity |]; reflexivity.
Qed.

Lemma defaults_without_settings_witness :
  obeys (store_world empty_store) no_settings any_answer /\
  plain_key (Some "Windows") /\
  final (run (store_world empty_store)
           (getRetentionScoreForPlatform (Some "Windows") fresh_runner) [])
    = returned (Js.VNumber DEFAULT_RETENTION_SCORE) /\
  final (run (store_world empty_store)
           (getDeviceCompletenessScoreForPlatform (Some "Windows") fresh_runner) [])
    = returned (Js.VNumber DEFAULT_DEVICE_COMPLETENESS_SCORE).
Proof.
  split; [exact empty_store_no_settings |]. split; [reflexivity |].
  apply (@defaults_without_settings (store_world empty_store) fresh_runner []
           (Some "Windows") empty_store_no_settings eq_refl).
  - discriminate.
  - discriminate.
Defined.

(** X14. A second [getRetentionScoreForPlatform] within the minute
    the cache lives returns what the first one returned, leaves the
    fields as they are and does nothing but read the clock: no store
    is called. *)
Theorem scores_cached_for_a_minute (w : World) (platform : option string)
    (s : Fields) (h : Trace) :
  let first := run w (getRetentionScoreForPlatform platform s) h in
  let now := answer w (trace first) Date_now in
  now - retentionScoresCacheTimestamp (fields first) < CACHE_TTL_MS ->
  run w (getRetentionScoreForPlatform platform (fields first)) (trace first)
    = {| final := final first; fields := fields first;
         trace := asked Date_now now :: trace first |}.
Proof.
  cbv zeta. intros Hfresh.
  rewrite (getRetentionScoreForPlatform_run w platform (fields _)).
  rewrite fetchRetentionSettings_hit by exact Hfresh.
  rewrite getRetentionScoreForPlatform_run.
  rewrite getRetentionScoreForPlatform_run in Hfresh.
  pose proof (fetchRetentionSettings_cached w s h) as Hcached.
  set (o := run w (fetchRetentionSettings s) h) in *. clearbody o.
  unfold continue in *. rewrite Hcached in *.
  destruct (Js.truthy_opt platform);
    [| destruct (Nat.eqb (List.length (Js.Object_values
                                          (retentionScoresCache (fields o)))) 0)
         eqn:Hempty];
    cbn [run ret final fields trace] in *; rewrite ?Hempty; reflexivity.
Qed.

Lemma scores_cached_for_a_minute_witness :
  let first := run (store_world configured_store)
                 (getRetentionScoreForPlatform (Some "Windows") fresh_runner) [] in
  final first = returned (Js.VNumber (dec 3 1)) /\
  run (store_world configured_store)
      (getRetentionScoreForPlatform (Some "Windows") (fields first)) (trace first)
    = {| final := final first; fields := fields first;
         trace := asked Date_now (clock configured_store) :: trace first |}.
Proof.
  cbv zeta. split; [reflexivity |].
  apply (@scores_cached_for_a_minute (store_world configured_store) (Some "Windows")
           fresh_runner []).
  reflexivity.
Defined.

(** X15. After [invalidateSettingsCache], with a clock at least a
    minute past the epoch, both kinds of configured scores are read
    from the store again: each fetch calls the store, returns the
    scores the store holds and caches them. *)
Theorem invalidated_settings_are_read_again (st : Store) (s : Fields) (h : Trace) :
  CACHE_TTL_MS <= clock st ->
  let invalidated := fields (run (store_world st) (invalidateSettingsCache s) h) in
  let retention := run (store_world st) (fetchRetentionSettings invalidated) h in
  let device := run (store_world st) (fetchDeviceCompletenessSettings invalidated) h in
  final retention = returned (stored_scores st "retention_scores") /\
  retentionScoresCache (fields retention) = stored_scores st "retention_scores" /\
  calls (trace retention) <> calls h /\
  final device = returned (stored_scores st "device_completeness_scores") /\
  deviceCompletenessCache (fields device)
    = stored_scores st "device_completeness_scores" /\
  calls (trace device) <> calls h.
Proof.
  intros Hclock. cbv zeta.
  unfold invalidateSettingsCache, bind, assign. cbn [bindR run fields].
  match goal with
  | |- context [fetchRetentionSettings ?s0] =>
      destruct (@fetchRetentionSettings_miss st s0 h) as (H1 & H2 & H3);
      [cbn; lia |];
      destruct (@fetchDeviceCompletenessSettings_miss st s0 h) as (H4 & H5 & H6);
      [cbn; lia |]
  end.
  cbv zeta in H1, H2, H3, H4, H5, H6.
  rewrite H2, H5. cbn [retentionScoresCache deviceCompletenessCache
                       set_retentionScoresCacheTimestamp set_retentionScoresCache
                       set_deviceCompletenessCacheTimestamp set_deviceCompletenessCache].
  repeat split; assumption.
Qed.

Lemma invalidated_settings_are_read_again_witness :
  CACHE_TTL_MS <= clock configured_store /\
  final (run (store_world configured_store)
           (fetchRetentionSettings
              (fields (run (store_world configured_store)
                         (invalidateSettingsCache fresh_runner) []))) [])
    = returned [("Windows", 3 # 1)%Q].
Proof.
  assert (H : CACHE_TTL_MS <= clock configured_store) by discriminate.
  split; [exact H |].
  destruct (@invalidated_settings_are_read_again configured_store fresh_runner [] H)
    as (Hr & _).
  exact Hr.
Defined.

(* ================================================================== *)
(** ** The recomputation of an analytic *)

Lemma calculateScoresForLogSource_ends (Date_getTime : string -> num)
    (logSourceRef : LogSourceReference) (platform : option string) (s : Fields) :
  sat always any_reply any_answer any_call
      (fun _ _ => True) (fun e _ => e = invalid_time) (fun _ => False)
      (calculateScoresForLogSource Date_getTime logSourceRef platform s).
Proof.
  eapply sat_mono;
    [| | | apply calculateScoresForLogSource_framed
             with (I := always) (Q := fun e (_ : Fields) => e = invalid_time)
                  (U := fun _ : Fields => False)];
    try (intros; exact I); try (cbv beta; intros; assumption).
  intros s0 _. unfold framed.
  eapply sat_mono; [| | | apply calculateNextExecution_range with (I := always); exact I].
  - intros; exact I.
  - intros e s1 [He _]. exact He.
  - intros s1 H. exact H.
Qed.

Lemma scoreReferences_ends (Date_getTime : string -> num)
    (refs : list LogSourceReference) (platform : option string) :
  forall s,
    sat always any_reply any_answer any_call
        (fun l _ => map reference l = refs) (fun e _ => e = invalid_time)
        (fun _ => False)
        (scoreReferences Date_getTime refs platform s).
Proof.
  induction refs as [| ref rest IH]; intros s; cbn [scoreReferences].
  - reflexivity.
  - unfold bind. eapply sat_bind; [apply calculateScoresForLogSource_ends |].
    intros sc s1 _. cbv beta.
    eapply sat_bind; [apply IH |].
    intros more s2 Hmore. cbn. rewrite Hmore. reflexivity.
Qed.

(** X16. [processAnalytic] ends on every document and with every
    store.  When it returns, the result is the document with scores:
    the same id and name, the same references in the same order.  It
    throws nothing but the [RangeError] of a next execution beyond the
    range of [Date] and, on a document without an array of references,
    the [TypeError] of iterating [undefined]. *)
Theorem scoring_keeps_the_document (Date_getTime : string -> num) (w : World)
    (analytic : AnalyticDocument) (platform : option string)
    (s : Fields) (h : Trace) :
  match final (run w (processAnalytic Date_getTime analytic platform s) h) with
  | returned scored => scored_from analytic scored
  | thrown e =>
      e = invalid_time \/
      (e = not_iterable /\ x_mitre_log_source_references analytic = None)
  | unfinished => False
  end.
Proof.
  destruct (@sat_run _ always any_reply any_answer any_call
              (fun scored _ => scored_from analytic scored)
              (fun e _ => e = invalid_time \/
                          (e = not_iterable /\
                           x_mitre_log_source_references analytic = None))
              (fun _ => False) w
              (processAnalytic Date_getTime analytic platform s) h (any_world w))
    as (new & _ & _ & Hf); [| exact Hf].
  unfold processAnalytic.
  destruct (x_mitre_log_source_references analytic) as [refs |] eqn:Hrefs.
  - unfold bind. eapply sat_bind.
    + eapply sat_mono; [| | | apply scoreReferences_ends]; cbv beta.
      * intros l s0 H. exact H.
      * intros e s0 H. left. exact H.
      * intros s0 H. exact H.
    + intros l s1 Hl. cbn. unfold scored_from. cbn. rewrite Hl, Hrefs.
      repeat split.
  - cbn. right. split; reflexivity.
Qed.

(* ================================================================== *)
(** ** How a pass ends *)

Lemma full_body_swallows (Date_getTime : string -> num) (I : Fields -> Prop)
    (fuel : nat) (s : Fields) :
  (forall o s, I s -> I (set_retentionScoresCache o s)) ->
  (forall t s, I s -> I (set_retentionScoresCacheTimestamp t s)) ->
  (forall o s, I s -> I (set_deviceCompletenessCache o s)) ->
  (forall t s, I s -> I (set_deviceCompletenessCacheTimestamp t s)) ->
  I s ->
  sat I any_reply any_answer any_call (fun _ s' => I s') (fun _ _ => False) I
      (catchR (processAllAnalytics Date_getTime fuel s) (fun _ => ret tt)).
Proof.
  intros H1 H2 H3 H4 Hs.
  eapply sat_catch with (Q1 := fun _ s' => I s').
  - apply processAllAnalytics_stable; assumption.
  - intros e s1 Hs1. exact Hs1.
Qed.

(** X17. A pass started on an idle instance leaves it idle when it
    ends, whether it returns or throws: the flag is down and, for the
    passes run for a user, the logs client is the internal client
    again; [runFullCalculation] leaves the logs client as it was.  The
    two full passes do not throw: they swallow the error of the
    scan. *)
Theorem passes_release_the_instance (Date_getTime : string -> num) (w : World)
    (fuel : nat) (user : Client) (s : Fields) (h : Trace) :
  isRunning s = false ->
  let full := run w (runFullCalculation Date_getTime fuel s) h in
  let fullWith := run w (runFullCalculationWithClient Date_getTime fuel user s) h in
  let smart := run w (runSmartScoringWithClient Date_getTime fuel user s) h in
  (final full = returned tt \/ final full = unfinished) /\
  (final full <> unfinished ->
   isRunning (fields full) = false /\ logsClient (fields full) = logsClient s) /\
  (final fullWith = returned tt \/ final fullWith = unfinished) /\
  released s fullWith /\
  released s smart.
Proof.
  intros Hs. cbv zeta.
  assert (Hfull :
            match final (run w (runFullCalculation Date_getTime fuel s) h) with
            | returned _ =>
                isRunning (fields (run w (runFullCalculation Date_getTime fuel s) h))
                  = false /\
                logsClient (fields (run w (runFullCalculation Date_getTime fuel s) h))
                  = logsClient s
            | thrown _ => False
            | unfinished => True
            end).
  { destruct (@sat_run _ (fun s' => logsClient s' = logsClient s)
                any_reply any_answer any_call
                (fun _ s' => isRunning s' = false /\ logsClient s' = logsClient s)
                (fun _ _ => False) (fun _ => True) w
                (runFullCalculation Date_getTime fuel s) h (any_world w))
      as (new & _ & _ & Hf); [| exact Hf].
    unfold runFullCalculation, bind, this, try_finally, try_catch.
    cbn [bindR]. rewrite Hs. cbn [bindR assign].
    eapply sat_finally
      with (P1 := fun _ s' => logsClient s' = logsClient s) (Q1 := fun _ _ => False).
    - eapply sat_mono; [| | | apply full_body_swallows
                                  with (I := fun s' => logsClient s' = logsClient s)];
        cbv beta; auto.
    - intros a s0 H. split; [reflexivity | exact H].
    - intros e s0 []. }
  assert (HfullWith :
            match final (run w (runFullCalculationWithClient Date_getTime fuel user s) h)
            with
            | returned _ =>
                released s (run w (runFullCalculationWithClient Date_getTime fuel user s) h)
            | thrown _ => False
            | unfinished => True
            end).
  { destruct (@sat_run _ (fun s' => internalClient s' = internalClient s)
                any_reply any_answer any_call
                (fun _ s' => isRunning s' = false /\
                             logsClient s' = internalClient s /\
                             internalClient s' = internalClient s)
                (fun _ _ => False) (fun _ => True) w
                (runFullCalculationWithClient Date_getTime fuel user s) h (any_world w))
      as (new & _ & _ & Hf).
    - unfold runFullCalculationWithClient, bind, this, try_finally, try_catch.
      cbn [bindR]. rewrite Hs. cbn [bindR assign setLogsClient].
      eapply sat_finally
        with (P1 := fun _ s' => internalClient s' = internalClient s)
             (Q1 := fun _ _ => False).
      + eapply sat_mono;
          [| | | apply full_body_swallows
                   with (I := fun s' => internalClient s' = internalClient s)];
          cbv beta; auto.
      + intros a s0 H. cbn. repeat split; assumption.
      + intros e s0 [].
    - unfold released. revert Hf.
      destruct (final (run w (runFullCalculationWithClient Date_getTime fuel user s) h));
        intros Hf; [intros _; exact Hf | exact Hf | exact I]. }
  assert (Hsmart : released s (run w (runSmartScoringWithClient Date_getTime fuel user s) h)).
  { destruct (@sat_run _ (fun s' => internalClient s' = internalClient s)
                any_reply any_answer any_call
                (fun _ s' => isRunning s' = false /\
                             logsClient s' = internalClient s /\
                             internalClient s' = internalClient s)
                (fun _ s' => isRunning s' = false /\
                             logsClient s' = internalClient s /\
                             internalClient s' = internalClient s)
                (fun _ => True) w
                (runSmartScoringWithClient Date_getTime fuel user s) h (any_world w))
      as (new & _ & _ & Hf).
    - unfold runSmartScoringWithClient, bind, this, try_finally, try_catch.
      cbn [bindR]. rewrite Hs. cbn [bindR assign].
      eapply sat_finally
        with (P1 := fun _ s' => internalClient s' = internalClient s)
             (Q1 := fun _ s' => internalClient s' = internalClient s).
      + eapply sat_catch with (Q1 := fun _ s' => internalClient s' = internalClient s).
        * eapply sat_mono;
            [| | | apply smartBody_stable
                     with (I := fun s' => internalClient s' = internalClient s)];
            cbv beta; auto.
        * intros e s1 Hs1. exact Hs1.
      + intros a s0 H. cbn. repeat split; assumption.
      + intros e s0 H. cbn. repeat split; assumption.
    - unfold released. revert Hf.
      destruct (final (run w (runSmartScoringWithClient Date_getTime fuel user s) h));
        intros Hf Hends; [exact Hf | exact Hf | contradiction]. }
  split.
  { destruct (final (run w (runFullCalculation Date_getTime fuel s) h)) as [[] | e |];
      [left; reflexivity | contradiction | right; reflexivity]. }
  split.
  { intros Hends.
    destruct (final (run w (runFullCalculation Date_getTime fuel s) h));
      [exact Hfull | contradiction | contradiction]. }
  split.
  { destruct (final (run w (runFullCalculationWithClient Date_getTime fuel user s) h))
      as [[] | e |]; [left; reflexivity | contradiction | right; reflexivity]. }
  split; [| exact Hsmart].
  unfold released in *. revert HfullWith.
  destruct (final (run w (runFullCalculationWithClient Date_getTime fuel user s) h));
    intros HfullWith Hends; [apply HfullWith; exact Hends | contradiction | contradiction].
Qed.

Lemma passes_release_the_instance_witness :
  isRunning fresh_runner = false /\
  let smart := run (store_world empty_store)
                 (runSmartScoringWithClient no_date 3 (asCurrentUser "analyst")
                    fresh_runner) [] in
  isRunning (fields smart) = false /\
  logsClient (fields smart) = asInternalUser.
Proof.
  split; [reflexivity |]. cbv zeta.
  destruct (@passes_release_the_instance no_date (store_world empty_store) 3
              (asCurrentUser "analyst") fresh_runner [] eq_refl)
    as (_ & _ & _ & _ & Hsmart).
  destruct Hsmart as (Hidle & Hlogs & _); [discriminate |].
  split; [exact Hidle | exact Hlogs].
Defined.

(* ================================================================== *)
(** ** The identity behind each store call *)

Ltac clients :=
  cbv beta in *;
  repeat match goal with
         | H : serves _ _ _ |- _ => destruct H
         end;
  unfold serves, by_client; cbn; auto.

Section Clients.

Variable Date_getTime : string -> num.
Variables internal logs : Client.
Variable R : forall X : Type, Request X -> Result X -> Prop.
Variable Ra : forall X : Type, Sync X -> X -> Prop.
Variable Q : Error -> Fields -> Prop.
Variable U : Fields -> Prop.

Let I := serves internal logs.
Let G := by_client internal logs.

Lemma fetchRetentionSettings_clients (s : Fields) :
  I s -> framed I R Ra G Q U (fetchRetentionSettings s).
Proof.
  intros Hs. unfold framed; unfold fetchRetentionSettings, bind, try_catch.
  sat_steps; subst I G; clients.
Qed.

Lemma fetchDeviceCompletenessSettings_clients (s : Fields) :
  I s -> framed I R Ra G Q U (fetchDeviceCompletenessSettings s).
Proof.
  intros Hs. unfold framed; unfold fetchDeviceCompletenessSettings, bind, try_catch.
  sat_steps; subst I G; clients.
Qed.

Lemma getRetentionScoreForPlatform_clients (platform : option string) (s : Fields) :
  I s -> framed I R Ra G Q U (getRetentionScoreForPlatform platform s).
Proof.
  intros Hs. unfold framed; unfold getRetentionScoreForPlatform, bind.
  eapply sat_bind; [apply fetchRetentionSettings_clients; exact Hs |].
  sat_steps.
Qed.

Lemma getDeviceCompletenessScoreForPlatform_clients (platform : option string)
    (s : Fields) :
  I s -> framed I R Ra G Q U (getDeviceCompletenessScoreForPlatform platform s).
Proof.
  intros Hs. unfold framed; unfold getDeviceCompletenessScoreForPlatform, bind.
  eapply sat_bind; [apply fetchDeviceCompletenessSettings_clients; exact Hs |].
  sat_steps.
Qed.

Lemma queryFieldExists_clients (nameField nameValue : string)
    (channelField channelValue : option string) (s : Fields) :
  I s ->
  framed I R Ra G Q U (queryFieldExists nameField nameValue channelField channelValue s).
Proof.
  intros Hs. unfold framed; unfold queryFieldExists, bind, try_catch.
  destruct (negb (Js.truthy nameField) || negb (Js.truthy nameValue))%bool.
  - simpl. exact Hs.
  - simpl. split; [exact Hs | split; [subst I G; clients |]].
    intros [[| hit rest] | e] s' _ Hs'; simpl; exact Hs'.
Qed.

Lemma calculateScoresForLogSource_clients (logSourceRef : LogSourceReference)
    (platform : option string) (s : Fields) :
  (forall e s', I s' -> Q e s') ->
  I s ->
  framed I R Ra G Q U (calculateScoresForLogSource Date_getTime logSourceRef platform s).
Proof.
  intros Hq Hs. unfold framed; unfold calculateScoresForLogSource, bind.
  eapply sat_bind with (P1 := fun _ s' => I s').
  { unfold calculateDataFieldCompletenessScore, bind.
    destruct (String.eqb (status (mapping logSourceRef)) "unmapped");
      [simpl; exact Hs |].
    eapply sat_bind; [apply queryFieldExists_clients; exact Hs |].
    simpl. auto. }
  intros c s1 Hs1. cbv beta.
  eapply sat_bind; [apply getDeviceCompletenessScoreForPlatform_clients; exact Hs1 |].
  intros d s2 Hs2. cbv beta.
  eapply sat_bind; [apply getRetentionScoreForPlatform_clients; exact Hs2 |].
  intros r s3 Hs3. cbv beta.
  eapply sat_bind with (P1 := fun _ s' => I s').
  { apply calculateNextExecution_throws; [intros e; apply Hq; exact Hs3 | exact Hs3]. }
  intros n s4 Hs4. simpl. exact Hs4.
Qed.

Lemma scoreReferences_clients (refs : list LogSourceReference)
    (platform : option string) :
  (forall e s', I s' -> Q e s') ->
  forall s, I s -> framed I R Ra G Q U (scoreReferences Date_getTime refs platform s).
Proof.
  intros Hq. induction refs as [| ref rest IH]; intros s Hs.
  - simpl. exact Hs.
  - unfold framed. simpl. unfold bind.
    eapply sat_bind; [apply calculateScoresForLogSource_clients; assumption |].
    intros sc s1 Hs1. cbv beta.
    eapply sat_bind; [apply IH; exact Hs1 |].
    intros more s2 Hs2. simpl. exact Hs2.
Qed.

Lemma processAnalytic_clients (analytic : AnalyticDocument) (platform : option string)
    (s : Fields) :
  (forall e s', I s' -> Q e s') ->
  I s -> framed I R Ra G Q U (processAnalytic Date_getTime analytic platform s).
Proof.
  intros Hq Hs. unfold framed, processAnalytic.
  destruct (x_mitre_log_source_references analytic) as [refs |].
  - unfold bind. eapply sat_bind; [apply scoreReferences_clients; assumption |].
    intros l s1 Hs1. simpl. exact Hs1.
  - simpl. apply Hq. exact Hs.
Qed.

End Clients.

Section ClientsOfPasses.

Variable Date_getTime : string -> num.
Variables internal logs : Client.

Let I := serves internal logs.
Let G := by_client internal logs.

Lemma processHit_clients (Q : Error -> Fields -> Prop) (hit : option AnalyticDocument)
    (s : Fields) :
  I s -> framed I any_reply any_answer G Q I (processHit Date_getTime hit s).
Proof.
  intros Hs. unfold framed, processHit.
  destruct hit as [analytic |]; [| exact Hs].
  destruct (x_mitre_log_source_references analytic) as [[| ref rest] |] eqn:Hrefs;
    try exact Hs.
  unfold try_catch, bind.
  eapply sat_catch with (Q1 := fun _ s' => I s'); [| intros e s1 Hs1; exact Hs1].
  eapply sat_bind.
  - apply processAnalytic_clients with (Q := fun _ s' => I s'); [auto | exact Hs].
  - intros p s1 Hs1. sat_steps; subst I G; clients.
Qed.

Lemma recalculate_clients (Q : Error -> Fields -> Prop)
    (analytic : AnalyticDocumentWithScores) (s : Fields) :
  I s -> framed I any_reply any_answer G Q I (recalculate Date_getTime analytic s).
Proof.
  intros Hs. unfold framed, recalculate, try_catch, bind.
  eapply sat_catch with (Q1 := fun _ s' => I s'); [| intros e s1 Hs1; exact Hs1].
  unfold withoutScores.
  destruct (scored_references analytic) as [refs |]; [| exact Hs].
  simpl.
  eapply sat_bind.
  - apply processAnalytic_clients with (Q := fun _ s' => I s'); [auto | exact Hs].
  - intros p s1 Hs1. sat_steps; subst I G; clients.
Qed.

Lemma scrollLoop_clients (fuel : nat) :
  forall hits scrollId s,
    I s ->
    sat I any_reply any_answer G (fun _ s' => I s') (fun _ s' => I s') I
        (scrollLoop Date_getTime fuel hits scrollId s).
Proof.
  induction fuel as [| fuel IH]; intros hits scrollId s Hs;
    destruct hits as [| hit rest]; try exact Hs.
  cbn [scrollLoop]. unfold bind.
  eapply sat_bind with (P1 := fun _ s' => I s').
  - apply sat_for_of with (J := I); [| exact Hs].
    intros x s0 _ Hs0. apply processHit_clients. exact Hs0.
  - intros ? s1 Hs1. cbv beta.
    destruct (Js.truthy_opt scrollId); [| exact Hs1].
    simpl. split; [exact Hs1 | split; [subst I G; clients |]].
    intros [page | e] s2 _ Hs2; simpl; [| exact Hs2].
    apply IH. exact Hs2.
Qed.

Lemma processAllAnalytics_clients (fuel : nat) (s : Fields) :
  I s ->
  sat I any_reply any_answer G (fun _ s' => I s') (fun _ s' => I s') I
      (processAllAnalytics Date_getTime fuel s).
Proof.
  intros Hs. unfold processAllAnalytics, try_catch, bind.
  eapply sat_catch with (Q1 := fun _ s' => I s'); [| intros e s1 Hs1; exact Hs1].
  simpl. split; [exact Hs | split; [subst I G; clients |]].
  intros [indexExists | e] s1 _ Hs1; simpl; [| exact Hs1].
  destruct indexExists; simpl; [| exact Hs1].
  split; [exact Hs1 | split; [subst I G; clients |]].
  intros [page | e] s2 _ Hs2; simpl; [| exact Hs2].
  eapply sat_bind; [apply scrollLoop_clients; exact Hs2 |].
  intros scrollId s3 Hs3. cbv beta.
  destruct (Js.truthy_opt scrollId); sat_steps; subst I G; clients.
Qed.

Lemma smartBody_clients (fuel : nat) (s : Fields) :
  internalClient s = internal ->
  sat I any_reply any_answer G (fun _ s' => I s') (fun _ s' => I s') I
      (smartBody Date_getTime fuel logs s).
Proof.
  intros Hs. unfold smartBody, setLogsClient, bind. cbn -[getAnalyticsNeedingRecalculation].
  assert (Hs0 : I (set_logsClient logs s)) by (split; [exact Hs | reflexivity]).
  split; [exact Hs0 | split; [exact Hs |]].
  intros [resultsIndexExists | e] s1 _ Hs1; cbn -[getAnalyticsNeedingRecalculation]; [| exact Hs1].
  destruct resultsIndexExists; cbn -[getAnalyticsNeedingRecalculation].
  - split; [exact Hs1 | split; [subst I G; clients |]].
    intros [countResult | e] s2 _ Hs2; cbn -[getAnalyticsNeedingRecalculation]; [| exact Hs2].
    destruct (countResult =? 0).
    + eapply sat_bind; [apply processAllAnalytics_clients; exact Hs2 |].
      intros ? s3 Hs3. exact Hs3.
    + eapply sat_bind with (P1 := fun _ s' => I s').
      { unfold getAnalyticsNeedingRecalculation, try_catch, bind.
        sat_steps; subst I G; clients. }
      intros due s3 Hs3. cbv beta.
      destruct (Nat.eqb (List.length due) 0); [exact Hs3 |].
      eapply sat_bind with (P1 := fun _ s' => I s').
      * apply sat_for_of with (J := I); [| exact Hs3].
        intros x s0 _ Hs0'. apply recalculate_clients. exact Hs0'.
      * intros ? s4 Hs4. sat_steps; subst I G; clients.
  - eapply sat_bind; [apply processAllAnalytics_clients; exact Hs1 |].
    intros ? s3 Hs3. exact Hs3.
Qed.

End ClientsOfPasses.

(** X18. Every store call of a pass run for a user is made with the
    internal client, except the searches of the logs, which are made
    with the client of the user; [runFullCalculation] searches the
    logs with the logs client the instance has. *)
Theorem clients_of_the_passes (Date_getTime : string -> num) (w : World)
    (fuel : nat) (user : Client) (s : Fields) (h : Trace) :
  isRunning s = false ->
  let internal := internalClient s in
  (exists new,
      trace (run w (runSmartScoringWithClient Date_getTime fuel user s) h)
        = (new ++ h)%list /\
      Forall (event_ok (by_client internal user)) new) /\
  (exists new,
      trace (run w (runFullCalculationWithClient Date_getTime fuel user s) h)
        = (new ++ h)%list /\
      Forall (event_ok (by_client internal user)) new) /\
  (exists new,
      trace (run w (runFullCalculation Date_getTime fuel s) h) = (new ++ h)%list /\
      Forall (event_ok (by_client internal (logsClient s))) new).
Proof.
  intros Hs. cbv zeta. split; [| split].
  - destruct (@sat_run _ (serves (internalClient s) user) any_reply any_answer
                (by_client (internalClient s) user)
                (fun _ _ => True) (fun _ _ => True) (fun _ => True) w
                (runSmartScoringWithClient Date_getTime fuel user s) h (any_world w))
      as (new & Ht & Hg & _).
    + unfold runSmartScoringWithClient, bind, this, try_finally, try_catch.
      cbn [bindR]. rewrite Hs. cbn [bindR assign].
      eapply sat_finally
        with (P1 := fun _ _ => True) (Q1 := fun _ _ => True); [| auto | auto].
      eapply sat_catch with (Q1 := fun _ _ => True); [| intros; exact I].
      eapply sat_mono; [| | | apply smartBody_clients; reflexivity]; cbv beta; auto.
    + exists new. split; assumption.
  - destruct (@sat_run _ (serves (internalClient s) user) any_reply any_answer
                (by_client (internalClient s) user)
                (fun _ _ => True) (fun _ _ => True) (fun _ => True) w
                (runFullCalculationWithClient Date_getTime fuel user s) h
                (any_world w))
      as (new & Ht & Hg & _).
    + unfold runFullCalculationWithClient, bind, this, try_finally, try_catch.
      cbn [bindR]. rewrite Hs. cbn [bindR assign setLogsClient].
      eapply sat_finally
        with (P1 := fun _ _ => True) (Q1 := fun _ _ => True); [| auto | auto].
      eapply sat_catch with (Q1 := fun _ _ => True); [| intros; exact I].
      eapply sat_mono; [| | | apply processAllAnalytics_clients; split; reflexivity];
        cbv beta; auto.
    + exists new. split; assumption.
  - destruct (@sat_run _ (serves (internalClient s) (logsClient s))
                any_reply any_answer
                (by_client (internalClient s) (logsClient s))
                (fun _ _ => True) (fun _ _ => True) (fun _ => True) w
                (runFullCalculation Date_getTime fuel s) h (any_world w))
      as (new & Ht & Hg & _).
    + unfold runFullCalculation, bind, this, try_finally, try_catch.
      cbn [bindR]. rewrite Hs. cbn [bindR assign].
      eapply sat_finally
        with (P1 := fun _ _ => True) (Q1 := fun _ _ => True); [| auto | auto].
      eapply sat_catch with (Q1 := fun _ _ => True); [| intros; exact I].
      eapply sat_mono; [| | | apply processAllAnalytics_clients; split; reflexivity];
        cbv beta; auto.
    + exists new. split; assumption.
Qed.

Lemma clients_of_the_passes_witness :
  isRunning fresh_runner = false /\
  exists new,
    trace (run (store_world empty_store)
             (runSmartScoringWithClient no_date 3 (asCurrentUser "analyst")
                fresh_runner) [])
      = (new ++ [])%list /\
    Forall (event_ok (by_client asInternalUser (asCurrentUser "analyst"))) new.
Proof.
  split; [reflexivity |].
  destruct (@clients_of_the_passes no_date (store_world empty_store) 3
              (asCurrentUser "analyst") fresh_runner [] eq_refl)
    as (Hsmart & _).
  exact Hsmart.
Defined.

(* ================================================================== *)
(** ** The full pass on a store *)

Lemma quiet_trace (new : Trace) :
  Forall (event_ok quiet) new ->
  write_ids new = [] /\ filter is_scroll new = [] /\ scrolls_closed new = [].
Proof.
  induction 1 as [| e new He Hnew (Hw & Hs & Hc)]; [repeat split |].
  destruct e as [X c reply | X c x]; cbn in *.
  - destruct c; try contradiction; repeat split; assumption.
  - repeat split; assumption.
Qed.

Lemma scrolls_closed_app (a b : Trace) :
  scrolls_closed (a ++ b)%list = (scrolls_closed b ++ scrolls_closed a)%list.
Proof.
  induction a as [| e a IH]; cbn; [rewrite app_nil_r; reflexivity |].
  destruct e as [X c reply | X c x]; [| exact IH].
  destruct c; try exact IH. rewrite IH, app_assoc. reflexivity.
Qed.

Lemma same_instance_trans (s s1 s2 : Fields) :
  same_instance s s1 -> same_instance s1 s2 -> same_instance s s2.
Proof. intros [H1 H2] [H3 H4]. split; congruence. Qed.

Lemma next_in_range_same (st : Store) (s s' : Fields) :
  same_instance s s' -> next_in_range st s -> next_in_range st s'.
Proof. intros [_ H]. unfold next_in_range. rewrite H. auto. Qed.

(** One turn of the loop over the hits of a page. *)
Lemma processHit_store (st : Store) (Date_getTime : string -> num)
    (hit : option AnalyticDocument) (s : Fields) (h : Trace) :
  let o := run (store_world st) (processHit Date_getTime hit s) h in
  final o = returned tt /\
  same_instance s (fields o) /\
  exists new,
    trace o = (new ++ h)%list /\
    filter is_scroll new = [] /\ scrolls_closed new = [] /\
    (next_in_range st s -> write_ids new = scored_hits [hit]).
Proof.
  unfold processHit.
  assert (Hnone : forall s0 : Fields,
             final (run (store_world st) (ret tt s0) h) = returned tt /\
             same_instance s0 (fields (run (store_world st) (ret tt s0) h)) /\
             exists new,
               trace (run (store_world st) (ret tt s0) h) = (new ++ h)%list /\
               filter is_scroll new = [] /\ scrolls_closed new = [] /\
               write_ids new = []).
  { intros s0. cbn. repeat split. exists []. repeat split. }
  destruct hit as [analytic |].
  2:{ destruct (Hnone s) as (H1 & H2 & new & H3 & H4 & H5 & H6).
      split; [exact H1 |]. split; [exact H2 |]. exists new.
      repeat (split; [assumption |]). intros _. exact H6. }
  destruct (x_mitre_log_source_references analytic) as [[| ref rest] |] eqn:Hrefs.
  1,3: destruct (Hnone s) as (H1 & H2 & new & H3 & H4 & H5 & H6);
       cbn [scored_hits]; rewrite Hrefs;
       (split; [exact H1 |]); (split; [exact H2 |]); exists new;
       repeat (split; [assumption |]); intros _; exact H6.
  cbv zeta. unfold try_catch, bind. rewrite run_catch, run_bind.
  destruct (@processAnalytic_run st Date_getTime analytic s h)
    as (new & Ht & Hq & Hc & Hf); [rewrite Hrefs; discriminate |].
  destruct (quiet_trace Hq) as (Hw & Hs & Hcl).
  set (o1 := run (store_world st) (processAnalytic Date_getTime analytic None s) h) in *.
  clearbody o1.
  unfold continue, handle. cbn [scored_hits]. rewrite Hrefs.
  destruct (final o1) as [p | e |] eqn:Hfin; [| | contradiction].
  - cbn [bindR this await run].
    destruct (respond (store_world st) (trace o1) _) as [[] | e] eqn:Hreply; cbn;
      (split; [reflexivity |]); (split; [exact Hc |]);
      eexists ([_] ++ new)%list; rewrite Ht; (split; [reflexivity |]);
      rewrite filter_app, scrolls_closed_app, write_ids_app, Hw, Hs, Hcl; cbn;
      rewrite Hf; repeat split.
  - cbn. split; [reflexivity |]. split; [exact Hc |].
    exists new. repeat split; auto. intros Hin. contradiction.
Qed.

Lemma scored_hits_app (a b : list (option AnalyticDocument)) :
  scored_hits (a ++ b) = (scored_hits a ++ scored_hits b)%list.
Proof.
  induction a as [| [analytic |] a IH]; cbn; [reflexivity | | exact IH].
  destruct (x_mitre_log_source_references analytic) as [[| ref rest] |];
    cbn; rewrite IH; reflexivity.
Qed.

Lemma for_of_cons (X : Type) (x : X) (l : list X) (body : X -> Task unit) :
  for_of (x :: l) body = (body x ;;; for_of l body).
Proof. reflexivity. Qed.

(** The loop over the hits of a page. *)
Lemma processHits_store (st : Store) (Date_getTime : string -> num)
    (hits : list (option AnalyticDocument)) :
  forall (s : Fields) (h : Trace),
    let o := run (store_world st) (for_of hits (processHit Date_getTime) s) h in
    final o = returned tt /\
    same_instance s (fields o) /\
    exists new,
      trace o = (new ++ h)%list /\
      filter is_scroll new = [] /\ scrolls_closed new = [] /\
      (next_in_range st s -> rev (write_ids new) = scored_hits hits).
Proof.
  induction hits as [| hit rest IH]; intros s h.
  - cbn. repeat split. exists []. repeat split.
  - rewrite for_of_cons. unfold bind. cbv zeta. rewrite run_bind.
    destruct (processHit_store st Date_getTime hit s h)
      as (Hf1 & Hc1 & new1 & Ht1 & Hs1 & Hcl1 & Hw1).
    set (o1 := run (store_world st) (processHit Date_getTime hit s) h) in *.
    clearbody o1.
    unfold continue. rewrite Hf1.
    destruct (IH (fields o1) (trace o1))
      as (Hf2 & Hc2 & new2 & Ht2 & Hs2 & Hcl2 & Hw2).
    split; [exact Hf2 |].
    split; [eapply same_instance_trans; eassumption |].
    exists (new2 ++ new1)%list.
    split; [rewrite Ht2, Ht1, app_assoc; reflexivity |].
    split; [rewrite filter_app, Hs1, Hs2; reflexivity |].
    split; [rewrite scrolls_closed_app, Hcl1, Hcl2; reflexivity |].
    intros Hrange.
    rewrite write_ids_app, rev_app_distr, (Hw1 Hrange),
      (Hw2 (next_in_range_same Hc1 Hrange)).
    change (hit :: rest) with ([hit] ++ rest)%list. rewrite scored_hits_app.
    f_equal. 
    cbn [scored_hits]. destruct hit as [analytic |]; [| reflexivity].
    destruct (x_mitre_log_source_references analytic) as [[| ? ?] |]; reflexivity.
Qed.

Lemma skipn_nth (X : Type) (d : X) (l : list X) :
  forall k, (k < List.length l)%nat -> skipn k l = nth k l d :: skipn (S k) l.
Proof.
  induction l as [| x rest IH]; intros k Hk; [cbn in Hk; lia |].
  destruct k as [| k]; [reflexivity |].
  cbn [skipn nth]. apply IH. cbn in Hk. lia.
Qed.

Lemma paged_last (pages : list ScrollPage) :
  paged pages -> pages <> [] ->
  Js.truthy_opt (_scroll_id (end_page pages)) = true.
Proof.
  intros Hp Hne. unfold end_page. cbn [_scroll_id].
  unfold paged in Hp. rewrite Forall_forall in Hp.
  destruct (exists_last Hne) as (front & page & ->).
  rewrite last_last. apply Hp. apply in_or_app. right. left. reflexivity.
Qed.

(** The scan from the page [k] on, on a store that served [k]
    continuations of the scroll so far. *)
Lemma scrollLoop_store (st : Store) (Date_getTime : string -> num)
    (pages : list ScrollPage) :
  catalog st = Some pages -> scroll_reply st = None -> paged pages ->
  forall (fuel k : nat) (s : Fields) (h : Trace),
    continuations h = k ->
    (List.length pages <= fuel + k)%nat ->
    let page := nth k pages (end_page pages) in
    let o := run (store_world st)
               (scrollLoop Date_getTime fuel (hits_hits page) (_scroll_id page) s) h in
    final o = returned (_scroll_id (end_page pages)) /\
    same_instance s (fields o) /\
    exists new,
      trace o = (new ++ h)%list /\
      scrolls_closed new = [] /\
      (next_in_range st s ->
       rev (write_ids new)
         = flat_map (fun p => scored_hits (hits_hits p)) (skipn k pages)).
Proof.
  intros Hcat Hreply Hpaged.
  induction fuel as [| fuel IH]; intros k s h Hk Hfuel; cbv zeta.
  - rewrite nth_overflow by lia. rewrite skipn_all2 by lia.
    cbn. repeat split. exists []. repeat split.
  - destruct (Nat.lt_ge_cases k (List.length pages)) as [Hlt | Hge].
    2:{ rewrite nth_overflow by lia. rewrite skipn_all2 by lia.
        cbn. repeat split. exists []. repeat split. }
    rewrite (skipn_nth (end_page pages) _ Hlt).
    set (page := nth k pages (end_page pages)).
    assert (Hpage : hits_hits page <> [] /\ Js.truthy_opt (_scroll_id page) = true).
    { unfold paged in Hpaged. rewrite Forall_forall in Hpaged.
      apply Hpaged. apply nth_In. exact Hlt. }
    destruct Hpage as [Hhits Hid].
    destruct (hits_hits page) as [| hit rest] eqn:Ehits; [contradiction |].
    cbn [scrollLoop]. unfold bind. rewrite run_bind.
    destruct (processHits_store st Date_getTime (hit :: rest) s h)
      as (Hf1 & Hc1 & new1 & Ht1 & Hs1 & Hcl1 & Hw1).
    set (o1 := run (store_world st) (for_of (hit :: rest) (processHit Date_getTime) s) h)
      in *.
    clearbody o1. unfold continue. rewrite Hf1, Hid.
    cbn [bindR this await run respond store_world store_respond].
    rewrite Hreply, Hcat. cbn [bindR].
    assert (Hcount : List.length (filter is_scroll (trace o1)) = k).
    { rewrite Ht1, filter_app, Hs1. exact Hk. }
    rewrite Hcount.
    match goal with
    | |- context [run _ (scrollLoop _ fuel _ _ ?s0) ?h0] =>
        destruct (IH (S k) s0 h0) as (Hf2 & Hc2 & new2 & Ht2 & Hcl2 & Hw2);
        [unfold continuations; cbn [filter is_scroll List.length];
         rewrite Hcount; reflexivity
        | lia |]
    end.
    cbv zeta in Hf2, Hc2, Ht2.
    split; [exact Hf2 |].
    split; [eapply same_instance_trans; eassumption |].
    eexists (new2 ++ [_] ++ new1)%list.
    split; [rewrite Ht2, Ht1, <- !app_assoc; reflexivity |].
    split.
    + rewrite !scrolls_closed_app, Hcl1, Hcl2. reflexivity.
    + intros Hrange.
      rewrite !write_ids_app, !rev_app_distr. cbn [write_ids rev app].
      rewrite (Hw1 Hrange), (Hw2 (next_in_range_same Hc1 Hrange)).
      cbn [flat_map]. rewrite Ehits, app_nil_r. reflexivity.
Qed.

(** X19. On a catalog served in pages that all have hits and a scroll
    id, with a store whose scroll does not fail and at least as many
    rounds as pages, the full pass sends one result for each analytic
    that has a source and at least one log-source reference, in the
    order of the catalog, and no other; it clears the last scroll, and
    it returns unless the final refresh fails, whose error it
    throws. *)
Theorem full_pass_scores_the_catalog (st : Store) (Date_getTime : string -> num)
    (pages : list ScrollPage) (fuel : nat) (s : Fields) (h : Trace) :
  catalog st = Some pages -> scroll_reply st = None -> paged pages ->
  (List.length pages <= fuel)%nat ->
  continuations h = 0%nat ->
  next_in_range st s ->
  let o := run (store_world st) (processAllAnalytics Date_getTime fuel s) h in
  exists new,
    trace o = (new ++ h)%list /\
    rev (write_ids new) = flat_map (fun p => scored_hits (hits_hits p)) pages /\
    scrolls_closed new = last_scroll pages /\
    final o = match refresh_reply st with
              | Ok _ => returned tt
              | Err e => thrown e
              end.
Proof.
  intros Hcat Hreply Hpaged Hfuel Hh Hrange. cbv zeta.
  unfold processAllAnalytics, try_catch, bind. rewrite run_catch.
  cbn [bindR this await run respond store_world store_respond].
  change (String.eqb ECS_INDEX_NAME SETTINGS_INDEX_NAME) with false.
  change (String.eqb ECS_INDEX_NAME ECS_INDEX_NAME) with true.
  cbv iota. rewrite Hcat.
  cbn [is_some negb bindR run respond store_world store_respond].
  rewrite Hcat. cbn [bindR]. rewrite run_bind.
  match goal with
  | |- context [run _ (scrollLoop _ fuel _ _ ?s0) ?h0] =>
      destruct (@scrollLoop_store st Date_getTime pages Hcat Hreply Hpaged
                  fuel 0%nat s0 h0)
        as (Hf & Hc & new & Ht & Hcl & Hw);
      [unfold continuations in *; cbn [filter is_scroll]; exact Hh | lia |]
  end.
  cbv zeta in Hf, Hc, Ht.
  match goal with
  | |- context [run ?w0 (scrollLoop ?d fuel ?hits ?sid ?s0) ?h0] =>
      set (o1 := run w0 (scrollLoop d fuel hits sid s0) h0) in *
  end.
  clearbody o1. unfold continue, handle. rewrite Hf.
  specialize (Hw Hrange). cbn [skipn] in Hw.
  destruct pages as [| page pages'] eqn:Hpages.
  - cbn [end_page last _scroll_id empty_page Js.truthy_opt].
    cbn [bindR this await ret run respond store_world store_respond].
    destruct (refresh_reply st) as [[] | e]; cbn;
      eexists ([_] ++ new ++ [_; _])%list;
      (split; [rewrite Ht, <- !app_assoc; reflexivity |]);
      rewrite !write_ids_app, !scrolls_closed_app, !rev_app_distr, Hcl, Hw;
      repeat split.
  - rewrite <- Hpages in *.
    assert (Hne : pages <> []) by (rewrite Hpages; discriminate).
    rewrite (paged_last Hpaged Hne).
    cbn [bindR this await ret run respond store_world store_respond].
    destruct (refresh_reply st) as [[] | e]; cbn;
      eexists ([_; _] ++ new ++ [_; _])%list;
      (split; [rewrite Ht, <- !app_assoc; reflexivity |]);
      rewrite !write_ids_app, !scrolls_closed_app, !rev_app_distr, Hcl, Hw;
      cbn; rewrite app_nil_r;
      (split; [reflexivity |]); (split; [| reflexivity]);
      rewrite Hpages; reflexivity.
Qed.

Lemma full_pass_scores_the_catalog_witness :
  paged sample_pages /\ next_in_range sample_catalog fresh_runner /\
  let o := run (store_world sample_catalog)
             (processAllAnalytics no_date 2 fresh_runner) [] in
  exists new,
    trace o = (new ++ [])%list /\
    rev (write_ids new) = ["AN-1"; "AN-2"; "AN-3"] /\
    scrolls_closed new = ["scroll-2"] /\
    final o = returned tt.
Proof.
  assert (Hp : paged sample_pages).
  { repeat constructor; discriminate. }
  assert (Hn : next_in_range sample_catalog fresh_runner) by discriminate.
  split; [exact Hp |]. split; [exact Hn |].
  exact (@full_pass_scores_the_catalog sample_catalog no_date sample_pages 2
           fresh_runner [] eq_refl eq_refl Hp (le_n 2) eq_refl Hn).
Defined.

(* ================================================================== *)
(** ** A failing search for the due results *)

Lemma failing_search_world_obeys :
  obeys failing_search_world due_search_fails any_answer.
Proof.
  split; [| intros; exact I]. intros X h c. destruct c; cbn; try exact I.
  - reflexivity.
  - exists 3. split; [reflexivity | discriminate].
  - eexists. reflexivity.
Qed.

(** X20. When the result index holds results and the search for the
    due ones fails, the smart pass reports [{action: 'none', count:
    0}], as if nothing were due, and sends no result:
    [getAnalyticsNeedingRecalculation] swallows the error of the
    search. *)
Theorem failed_due_search_reports_none (Date_getTime : string -> num) (w : World)
    (fuel : nat) (user : Client) (s : Fields) (h : Trace) :
  obeys w due_search_fails any_answer ->
  isRunning s = false ->
  let o := run w (runSmartScoringWithClient Date_getTime fuel user s) h in
  final o = returned {| action := none; count := 0 |} /\
  exists new, trace o = (new ++ h)%list /\ write_ids new = [].
Proof.
  intros Hw Hs. cbv zeta.
  destruct (@sat_run _ always due_search_fails any_answer no_write
              (fun r _ => r = {| action := none; count := 0 |})
              (fun _ _ => False) (fun _ => False) w
              (runSmartScoringWithClient Date_getTime fuel user s) h Hw)
    as (new & Ht & Hg & Hf).
  - unfold runSmartScoringWithClient, bind, this, try_finally, try_catch.
    cbn [bindR]. rewrite Hs. cbn [bindR assign].
    eapply sat_finally
      with (P1 := fun r _ => r = {| action := none; count := 0 |})
           (Q1 := fun _ _ => False); [| auto | auto].
    eapply sat_catch with (Q1 := fun _ _ => False); [| intros e s0 []].
    unfold smartBody, setLogsClient, bind.
    cbn -[getAnalyticsNeedingRecalculation].
    split; [exact I | split; [exact I |]].
    intros reply s1 Hreply _. cbn in Hreply. subst reply.
    cbn -[getAnalyticsNeedingRecalculation].
    split; [exact I | split; [exact I |]].
    intros reply s2 (n & -> & Hn) _. cbn -[getAnalyticsNeedingRecalculation].
    apply Z.eqb_neq in Hn. rewrite Hn.
    unfold getAnalyticsNeedingRecalculation, try_catch, bind. cbn.
    intros now _. split; [exact I | split; [exact I |]].
    intros reply s3 (e & ->) _. cbn. reflexivity.
  - split.
    + destruct (final _) as [r | e |]; [rewrite Hf; reflexivity | contradiction | contradiction].
    + exists new. split; [exact Ht |].
      clear Ht Hf. induction Hg as [| e new He Hnew IH]; [reflexivity |].
      destruct e as [X c reply | X c x]; cbn; [| exact IH].
      destruct c; cbn in *; try exact IH. contradiction.
Qed.

Lemma failed_due_search_reports_none_witness :
  obeys failing_search_world due_search_fails any_answer /\
  isRunning fresh_runner = false /\
  final (run failing_search_world
           (runSmartScoringWithClient no_date 3 (asCurrentUser "analyst")
              fresh_runner) [])
    = returned {| action := none; count := 0 |}.
Proof.
  split; [exact failing_search_world_obeys |]. split; [reflexivity |].
  destruct (@failed_due_search_reports_none no_date failing_search_world 3
              (asCurrentUser "analyst") fresh_runner []
              failing_search_world_obeys eq_refl) as [Hf _].
  exact Hf.
Defined.

(* ================================================================== *)
(** ** The quality score without configured scores *)

Lemma Js_between_le (lo hi hi' : Q) (a : num) :
  (hi <= hi')%Q -> Js.between lo hi a -> Js.between lo hi' a.
Proof.
  intros Hle. destruct a as [x |]; [| auto]. cbn. intros [H1 H2].
  split; [exact H1 | eapply Qle_trans; eassumption].
Qed.

Lemma fetchRetentionSettings_empty (s : Fields) :
  nothing_cached s ->
  sat nothing_cached no_settings any_answer any_call
      (fun o s' => o = [] /\ nothing_cached s')
      (fun _ _ => False) (fun _ => False)
      (fetchRetentionSettings s).
Proof.
  intros Hs. unfold fetchRetentionSettings, bind, try_catch, ask, this, assign, ret.
  cbn. intros now _.
  destruct (now - retentionScoresCacheTimestamp s <? CACHE_TTL_MS).
  - cbn. split; [apply Hs | exact Hs].
  - cbn. split; [exact Hs | split; [exact I |]].
    assert (Hset : forall s0 t,
               nothing_cached s0 ->
               nothing_cached (set_retentionScoresCacheTimestamp t
                                 (set_retentionScoresCache [] s0))).
    { intros s0 t [_ H]. split; [reflexivity | exact H]. }
    intros [indexExists | e] s1 _ Hs1; cbn.
    + destruct indexExists; cbn.
      * split; [exact Hs1 | split; [exact I |]].
        intros [[o |] | e] s2 Ho Hs2; cbn; try contradiction; intros t _; cbn;
          (split; [reflexivity | apply Hset; exact Hs2]).
      * intros t _. cbn. split; [reflexivity | apply Hset; exact Hs1].
    + intros t _. cbn. split; [reflexivity | apply Hset; exact Hs1].
Qed.

Lemma fetchDeviceCompletenessSettings_empty (s : Fields) :
  nothing_cached s ->
  sat nothing_cached no_settings any_answer any_call
      (fun o s' => o = [] /\ nothing_cached s')
      (fun _ _ => False) (fun _ => False)
      (fetchDeviceCompletenessSettings s).
Proof.
  intros Hs.
  unfold fetchDeviceCompletenessSettings, bind, try_catch, ask, this, assign, ret.
  cbn. intros now _.
  destruct (now - deviceCompletenessCacheTimestamp s <? CACHE_TTL_MS).
  - cbn. split; [apply Hs | exact Hs].
  - cbn. split; [exact Hs | split; [exact I |]].
    assert (Hset : forall s0 t,
               nothing_cached s0 ->
               nothing_cached (set_deviceCompletenessCacheTimestamp t
                                 (set_deviceCompletenessCache [] s0))).
    { intros s0 t [H _]. split; [exact H | reflexivity]. }
    intros [indexExists | e] s1 _ Hs1; cbn.
    + destruct indexExists; cbn.
      * split; [exact Hs1 | split; [exact I |]].
        intros [[o |] | e] s2 Ho Hs2; cbn; try contradiction; intros t _; cbn;
          (split; [reflexivity | apply Hset; exact Hs2]).
      * intros t _. cbn. split; [reflexivity | apply Hset; exact Hs1].
    + intros t _. cbn. split; [reflexivity | apply Hset; exact Hs1].
Qed.

Lemma default_of_nothing (platform : option string) (d : num) :
  plain_key platform ->
  (if Js.truthy_opt platform then Js.nullish (Js.get [] (the platform)) d
   else if Nat.eqb (List.length (Js.Object_values [])) 0 then Js.VNumber d
        else Js.VNumber (averageScore (Js.Object_values []))) = Js.VNumber d.
Proof.
  intros Hp. destruct platform as [p |]; [| reflexivity].
  cbn [Js.truthy_opt the]. destruct (Js.truthy p); [| reflexivity].
  change (Js.inherited p = false) in Hp.
  unfold Js.get. cbn [Js.own]. rewrite Hp. reflexivity.
Qed.

Lemma completeness_in_range (I : Fields -> Prop)
    (R : forall X : Type, Request X -> Result X -> Prop)
    (status confidence nameField nameValue : string)
    (channelField channelValue : option string) (s : Fields) :
  Js.inherited status = false -> Js.inherited confidence = false ->
  I s ->
  sat I R any_answer any_call
      (fun r s' => Js.between 0 5 (completeness_score r) /\ I s')
      (fun _ _ => False) (fun _ => False)
      (calculateDataFieldCompletenessScore status confidence nameField nameValue
         channelField channelValue s).
Proof.
  intros Hst Hcf Hs. unfold calculateDataFieldCompletenessScore.
  destruct (String.eqb status "unmapped") eqn:Hu.
  - cbn. split; [split; discriminate | exact Hs].
  - apply String.eqb_neq in Hu.
    rewrite (own_statusMultipliers Hu Hst).
    pose proof (own_confidenceMultipliers confidence Hcf) as Hc.
    destruct (Js.ToNumber (Js.nullish (Js.get confidenceMultipliers confidence) (dec 0 1)))
      as [c |]; [| contradiction].
    change (c == confidenceMultiplier confidence)%Q in Hc.
    pose proof (statusMultiplier_between status) as [Hm0 Hm1].
    pose proof (confidenceMultiplier_between confidence) as [Hc0 Hc1].
    rewrite <- Hc in Hc0, Hc1.
    assert (Hscore : forall b : Q, (0 <= b)%Q -> (b <= 5)%Q ->
              Js.between 0 5
                (Js.div
                   (Js.Math_round
                      (Js.mul
                         (Js.mul (Js.mul (Num b)
                                    (Js.ToNumber (Js.VNumber (Num (statusMultiplier status)))))
                                 (Num c))
                         (dec 100 1)))
                   (dec 100 1))).
    { intros b Hb0 Hb5. cbn [Js.ToNumber Js.mul Js.lift2].
      apply (@rounded_between 100); apply product_between; assumption. }
    unfold queryFieldExists, bind, try_catch.
    destruct (negb (Js.truthy nameField) || negb (Js.truthy nameValue))%bool.
    + cbn [bindR ret sat completeness_score exists_].
      split; [apply (Hscore (0 # 1)); discriminate | exact Hs].
    + cbn [bindR catchR this await sat].
      split; [exact Hs | split; [exact Logic.I |]].
      intros [[| hit rest] | e] s1 _ Hs1;
        cbn [bindR catchR ret sat completeness_score exists_];
        (split; [| exact Hs1]);
        [apply (Hscore (0 # 1)) | apply (Hscore (5 # 1)) | apply (Hscore (0 # 1))];
        discriminate.
Qed.

(** The aggregate of three numbers of [0, 5], a device completeness of
    0 or 2 and a retention of 0 or 5. *)
Lemma qualityScore_capped (c t k : Q) (fieldExists : bool) :
  (0 <= c /\ c <= 5)%Q -> (0 <= t /\ t <= 5)%Q -> (0 <= k /\ k <= 5)%Q ->
  Js.between 0 (44 # 10)
    (qualityScore (Num c) (Num t) (Num k)
       (score (calculateDeviceCompletenessScore fieldExists
                 (Js.VNumber DEFAULT_DEVICE_COMPLETENESS_SCORE)))
       (score (calculateRetentionScore fieldExists
                 (Js.VNumber DEFAULT_RETENTION_SCORE)))).
Proof.
  intros Hc Ht Hk.
  assert (H : forall d r : Q,
             (0 <= d /\ d <= 2)%Q -> (0 <= r /\ r <= 5)%Q ->
             Js.between 0 (44 # 10)
               (qualityScore (Num c) (Num t) (Num k) (Js.VNumber (Num d))
                  (Js.VNumber (Num r)))).
  { intros d r Hd Hr. unfold qualityScore.
    cbn [Js.plus Js.ToNumber Js.add Js.lift2].
    unfold Js.div at 2. unfold dec at 1.
    change (Qeq_bool (5 # 1) 0) with false. cbv iota.
    unfold Js.div, Js.Math_round, Js.mul, Js.lift2, dec.
    change (Qeq_bool (10 # 1) 0) with false. cbv iota. unfold Js.between.
    set (total := (c + t + k + d + r)%Q).
    assert (Htotal : (0 <= total /\ total <= 22)%Q) by (unfold total; split; lra).
    destruct (@round_between 0 44 (total / (5 # 1) * (10 # 1))) as [Hlo Hhi].
    - change (inject_Z 0) with 0%Q.
      setoid_replace (total / (5 # 1) * (10 # 1))%Q with (total * 2)%Q by field. lra.
    - change (inject_Z 44) with 44%Q.
      setoid_replace (total / (5 # 1) * (10 # 1))%Q with (total * 2)%Q by field. lra.
    - split.
      + apply Qle_shift_div_l; [reflexivity |].
        rewrite Qmult_0_l. change 0%Q with (inject_Z 0). rewrite <- Zle_Qle. exact Hlo.
      + apply Qle_shift_div_r; [reflexivity |].
        apply Qle_trans with (inject_Z 44); [| discriminate].
        rewrite <- Zle_Qle. exact Hhi. }
  unfold calculateDeviceCompletenessScore, calculateRetentionScore.
  destruct fieldExists; cbn [negb score Js.nullish];
    apply H; split; discriminate.
Qed.

Lemma scores_capped (Date_getTime : string -> num)
    (logSourceRef : LogSourceReference) (platform : option string) (s : Fields) :
  Js.inherited (status (mapping logSourceRef)) = false ->
  Js.inherited (confidence (mapping logSourceRef)) = false ->
  plain_key platform -> nothing_cached s ->
  sat nothing_cached no_settings any_answer any_call
      (fun sc _ => capped sc) (fun e _ => e = invalid_time) (fun _ => False)
      (calculateScoresForLogSource Date_getTime logSourceRef platform s).
Proof.
  intros Hst Hcf Hp Hs. unfold calculateScoresForLogSource, bind.
  eapply sat_bind
    with (P1 := fun r s' => Js.between 0 5 (completeness_score r) /\ nothing_cached s').
  { eapply sat_mono; [| | | apply completeness_in_range; eassumption];
      cbv beta; intros; try contradiction; assumption. }
  intros c s1 [Hc Hs1]. cbv beta.
  eapply sat_bind
    with (P1 := fun v s' => v = Js.VNumber DEFAULT_DEVICE_COMPLETENESS_SCORE /\
                            nothing_cached s').
  { unfold getDeviceCompletenessScoreForPlatform, bind.
    eapply sat_bind with (P1 := fun o s' => o = [] /\ nothing_cached s').
    - eapply sat_mono; [| | | apply fetchDeviceCompletenessSettings_empty; exact Hs1];
        cbv beta; intros; try contradiction; assumption.
    - intros settings s2 [-> Hs2]. cbv beta.
      pose proof (@default_of_nothing platform DEFAULT_DEVICE_COMPLETENESS_SCORE Hp) as Hd.
      destruct (Js.truthy_opt platform); [| destruct (Nat.eqb _ 0)];
        cbn [ret sat]; (split; [exact Hd | exact Hs2]). }
  intros d s2 [-> Hs2]. cbv beta.
  eapply sat_bind
    with (P1 := fun v s' => v = Js.VNumber DEFAULT_RETENTION_SCORE /\
                            nothing_cached s').
  { unfold getRetentionScoreForPlatform, bind.
    eapply sat_bind with (P1 := fun o s' => o = [] /\ nothing_cached s').
    - eapply sat_mono; [| | | apply fetchRetentionSettings_empty; exact Hs2];
        cbv beta; intros; try contradiction; assumption.
    - intros settings s3 [-> Hs3]. cbv beta.
      pose proof (@default_of_nothing platform DEFAULT_RETENTION_SCORE Hp) as Hd.
      destruct (Js.truthy_opt platform); [| destruct (Nat.eqb _ 0)];
        cbn [ret sat]; (split; [exact Hd | exact Hs3]). }
  intros r s3 [-> Hs3]. cbv beta.
  eapply sat_bind with (P1 := fun _ _ => True).
  { eapply sat_mono;
      [| | | apply calculateNextExecution_range
               with (I := nothing_cached) (U := fun _ => False); exact Hs3].
    - intros; exact I.
    - intros e s0 [He _]. exact He.
    - intros s0 H. exact H. }
  intros next s4 _. cbn [ret sat]. unfold capped. cbn [quality_score].
  pose proof (timeliness_between Date_getTime (completeness_lastDoc c)) as Ht.
  pose proof (consistency_between
                (Js.gt (base_score (completeness_details c)) (dec 0 1))) as Hk.
  destruct (completeness_score c) as [cq |]; [| contradiction].
  destruct (score (calculateTimelinessScore Date_getTime (completeness_lastDoc c)))
    as [tq |]; [| contradiction].
  destruct (score (calculateConsistencyScore _)) as [kq |]; [| contradiction].
  apply qualityScore_capped; assumption.
Qed.

Lemma found_store_no_settings :
  obeys (store_world found_store) no_settings any_answer.
Proof.
  split; [| intros; exact I]. intros X h c. destruct c; exact I.
Qed.

(** X21. With no configured score stored or cached, the quality score
    of a reference is a number of [0, 4.4], whatever the log store
    holds: the default device-completeness score of 2 keeps it below
    5.  This holds for a status, a confidence and a platform that are
    no inherited property names; all the scoring can throw is the
    [RangeError] of a next execution beyond the range of [Date]. *)
Theorem quality_is_capped_without_settings (Date_getTime : string -> num) (w : World)
    (logSourceRef : LogSourceReference) (platform : option string)
    (s : Fields) (h : Trace) :
  obeys w no_settings any_answer ->
  nothing_cached s ->
  Js.inherited (status (mapping logSourceRef)) = false ->
  Js.inherited (confidence (mapping logSourceRef)) = false ->
  plain_key platform ->
  match final (run w (calculateScoresForLogSource Date_getTime logSourceRef
                        platform s) h)
  with
  | returned sc => capped sc
  | thrown e => e = invalid_time
  | unfinished => False
  end.
Proof.
  intros Hw Hs Hst Hcf Hp.
  destruct (@sat_run _ nothing_cached no_settings any_answer any_call
              (fun sc _ => capped sc) (fun e _ => e = invalid_time)
              (fun _ => False) w
              (calculateScoresForLogSource Date_getTime logSourceRef platform s) h Hw)
    as (new & _ & _ & Hf); [| exact Hf].
  apply scores_capped; assumption.
Qed.

Lemma quality_is_capped_without_settings_witness :
  obeys (store_world found_store) no_settings any_answer /\
  nothing_cached fresh_runner /\
  plain_key (Some "Windows") /\
  match final (run (store_world found_store)
                 (calculateScoresForLogSource minutes_after reference_without_channel
                    (Some "Windows") fresh_runner) [])
  with
  | returned sc => capped sc
  | thrown e => e = invalid_time
  | unfinished => False
  end.
Proof.
  assert (Hn : nothing_cached fresh_runner) by (split; reflexivity).
  split; [exact found_store_no_settings |]. split; [exact Hn |].
  split; [reflexivity |].
  exact (@quality_is_capped_without_settings minutes_after (store_world found_store)
           reference_without_channel (Some "Windows") fresh_runner []
           found_store_no_settings Hn eq_refl eq_refl eq_refl).
Defined.
